(** * Matchlock: a shallow embedding of the CLI, the SDK client, the error
    helpers and the image builder, with the properties proved about them.

    Layout:
    - [Errx]     : internal/errx (Wrap, With) over a model of Go error
                   values, fmt.Errorf's %w bookkeeping and errors.Is.
    - [Sdk]      : pkg/sdk JSON-RPC error codes and Client.sendRequest.
    - [Strings]  : strings.HasPrefix and strings.Contains.
    - [State]    : pkg/state Manager (List, Remove).
    - [Cli]      : cmd/matchlock (main, runRun, runInteractive, runExec,
                   runExecInteractive, runRemove).
    - [Filepath] : path/filepath on Unix (Clean, Join, Dir).
    - [Image]    : pkg/image (Builder.extractImage, sanitizeRef,
                   extractOCIConfig, Builder.Build).
    - [Sysinfo]  : cmd/matchlock totalMemoryMB (darwin).
    - [Kill]     : cmd/matchlock runKill.
    - [BuildCmd] : cmd/matchlock runBuild and runDockerfileBuild. *)

From Stdlib Require Import ZArith Lia Bool List Ascii String.
From stdpp Require Import base option list strings gmap.

Local Open Scope string_scope.
Local Open Scope list_scope.
Set Warnings "-register-all".

(* ===================================================================== *)
(** * internal/errx                                                        *)
(* ===================================================================== *)

Module Errx.

(** Go error values (a non-nil value of interface type [error]).

    - [ErrLeaf comparable key msg] is an error that has neither an [Is] nor
      an [Unwrap] method: the pointer returned by [errors.New] (comparable,
      [key] is its address), a [syscall.Errno] (comparable, [key] is its
      number), or a value of a slice or map type that implements [error]
      (not comparable).  [key] identifies the dynamic type and the value
      together: two leaves with the same key are the same value of the
      same type.  The leaves stand for values on which [==] is total and
      reflexive (pointers, numbers, strings); a comparable type whose
      values are not equal to themselves (a float holding NaN) or whose
      comparison panics (a struct with an interface field holding a
      slice) is outside the model.
    - [ErrWrapError addr msg err] is the [*fmt.wrapError] at address [addr];
      its [Unwrap() error] returns [err].
    - [ErrWrapErrors addr msg errs] is the [*fmt.wrapErrors] at [addr]; its
      [Unwrap() []error] returns [errs].

    A nil error is [None] in [option error]. *)
Inductive error : Type :=
| ErrLeaf (comparable : bool) (key : nat) (msg : string)
| ErrWrapError (addr : nat) (msg : string) (err : option error)
| ErrWrapErrors (addr : nat) (msg : string) (errs : list error).

(** [reflectlite.TypeOf(e).Comparable()]: pointers are comparable. *)
Definition Comparable (e : error) : bool :=
  match e with
  | ErrLeaf c _ _ => c
  | ErrWrapError _ _ _ => true
  | ErrWrapErrors _ _ _ => true
  end.

(** [x == y] on two non-nil interface values whose dynamic types are
    comparable: same dynamic type and same value (same address for the
    pointer types). *)
Definition go_eq (x y : error) : bool :=
  match x, y with
  | ErrLeaf _ k1 _, ErrLeaf _ k2 _ => Nat.eqb k1 k2
  | ErrWrapError a1 _ _, ErrWrapError a2 _ _ => Nat.eqb a1 a2
  | ErrWrapErrors a1 _ _, ErrWrapErrors a2 _ _ => Nat.eqb a1 a2
  | _, _ => false
  end.

(** The [Error()] method. *)
Definition Error (e : error) : string :=
  match e with
  | ErrLeaf _ _ m => m
  | ErrWrapError _ m _ => m
  | ErrWrapErrors _ m _ => m
  end.

(** errors.is: the loop of the standard library, by recursion on the chain.
    The equality test is only made when the target's type is comparable;
    none of the modelled values has an [Is] method. *)
Fixpoint is_ (err target : error) (targetComparable : bool) : bool :=
  (targetComparable && go_eq err target)
  || match err with
     | ErrLeaf _ _ _ => false
     | ErrWrapError _ _ None => false
     | ErrWrapError _ _ (Some inner) => is_ inner target targetComparable
     | ErrWrapErrors _ _ errs =>
         existsb (fun e => is_ e target targetComparable) errs
     end.

(** errors.Is. *)
Definition Is (err target : option error) : bool :=
  match err, target with
  | Some e, Some t => is_ e t (Comparable t)
  | None, None => true
  | _, _ => false
  end.

(** An operand of a variadic [...any] parameter. *)
Inductive any : Type :=
| AnyError (e : option error)
| AnyString (s : string).

(** [a[argNum].(error)]: the operand as a non-nil error, if it is one. *)
Definition as_error (a : list any) (argNum : nat) : option error :=
  match a !! argNum with
  | Some (AnyError e) => e
  | _ => None
  end.

(** The operand numbers fmt's doPrintf records in [p.wrappedErrs]: one per
    [%w] verb that still has an operand.  A verb is [%] and one letter and
    takes the next operand; [%%] takes none.  Flags, widths, precisions and
    explicit operand indexes are outside the model: it is used for the
    formats of [plain_verbs] only, below, among them the ": %w" of Wrap. *)
Fixpoint wrappedErrs (format : string) (argNum : nat) (nargs : nat) : list nat :=
  match format with
  | EmptyString => []
  | String c rest =>
      if Ascii.eqb c "%" then
        match rest with
        | EmptyString => []
        | String v rest' =>
            if Ascii.eqb v "%" then wrappedErrs rest' argNum nargs
            else if Nat.ltb argNum nargs then
              (if Ascii.eqb v "w" then [argNum] else [])
                ++ wrappedErrs rest' (S argNum) nargs
            else wrappedErrs rest' argNum nargs
        end
      else wrappedErrs rest argNum nargs
  end.

(** Every [%] of the format is followed at once by a verb letter or by
    another [%]: no flag, width, precision or operand index. *)
Fixpoint plain_verbs (format : string) : bool :=
  match format with
  | EmptyString => true
  | String c rest =>
      if Ascii.eqb c "%" then
        match rest with
        | EmptyString => false
        | String v rest' =>
            (Ascii.eqb v "%"
             || (Nat.leb 97 (nat_of_ascii v) && Nat.leb (nat_of_ascii v) 122)
             || (Nat.leb 65 (nat_of_ascii v) && Nat.leb (nat_of_ascii v) 90))
            && plain_verbs rest'
        end
      else plain_verbs rest
  end.

Example plain_verbs_examples :
  map plain_verbs ["%w: %w"; ": extra %s: %w"; "100%%"; "% %w"; "%*v%w"; "%5w";
                   "%[2]w"; "%"]
  = [true; true; true; false; false; false; false; false].
Proof. reflexivity. Qed.

Section Errorf.

(** The text fmt renders for a format and its operands; it is the
    standard library's, and no property below depends on it. *)
Variable Sprintf : string -> list any -> string.

(** fmt.Errorf.  [addr] is the address of the value it allocates. *)
Definition Errorf (addr : nat) (format : string) (a : list any) : error :=
  let s := Sprintf format a in
  match wrappedErrs format 0 (length a) with
  | [] => ErrLeaf true addr s
  | [w] => ErrWrapError addr s (as_error a w)
  | ws => ErrWrapErrors addr s (omap (as_error a) ws)
  end.

(** errx.With. *)
Definition With (addr : nat) (kind : option error) (format : string)
    (args : list any) : option error :=
  match kind with
  | None =>
      if String.eqb format "" then None
      else Some (Errorf addr format args)
  | Some k =>
      if String.eqb format "" then kind
      else
        let vals := [AnyError kind] ++ args in
        Some (Errorf addr ("%w" +:+ format) vals)
  end.

(** errx.Wrap. *)
Definition Wrap (addr : nat) (kind err : option error) : option error :=
  match err with
  | None => None
  | Some _ =>
      match kind with
      | None => err
      | Some _ => With addr kind ": %w" [AnyError err]
      end
  end.

Lemma go_eq_refl e : go_eq e e = true.
Proof. destruct e; simpl; apply Nat.eqb_refl. Qed.

Lemma is_refl e : is_ e e (Comparable e) = Comparable e.
Proof.
  destruct e as [c k m | a m [i|] | a m es]; simpl.
  - rewrite Nat.eqb_refl, andb_true_r, orb_false_r. reflexivity.
  - rewrite Nat.eqb_refl. reflexivity.
  - rewrite Nat.eqb_refl. reflexivity.
  - rewrite Nat.eqb_refl. reflexivity.
Qed.

(** Without the equality test nothing matches: no modelled value has an
    [Is] method. *)
Lemma is_not_comparable : forall e t, is_ e t false = false.
Proof.
  fix IH 1. intros [c k m | a m [i|] | a m es] t; simpl; auto.
  induction es as [|x xs IHxs]; simpl; auto.
  rewrite IH. exact IHxs.
Qed.

(** What Wrap builds from two non-nil errors. *)
Lemma Wrap_both addr k e :
  Wrap addr (Some k) (Some e)
  = Some (ErrWrapErrors addr (Sprintf "%w: %w" [AnyError (Some k); AnyError (Some e)])
            [k; e]).
Proof. reflexivity. Qed.

End Errorf.

(** A rendering of the plain verbs, enough to run the examples: every verb
    prints its operand's text, [%%] prints a percent sign. *)
Definition any_text (x : any) : string :=
  match x with
  | AnyError (Some e) => Error e
  | AnyError None => "<nil>"
  | AnyString s => s
  end.

Fixpoint Sprintf_plain (format : string) (a : list any) : string :=
  match format with
  | EmptyString => EmptyString
  | String c rest =>
      if Ascii.eqb c "%" then
        match rest with
        | EmptyString => "%!(NOVERB)"
        | String v rest' =>
            if Ascii.eqb v "%" then String "%" (Sprintf_plain rest' a)
            else
              match a with
              | [] => "%!" +:+ String v ("(MISSING)" +:+ Sprintf_plain rest' [])
              | x :: a' => any_text x +:+ Sprintf_plain rest' a'
              end
        end
      else String c (Sprintf_plain rest a)
  end.

(** The values of errx_test.go. *)
Definition errSentinel : error := ErrLeaf true 1 "sentinel".
Definition cause : error := ErrLeaf true 2 "cause".

(** A value of a slice type that implements [error], such as a list of
    validation failures: its type is not comparable. *)
Definition sliceErr : error := ErrLeaf false 3 "2 fields invalid".

Example TestWrap_wraps_sentinel_and_cause :
  Wrap Sprintf_plain 10 (Some errSentinel) (Some cause)
  = Some (ErrWrapErrors 10 "sentinel: cause" [errSentinel; cause]).
Proof. reflexivity. Qed.

Example TestWith_includes_sentinel_and_wrapped_cause :
  With Sprintf_plain 10 (Some errSentinel) ": extra %s: %w"
    [AnyString "ctx"; AnyError (Some cause)]
  = Some (ErrWrapErrors 10 "sentinel: extra ctx: cause" [errSentinel; cause]).
Proof. reflexivity. Qed.

Example TestWith_nil_sentinel_plain :
  With Sprintf_plain 10 None "plain %s" [AnyString "error"]
  = Some (ErrLeaf true 10 "plain error").
Proof. reflexivity. Qed.

Section WrapProperties.

Variable Sprintf : string -> list any -> string.
Variable addr : nat.

Lemma Wrap_nil_iff kind err : Wrap Sprintf addr kind err = None <-> err = None.
Proof.
  destruct err as [e|], kind as [k|]; simpl; split; intros H;
    try reflexivity; try discriminate.
Qed.

Lemma Wrap_nil_kind err : Wrap Sprintf addr None err = err.
Proof. destruct err; reflexivity. Qed.

(** The wrapper matches a target exactly when one of its two operands
    does, or when it is the target itself. *)
Lemma is_Wrap_both k e w t c :
  Wrap Sprintf addr (Some k) (Some e) = Some w ->
  is_ w t c = (c && go_eq w t) || is_ k t c || is_ e t c.
Proof.
  rewrite Wrap_both. intros [= <-]. simpl.
  rewrite orb_false_r, orb_assoc. reflexivity.
Qed.

(** C9 (as amended).  Wrap returns nil exactly when [err] is nil; with a
    nil [kind] it returns [err] itself; from two non-nil errors it builds
    an error [w] that errors.Is matches with exactly the targets that are
    [w] itself or that errors.Is matches with [kind] or with [err].  So
    errors.Is(w, kind) holds when errors.Is(kind, kind) does, and
    errors.Is(w, err) when errors.Is(err, err) does; neither is so for
    every error. *)
Theorem Wrap_spec :
  (forall kind err, Wrap Sprintf addr kind err = None <-> err = None)
  /\ (forall err, Wrap Sprintf addr None err = err)
  /\ (forall k e, exists w,
        Wrap Sprintf addr (Some k) (Some e) = Some w
        /\ forall t,
             Is (Some w) (Some t) = true
             <-> (Comparable t = true /\ go_eq w t = true)
                 \/ Is (Some k) (Some t) = true
                 \/ Is (Some e) (Some t) = true).
Proof.
  split; [exact Wrap_nil_iff|]. split; [exact Wrap_nil_kind|].
  intros k e. eexists. split; [apply Wrap_both|].
  intros t. unfold Is.
  rewrite (is_Wrap_both k e _ t _ (Wrap_both _ _ _ _)).
  rewrite !orb_true_iff, andb_true_iff. tauto.
Qed.

(** X3.  Wrap preserves errors.Is checks for both values: a target matched
    by [kind] or by [err] is matched by the error Wrap builds from them. *)
Theorem Wrap_preserves_Is k e t :
  Is (Some k) t = true \/ Is (Some e) t = true ->
  Is (Wrap Sprintf addr (Some k) (Some e)) t = true.
Proof.
  rewrite Wrap_both. destruct t as [t|]; simpl; [|intros [H|H]; discriminate].
  intros [H|H]; rewrite H; rewrite ?orb_true_r; reflexivity.
Qed.

End WrapProperties.

Lemma Wrap_preserves_Is_witness :
  Is (Wrap Sprintf_plain 11
        (Some errSentinel)
        (Some (ErrWrapError 10 "open: cause" (Some cause))))
     (Some cause) = true.
Proof.
  apply (Wrap_preserves_Is Sprintf_plain 11 errSentinel
           (ErrWrapError 10 "open: cause" (Some cause)) (Some cause)).
  right. reflexivity.
Defined.

(** C9 (counterexample).  [sliceErr] and [cause] are both non-nil, yet the
    error Wrap builds from them does not satisfy errors.Is against
    [sliceErr]: errors.Is tests equality only for a comparable target, so
    [sliceErr] does not match itself either. *)
Lemma Wrap_Is_kind_counterexample :
  Wrap Sprintf_plain 10 (Some sliceErr) (Some cause)
  = Some (ErrWrapErrors 10 "2 fields invalid: cause" [sliceErr; cause])
  /\ Is (Wrap Sprintf_plain 10 (Some sliceErr) (Some cause)) (Some sliceErr) = false
  /\ Is (Some sliceErr) (Some sliceErr) = false.
Proof. repeat split; reflexivity. Qed.

(** ** More about With: its edge cases, and what fmt.Errorf wraps for it *)

(** The non-nil errors a format's [%w] verbs take from the operands. *)
Definition wrapped_operands (format : string) (a : list any) : list error :=
  omap (as_error a) (wrappedErrs format 0 (length a)).

Example wrapped_operands_TestWith :
  wrapped_operands ("%w" +:+ ": extra %s: %w")
    [AnyError (Some errSentinel); AnyString "ctx"; AnyError (Some cause)]
  = [errSentinel; cause].
Proof. reflexivity. Qed.

Section WithProperties.

Variable Sprintf : string -> list any -> string.
Variable addr : nat.

Lemma is_self e : is_ e e true = true.
Proof.
  destruct e as [c k m | a m i | a m es]; cbn [is_ go_eq andb];
    rewrite Nat.eqb_refl; reflexivity.
Qed.

(** The error fmt.Errorf builds matches every target that an error taken
    by one of its [%w] verbs matches. *)
Lemma Errorf_matches format a e t c :
  In e (wrapped_operands format a) ->
  is_ e t c = true ->
  is_ (Errorf Sprintf addr format a) t c = true.
Proof.
  unfold wrapped_operands, Errorf. intros Hin He.
  destruct (wrappedErrs format 0 (length a)) as [|w [|w' ws]] eqn:Hws.
  - destruct Hin.
  - cbn [omap list_omap] in Hin. destruct (as_error a w) as [x|] eqn:Hx.
    + destruct Hin as [<-|[]]. cbn [is_]. rewrite He. apply orb_true_r.
    + destruct Hin.
  - cbn [is_]. apply orb_true_iff. right.
    apply existsb_exists. exists e. split; [exact Hin|exact He].
Qed.

(** With puts the sentinel first: its [%w] verb always has its operand. *)
Lemma wrappedErrs_sentinel format nargs :
  wrappedErrs ("%w" +:+ format) 0 (S nargs)
  = 0 :: wrappedErrs format 1 (S nargs).
Proof. reflexivity. Qed.

Lemma sentinel_wrapped k format args :
  In k (wrapped_operands ("%w" +:+ format) (AnyError (Some k) :: args)).
Proof.
  unfold wrapped_operands. cbn [length]. rewrite wrappedErrs_sentinel.
  cbn [omap list_omap]. unfold as_error at 1. cbn [lookup list_lookup].
  left. reflexivity.
Qed.

(** X8.  The edge cases of With.  It returns nil exactly when the sentinel
    is nil and the format is empty; with an empty format it returns the
    sentinel itself, whatever the arguments. *)
Theorem With_edge_cases :
  (forall kind format args,
      With Sprintf addr kind format args = None <-> kind = None /\ format = "")
  /\ (forall kind args, With Sprintf addr kind "" args = kind).
Proof.
  split.
  - intros kind format args. unfold With.
    destruct (String.eqb_spec format "") as [Hf|Hf], kind as [k|];
      split; try discriminate; try tauto; intros [H1 H2]; congruence.
  - intros [k|] args; reflexivity.
Qed.

(** X9.  With a non-empty format of plain verbs, With wraps its sentinel
    and every non-nil error that a [%w] verb of the format takes from the
    arguments: a target that errors.Is matches with the sentinel, or with
    one of those errors, it matches with the error With returns.  Without
    a sentinel the same holds of the errors the format takes. *)
Theorem With_preserves_Is (format : string) (args : list any) (t : error) :
  format <> "" ->
  plain_verbs format = true ->
  (forall k,
      Is (Some k) (Some t) = true ->
      Is (With Sprintf addr (Some k) format args) (Some t) = true)
  /\ (forall k e,
        In e (wrapped_operands ("%w" +:+ format) (AnyError (Some k) :: args)) ->
        Is (Some e) (Some t) = true ->
        Is (With Sprintf addr (Some k) format args) (Some t) = true)
  /\ (forall e,
        In e (wrapped_operands format args) ->
        Is (Some e) (Some t) = true ->
        Is (With Sprintf addr None format args) (Some t) = true).
Proof.
  intros Hf _. apply String.eqb_neq in Hf.
  assert (Hwrapped : forall k e,
            In e (wrapped_operands ("%w" +:+ format) (AnyError (Some k) :: args)) ->
            Is (Some e) (Some t) = true ->
            Is (With Sprintf addr (Some k) format args) (Some t) = true).
  { intros k e Hin He. unfold With. rewrite Hf. unfold Is in *.
    apply (Errorf_matches _ _ e); assumption. }
  split; [|split].
  - intros k Hk. apply (Hwrapped k k); [apply sentinel_wrapped|exact Hk].
  - exact Hwrapped.
  - intros e Hin He. unfold With. rewrite Hf. unfold Is in *.
    apply (Errorf_matches _ _ e); assumption.
Qed.

End WithProperties.

Lemma With_preserves_Is_witness :
  Is (With Sprintf_plain 10 (Some errSentinel) ": extra %s: %w"
        [AnyString "ctx"; AnyError (Some (ErrWrapError 9 "open: cause" (Some cause)))])
     (Some cause) = true.
Proof.
  refine (proj1 (proj2 (With_preserves_Is Sprintf_plain 10 ": extra %s: %w"
    [AnyString "ctx"; AnyError (Some (ErrWrapError 9 "open: cause" (Some cause)))]
    cause _ _)) errSentinel (ErrWrapError 9 "open: cause" (Some cause)) _ _).
  - discriminate.
  - reflexivity.
  - right. left. reflexivity.
  - reflexivity.
Defined.

End Errx.

(* ===================================================================== *)
(** * pkg/sdk: JSON-RPC types, error codes and Client.sendRequest         *)
(* ===================================================================== *)

Module Sdk.

(** [json.RawMessage] and a line of the server's output, as text. *)
Definition RawMessage : Type := string.

Record request : Type := {
  req_JSONRPC : string;
  req_Method : string;
  req_Params : option string;
  req_ID : N
}.

Record rpcError : Type := { Code : Z; Message : string }.

Record response : Type := {
  resp_JSONRPC : string;
  resp_Result : RawMessage;
  resp_Error : option rpcError;
  resp_ID : option N
}.

(** Error codes. *)
Definition ErrCodeParse : Z := -32700.
Definition ErrCodeInvalidRequest : Z := -32600.
Definition ErrCodeMethodNotFound : Z := -32601.
Definition ErrCodeInvalidParams : Z := -32602.
Definition ErrCodeInternal : Z := -32603.
Definition ErrCodeVMFailed : Z := -32000.
Definition ErrCodeExecFailed : Z := -32001.
Definition ErrCodeFileFailed : Z := -32002.

(** The constants of the [const] block, in declaration order. *)
Definition errorCodes : list (string * Z) :=
  [ ("ErrCodeParse", ErrCodeParse);
    ("ErrCodeInvalidRequest", ErrCodeInvalidRequest);
    ("ErrCodeMethodNotFound", ErrCodeMethodNotFound);
    ("ErrCodeInvalidParams", ErrCodeInvalidParams);
    ("ErrCodeInternal", ErrCodeInternal);
    ("ErrCodeVMFailed", ErrCodeVMFailed);
    ("ErrCodeExecFailed", ErrCodeExecFailed);
    ("ErrCodeFileFailed", ErrCodeFileFailed) ].

(** RPCError represents an error from the Matchlock RPC. *)
Record RPCError : Type := { RPC_Code : Z; RPC_Message : string }.

Definition IsVMError (e : RPCError) : bool := Z.eqb (RPC_Code e) ErrCodeVMFailed.
Definition IsExecError (e : RPCError) : bool := Z.eqb (RPC_Code e) ErrCodeExecFailed.
Definition IsFileError (e : RPCError) : bool := Z.eqb (RPC_Code e) ErrCodeFileFailed.

(** The errors sendRequest returns. *)
Inductive sdk_error : Type :=
| ErrClientClosed                 (* "client is closed" *)
| ErrMarshalRequest               (* "failed to marshal request: %w" *)
| ErrWriteRequest                 (* "failed to write request: %w" *)
| ErrReadResponse                 (* "failed to read response: %w" *)
| ErrUnmarshalResponse            (* "failed to unmarshal response: %w" *)
| ErrRPC (e : RPCError).          (* &RPCError{...} *)

(** The client: the [closed] flag, the atomic request counter, the lines
    written so far to the server's stdin ([stdin_broken]: writes fail), and
    the lines still to be read from its stdout (after the last one the read
    fails with io.EOF). *)
Record Client : Type := {
  closed : bool;
  requestID : N;
  stdin : list string;
  stdin_broken : bool;
  stdout : list string
}.

Definition uint64_add (a b : N) : N := ((a + b) mod 2 ^ 64)%N.

Section SendRequest.

(** encoding/json, as used on [request] and [response]. *)
Variable Marshal : request -> option string.
Variable Unmarshal : string -> option response.

(** The read loop of sendRequest: the result and the lines left unread. *)
Fixpoint readResponse (id : N) (lines : list string)
  : (RawMessage + sdk_error) * list string :=
  match lines with
  | [] => (inr ErrReadResponse, [])
  | line :: rest =>
      match Unmarshal line with
      | None => (inr ErrUnmarshalResponse, rest)
      | Some resp =>
          match resp_ID resp with
          | None => readResponse id rest
          | Some rid =>
              if negb (N.eqb rid id) then readResponse id rest
              else
                match resp_Error resp with
                | Some e =>
                    (inr (ErrRPC {| RPC_Code := Code e; RPC_Message := Message e |}), rest)
                | None => (inl (resp_Result resp), rest)
                end
          end
      end
  end.

(** Client.sendRequest: the result and the client afterwards. *)
Definition sendRequest (c : Client) (method : string) (params : option string)
  : (RawMessage + sdk_error) * Client :=
  if closed c then (inr ErrClientClosed, c)
  else
    let id := uint64_add (requestID c) 1 in
    let c1 := {| closed := closed c; requestID := id; stdin := stdin c;
                 stdin_broken := stdin_broken c; stdout := stdout c |} in
    let req := {| req_JSONRPC := "2.0"; req_Method := method;
                  req_Params := params; req_ID := id |} in
    match Marshal req with
    | None => (inr ErrMarshalRequest, c1)
    | Some data =>
        if stdin_broken c1 then (inr ErrWriteRequest, c1)
        else
          let c2 := {| closed := closed c1; requestID := id;
                       stdin := stdin c1 ++ [data];
                       stdin_broken := false; stdout := stdout c1 |} in
          let '(r, rest) := readResponse id (stdout c2) in
          (r, {| closed := closed c2; requestID := id; stdin := stdin c2;
                 stdin_broken := false; stdout := rest |})
    end.

(** A line the loop skips: it decodes, and carries no ID or another ID. *)
Definition skipped (id : N) (line : string) : Prop :=
  exists resp, Unmarshal line = Some resp
    /\ (resp_ID resp = None \/ exists rid, resp_ID resp = Some rid /\ rid <> id).

(** What a response with the request's ID makes sendRequest return. *)
Definition answer (resp : response) : RawMessage + sdk_error :=
  match resp_Error resp with
  | Some e => inr (ErrRPC {| RPC_Code := Code e; RPC_Message := Message e |})
  | None => inl (resp_Result resp)
  end.

Lemma readResponse_skip id pre lines :
  Forall (skipped id) pre ->
  readResponse id (pre ++ lines) = readResponse id lines.
Proof.
  induction 1 as [|l pre (resp & Hd & Hid) _ IH]; [reflexivity|].
  simpl. rewrite Hd.
  destruct Hid as [-> | (rid & -> & Hne)]; [exact IH|].
  apply N.eqb_neq in Hne. rewrite Hne. simpl. exact IH.
Qed.

Lemma readResponse_match id line resp rest :
  Unmarshal line = Some resp -> resp_ID resp = Some id ->
  readResponse id (line :: rest) = (answer resp, rest).
Proof.
  intros Hd Hid. simpl. rewrite Hd, Hid, N.eqb_refl. simpl.
  unfold answer. destruct (resp_Error resp); reflexivity.
Qed.

(** A line that is not JSON ends the loop with an error, whatever
    follows it. *)
Lemma readResponse_garbage id pre line rest :
  Forall (skipped id) pre -> Unmarshal line = None ->
  readResponse id (pre ++ line :: rest) = (inr ErrUnmarshalResponse, rest).
Proof.
  intros Hpre Hd. rewrite readResponse_skip by exact Hpre.
  simpl. rewrite Hd. reflexivity.
Qed.

(** The stream ends before an answer: the read fails. *)
Lemma readResponse_eof id pre :
  Forall (skipped id) pre -> readResponse id pre = (inr ErrReadResponse, []).
Proof.
  intros Hpre. rewrite <- (app_nil_r pre), readResponse_skip by exact Hpre.
  reflexivity.
Qed.

(** C7.  Once the request is written, sendRequest skips the lines that
    carry no ID or another ID and answers from the first line whose ID is
    the request's: its result, or an RPCError with exactly the code and
    message of its error object.  The request's ID is the counter's next
    value, the request line is appended to stdin, and the lines after the
    answer stay unread. *)
Theorem sendRequest_first_matching_response
    (c : Client) (method : string) (params : option string)
    (data : string) (pre : list string) (line : string) (resp : response)
    (rest : list string) :
  let id := uint64_add (requestID c) 1 in
  closed c = false ->
  stdin_broken c = false ->
  Marshal {| req_JSONRPC := "2.0"; req_Method := method;
             req_Params := params; req_ID := id |} = Some data ->
  stdout c = pre ++ line :: rest ->
  Forall (skipped id) pre ->
  Unmarshal line = Some resp ->
  resp_ID resp = Some id ->
  (resp_Error resp = None ->
     fst (sendRequest c method params) = inl (resp_Result resp))
  /\ (forall e, resp_Error resp = Some e ->
        fst (sendRequest c method params)
        = inr (ErrRPC {| RPC_Code := Code e; RPC_Message := Message e |}))
  /\ requestID (snd (sendRequest c method params)) = id
  /\ stdin (snd (sendRequest c method params)) = stdin c ++ [data]
  /\ stdout (snd (sendRequest c method params)) = rest.
Proof.
  intros id Hclosed Hbroken Hmarshal Hout Hpre Hdec Hid.
  unfold sendRequest. rewrite Hclosed. fold id. rewrite Hmarshal.
  cbn [stdin_broken closed stdout stdin requestID]. rewrite Hbroken, Hout.
  rewrite (readResponse_skip id pre _ Hpre).
  rewrite (readResponse_match id line resp rest Hdec Hid).
  cbn [fst snd stdout stdin requestID]. unfold answer.
  repeat split; try reflexivity.
  - intros ->. reflexivity.
  - intros e ->. reflexivity.
Qed.

End SendRequest.

(** A decoder given by a table of lines, to run sendRequest on examples. *)
Definition table_Unmarshal (tbl : list (string * response)) (line : string)
  : option response :=
  snd <$> List.find (fun p => String.eqb (fst p) line) tbl.

Definition demo_lines : list (string * response) :=
  [ ("event", {| resp_JSONRPC := "2.0"; resp_Result := ""; resp_Error := None;
                 resp_ID := None |});
    ("stale", {| resp_JSONRPC := "2.0"; resp_Result := "old"; resp_Error := None;
                 resp_ID := Some 4%N |});
    ("ok", {| resp_JSONRPC := "2.0"; resp_Result := "vm-1a2b3c4d"; resp_Error := None;
              resp_ID := Some 5%N |});
    ("failed", {| resp_JSONRPC := "2.0"; resp_Result := "";
                  resp_Error := Some {| Code := -32001; Message := "exec failed" |};
                  resp_ID := Some 5%N |}) ].

Definition demo_Marshal (r : request) : option string := Some (req_Method r).

Definition demo_client (lines : list string) : Client :=
  {| closed := false; requestID := 4; stdin := []; stdin_broken := false;
     stdout := lines |}.

Example sendRequest_skips_then_result :
  fst (sendRequest demo_Marshal (table_Unmarshal demo_lines)
         (demo_client ["event"; "stale"; "ok"; "failed"]) "create" None)
  = inl "vm-1a2b3c4d".
Proof. reflexivity. Qed.

Example sendRequest_error_object :
  fst (sendRequest demo_Marshal (table_Unmarshal demo_lines)
         (demo_client ["event"; "failed"; "ok"]) "exec" None)
  = inr (ErrRPC {| RPC_Code := -32001; RPC_Message := "exec failed" |}).
Proof. reflexivity. Qed.

Example sendRequest_garbage_line :
  fst (sendRequest demo_Marshal (table_Unmarshal demo_lines)
         (demo_client ["event"; "not json"; "ok"]) "exec" None)
  = inr ErrUnmarshalResponse.
Proof. reflexivity. Qed.

Lemma sendRequest_first_matching_response_witness :
  fst (sendRequest demo_Marshal (table_Unmarshal demo_lines)
         (demo_client ["event"; "stale"; "failed"; "ok"]) "exec" None)
  = inr (ErrRPC {| RPC_Code := -32001; RPC_Message := "exec failed" |}).
Proof.
  refine (proj1 (proj2 (sendRequest_first_matching_response
    demo_Marshal (table_Unmarshal demo_lines)
    (demo_client ["event"; "stale"; "failed"; "ok"]) "exec" None
    "exec" ["event"; "stale"] "failed"
    {| resp_JSONRPC := "2.0"; resp_Result := "";
       resp_Error := Some {| Code := -32001; Message := "exec failed" |};
       resp_ID := Some 5%N |}
    ["ok"] _ _ _ _ _ _ _))
    {| Code := -32001; Message := "exec failed" |} _); try reflexivity.
  repeat constructor.
  - eexists. split; [reflexivity|]. left. reflexivity.
  - eexists. split; [reflexivity|]. right. exists 4%N. split; [reflexivity|].
    vm_compute. discriminate.
Defined.

(** C6.  The error codes of the SDK are the five standard JSON-RPC codes
    and -32000 (VM failed), -32001 (exec failed), -32002 (file failed);
    they are pairwise distinct, and the three predicates of RPCError pick
    out exactly the three Matchlock codes. *)
Theorem error_codes_exact :
  errorCodes
  = [ ("ErrCodeParse", -32700); ("ErrCodeInvalidRequest", -32600);
      ("ErrCodeMethodNotFound", -32601); ("ErrCodeInvalidParams", -32602);
      ("ErrCodeInternal", -32603); ("ErrCodeVMFailed", -32000);
      ("ErrCodeExecFailed", -32001); ("ErrCodeFileFailed", -32002) ]%Z
  /\ NoDup (map snd errorCodes)
  /\ (forall e, IsVMError e = true <-> RPC_Code e = (-32000)%Z)
  /\ (forall e, IsExecError e = true <-> RPC_Code e = (-32001)%Z)
  /\ (forall e, IsFileError e = true <-> RPC_Code e = (-32002)%Z).
Proof.
  split; [reflexivity|]. split.
  - apply NoDup_ListNoDup. vm_compute.
    repeat (constructor; [simpl; intuition discriminate|]). constructor.
  - repeat split; intros H; try (apply Z.eqb_eq in H; exact H);
      apply Z.eqb_eq; exact H.
Qed.

(** ** More about sendRequest: what it leaves alone, and how it fails *)

Section SendRequestMore.

Variable Marshal : request -> option string.
Variable Unmarshal : string -> option response.

(** The request sendRequest builds for a client. *)
Definition next_request (c : Client) (method : string) (params : option string)
  : request :=
  {| req_JSONRPC := "2.0"; req_Method := method; req_Params := params;
     req_ID := uint64_add (requestID c) 1 |}.

(** The read loop only consumes lines from the front. *)
Lemma readResponse_suffix id lines :
  exists read, lines = read ++ snd (readResponse Unmarshal id lines).
Proof.
  induction lines as [|line rest IH]; [exists []; reflexivity|].
  destruct IH as [read IH]. cbn [readResponse].
  destruct (Unmarshal line) as [resp|]; [|exists [line]; reflexivity].
  destruct (resp_ID resp) as [rid|].
  - destruct (negb (N.eqb rid id)).
    + exists (line :: read). cbn [app]. rewrite <- IH. reflexivity.
    + destruct (resp_Error resp); exists [line]; reflexivity.
  - exists (line :: read). cbn [app]. rewrite <- IH. reflexivity.
Qed.

Lemma sendRequest_keeps_closed c method params :
  closed (snd (sendRequest Marshal Unmarshal c method params)) = closed c.
Proof.
  unfold sendRequest. destruct (closed c) eqn:Hclosed; [exact Hclosed|].
  destruct (Marshal _); [|reflexivity].
  cbn [closed stdin stdout stdin_broken requestID].
  destruct (stdin_broken c); [reflexivity|].
  destruct (readResponse _ _ _). reflexivity.
Qed.

(** X4.  sendRequest never closes or reopens the client, never reorders
    the server's output (the unread lines afterwards are a suffix of the
    unread lines before), writes at most one line, the marshalled request,
    and reads nothing unless it has written it. *)
Theorem sendRequest_frame (c : Client) (method : string) (params : option string) :
  closed (snd (sendRequest Marshal Unmarshal c method params)) = closed c
  /\ stdin_broken (snd (sendRequest Marshal Unmarshal c method params))
     = stdin_broken c
  /\ (exists read,
        stdout c = read ++ stdout (snd (sendRequest Marshal Unmarshal c method params)))
  /\ (stdin (snd (sendRequest Marshal Unmarshal c method params)) = stdin c
      /\ stdout (snd (sendRequest Marshal Unmarshal c method params)) = stdout c
      \/ exists data,
           Marshal (next_request c method params) = Some data
           /\ stdin (snd (sendRequest Marshal Unmarshal c method params))
              = stdin c ++ [data]).
Proof.
  unfold sendRequest, next_request.
  destruct (closed c) eqn:Hclosed.
  { cbn [snd]. repeat split; auto. exists []. reflexivity. }
  destruct (Marshal _) as [data|] eqn:Hm.
  2:{ cbn [snd closed stdin stdout stdin_broken]. repeat split; auto.
      exists []. reflexivity. }
  cbn [closed stdin stdout stdin_broken requestID].
  destruct (stdin_broken c) eqn:Hb.
  { cbn [snd closed stdin stdout stdin_broken]. repeat split; auto.
    exists []. reflexivity. }
  destruct (readResponse_suffix (uint64_add (requestID c) 1) (stdout c))
    as [read Hread].
  destruct (readResponse Unmarshal (uint64_add (requestID c) 1) (stdout c))
    as [r rest] eqn:Hr.
  cbn [snd closed stdin stdout stdin_broken] in *.
  repeat split; auto.
  - exists read. exact Hread.
  - right. exists data. split; reflexivity.
Qed.

Lemma uint64_add_1_neq n : uint64_add n 1 <> n.
Proof.
  unfold uint64_add. intros H.
  assert (Hlt : (n < 2 ^ 64)%N).
  { rewrite <- H. apply N.mod_lt. discriminate. }
  destruct (N.eq_dec (n + 1)%N (2 ^ 64)%N) as [He|Hne].
  - rewrite He, N.Div0.mod_same in H. subst n. discriminate.
  - rewrite N.mod_small in H by lia. lia.
Qed.

(** X5.  An open client spends one ID per call, whether or not the call
    succeeds, and a closed client none; so two calls in a row on an open
    client never carry the same ID. *)
Theorem sendRequest_spends_one_id (c : Client) (method method' : string)
    (params params' : option string) :
  let c1 := snd (sendRequest Marshal Unmarshal c method params) in
  let c2 := snd (sendRequest Marshal Unmarshal c1 method' params') in
  (closed c = true -> requestID c1 = requestID c)
  /\ (closed c = false ->
      requestID c1 = uint64_add (requestID c) 1
      /\ requestID c2 = uint64_add (requestID c1) 1
      /\ requestID c2 <> requestID c1).
Proof.
  assert (Hone : forall c0 m p, closed c0 = false ->
            requestID (snd (sendRequest Marshal Unmarshal c0 m p))
            = uint64_add (requestID c0) 1).
  { intros c0 m p Hc. unfold sendRequest. rewrite Hc.
    destruct (Marshal _); [|reflexivity].
    cbn [closed stdin stdout stdin_broken requestID].
    destruct (stdin_broken c0); [reflexivity|].
    destruct (readResponse _ _ _). reflexivity. }
  cbv zeta. split.
  - intros Hc. unfold sendRequest. rewrite Hc. reflexivity.
  - intros Hc.
    assert (Hc1 : closed (snd (sendRequest Marshal Unmarshal c method params)) = false).
    { rewrite sendRequest_keeps_closed. exact Hc. }
    rewrite (Hone _ method' params' Hc1). rewrite (Hone c method params Hc).
    repeat split. apply uint64_add_1_neq.
Qed.

(** X6.  A response to the previous request that arrives late is skipped:
    the call answers from the line that carries its own ID. *)
Theorem sendRequest_skips_late_response
    (c : Client) (method : string) (params : option string) (data : string)
    (late : string) (lresp : response) (line : string) (resp : response)
    (rest : list string) :
  closed c = false ->
  stdin_broken c = false ->
  Marshal (next_request c method params) = Some data ->
  stdout c = late :: line :: rest ->
  Unmarshal late = Some lresp ->
  resp_ID lresp = Some (requestID c) ->
  Unmarshal line = Some resp ->
  resp_ID resp = Some (uint64_add (requestID c) 1) ->
  fst (sendRequest Marshal Unmarshal c method params) = answer resp
  /\ stdout (snd (sendRequest Marshal Unmarshal c method params)) = rest.
Proof.
  intros Hclosed Hbroken Hm Hout Hlate Hlid Hline Hid.
  unfold sendRequest. rewrite Hclosed. unfold next_request in Hm. rewrite Hm.
  cbn [closed stdin stdout stdin_broken requestID]. rewrite Hbroken, Hout.
  change (late :: line :: rest) with ([late] ++ line :: rest).
  rewrite (readResponse_skip Unmarshal _ [late]).
  - rewrite (readResponse_match Unmarshal _ line resp rest Hline Hid).
    split; reflexivity.
  - constructor; [|constructor]. exists lresp. split; [exact Hlate|].
    right. exists (requestID c). split; [exact Hlid|].
    intros H. symmetry in H. exact (uint64_add_1_neq _ H).
Qed.

(** X7.  How the read loop fails.  After the request is written, and
    lines that carry no ID or another ID are skipped: if the server's
    output ends there, sendRequest fails with the read error and nothing is
    left to read; if the next line does not decode, it fails with the
    unmarshal error and the lines after that one, an answer among them or
    not, stay unread. *)
Theorem sendRequest_read_failures
    (c : Client) (method : string) (params : option string) (data : string)
    (pre : list string) :
  closed c = false ->
  stdin_broken c = false ->
  Marshal (next_request c method params) = Some data ->
  Forall (skipped Unmarshal (uint64_add (requestID c) 1)) pre ->
  (stdout c = pre ->
     fst (sendRequest Marshal Unmarshal c method params) = inr ErrReadResponse
     /\ stdout (snd (sendRequest Marshal Unmarshal c method params)) = [])
  /\ (forall line rest,
        stdout c = pre ++ line :: rest -> Unmarshal line = None ->
        fst (sendRequest Marshal Unmarshal c method params) = inr ErrUnmarshalResponse
        /\ stdout (snd (sendRequest Marshal Unmarshal c method params)) = rest).
Proof.
  intros Hclosed Hbroken Hm Hpre.
  unfold sendRequest. rewrite Hclosed. unfold next_request in Hm. rewrite Hm.
  cbn [closed stdin stdout stdin_broken requestID]. rewrite Hbroken.
  split.
  - intros ->. rewrite (readResponse_eof Unmarshal _ pre Hpre). split; reflexivity.
  - intros line rest -> Hline.
    rewrite (readResponse_garbage Unmarshal _ pre line rest Hpre Hline).
    split; reflexivity.
Qed.

End SendRequestMore.

Lemma sendRequest_skips_late_response_witness :
  fst (sendRequest demo_Marshal (table_Unmarshal demo_lines)
         (demo_client ["stale"; "ok"; "event"]) "create" None)
  = inl "vm-1a2b3c4d".
Proof.
  refine (proj1 (sendRequest_skips_late_response demo_Marshal
    (table_Unmarshal demo_lines) (demo_client ["stale"; "ok"; "event"])
    "create" None "create" "stale"
    {| resp_JSONRPC := "2.0"; resp_Result := "old"; resp_Error := None;
       resp_ID := Some 4%N |}
    "ok"
    {| resp_JSONRPC := "2.0"; resp_Result := "vm-1a2b3c4d"; resp_Error := None;
       resp_ID := Some 5%N |}
    ["event"] _ _ _ _ _ _ _ _)); reflexivity.
Defined.

Lemma sendRequest_read_failures_witness :
  fst (sendRequest demo_Marshal (table_Unmarshal demo_lines)
         (demo_client ["event"; "stale"]) "create" None)
  = inr ErrReadResponse
  /\ stdout (snd (sendRequest demo_Marshal (table_Unmarshal demo_lines)
                    (demo_client ["event"; "not json"; "ok"]) "create" None))
     = ["ok"].
Proof.
  assert (Hpre : forall tl, Forall (skipped (table_Unmarshal demo_lines) 5%N)
                              ("event" :: tl) ->
                            Forall (skipped (table_Unmarshal demo_lines)
                                      (uint64_add 4 1)) ("event" :: tl)).
  { intros tl H. exact H. }
  assert (Hev : skipped (table_Unmarshal demo_lines) 5%N "event").
  { eexists. split; [reflexivity|]. left. reflexivity. }
  assert (Hst : skipped (table_Unmarshal demo_lines) 5%N "stale").
  { eexists. split; [reflexivity|]. right. exists 4%N. split; [reflexivity|].
    discriminate. }
  split.
  - refine (proj1 (proj1 (sendRequest_read_failures demo_Marshal
      (table_Unmarshal demo_lines) (demo_client ["event"; "stale"])
      "create" None "create" ["event"; "stale"] _ _ _ _) _));
      try reflexivity.
    apply Hpre. repeat constructor; assumption.
  - refine (proj2 (proj2 (sendRequest_read_failures demo_Marshal
      (table_Unmarshal demo_lines) (demo_client ["event"; "not json"; "ok"])
      "create" None "create" ["event"] _ _ _ _) "not json" ["ok"] _ _));
      try reflexivity.
    apply Hpre. repeat constructor; assumption.
Defined.

End Sdk.

(* ===================================================================== *)
(** * Go's strings package, as far as the code below uses it               *)
(* ===================================================================== *)

Module Strings.

(** strings.HasPrefix. *)
Definition HasPrefix (s prefix : string) : bool := String.prefix prefix s.

(** strings.Contains: [substr] starts at some position of [s]. *)
Fixpoint Contains (s substr : string) : bool :=
  HasPrefix s substr
  || match s with
     | EmptyString => false
     | String _ s' => Contains s' substr
     end.

Lemma HasPrefix_app s t : HasPrefix (s +:+ t) s = true.
Proof.
  unfold HasPrefix. induction s as [|c s IH]; simpl.
  - destruct t; reflexivity.
  - rewrite IH. destruct (Ascii.ascii_dec c c); [reflexivity|congruence].
Qed.

Lemma Contains_app_l a s sub : Contains s sub = true -> Contains (a +:+ s) sub = true.
Proof.
  intros H. induction a as [|c a IH]; simpl; [exact H|].
  rewrite IH. apply orb_true_r.
Qed.

Lemma Contains_HasPrefix s sub : HasPrefix s sub = true -> Contains s sub = true.
Proof. intros H. destruct s; cbn [Contains]; rewrite H; reflexivity. Qed.

Lemma Contains_infix a s b : Contains (a +:+ s +:+ b) s = true.
Proof. apply Contains_app_l, Contains_HasPrefix, HasPrefix_app. Qed.

Lemma HasPrefix_nil s : HasPrefix s "" = true.
Proof. destruct s; reflexivity. Qed.

Lemma HasPrefix_cons c s e :
  HasPrefix s e = true -> HasPrefix (String c s) (String c e) = true.
Proof.
  unfold HasPrefix. simpl. intros H.
  destruct (ascii_dec c c); [exact H|congruence].
Qed.

Lemma Contains_cons c s sub :
  Contains s sub = true -> Contains (String c s) sub = true.
Proof. intros H. cbn [Contains]. rewrite H. apply orb_true_r. Qed.

End Strings.

(* ===================================================================== *)
(** * pkg/state: the sandbox state manager                                 *)
(* ===================================================================== *)

Module State.

(** The stored state of one sandbox, as the CLI reads it. *)
Record VMState : Type := {
  ID : string;
  Status : string;
  Image : string;
  CreatedAt : Z;
  PID : Z
}.

(** The manager's base directory: one state directory per sandbox ID. *)
Record Manager : Type := {
  baseDir : string;
  dirs : gmap string VMState
}.

(** Modelled from the spec: Manager.List is not among the sources; it
    lists the stored sandboxes. *)
Definition List (m : Manager) : list VMState := (map_to_list (dirs m)).*2.

(** Modelled from the spec: Manager.Remove is not among the sources.
    "rm on a nonexistent ID returns a nonzero exit and a message naming the
    ID"; "rm on a sandbox whose final status is stopped removes its state
    directory; on running it refuses with a non-destructive error".  A
    sandbox in any other status than running is removed like a stopped
    one, as `rm --stopped` expects of Remove.  The result is the error, if
    any, and the manager afterwards. *)
Definition Remove (m : Manager) (id : string) : option string * Manager :=
  match dirs m !! id with
  | None => (Some ("VM " +:+ id +:+ " not found"), m)
  | Some st =>
      if String.eqb (Status st) "running"
      then (Some ("VM " +:+ id +:+ " is running, kill it first"), m)
      else (None, {| baseDir := baseDir m; dirs := delete id (dirs m) |})
  end.

(** The directory of state_test.go: one sandbox with the given status. *)
Definition test_manager (id status : string) : Manager :=
  {| baseDir := "/tmp/TestRemove";
     dirs := {[ id := {| ID := id; Status := status; Image := "";
                         CreatedAt := 0; PID := 0 |} ]} |}.

Example TestRemoveNonExistentVM :
  fst (Remove {| baseDir := "/tmp/TestRemove"; dirs := ∅ |} "vm-nonexistent")
  = Some "VM vm-nonexistent not found".
Proof. reflexivity. Qed.

Example TestRemoveStoppedVM :
  fst (Remove (test_manager "vm-test123" "stopped") "vm-test123") = None
  /\ dirs (snd (Remove (test_manager "vm-test123" "stopped") "vm-test123"))
     !! "vm-test123" = None.
Proof. split; vm_compute; reflexivity. Qed.

Example TestRemoveRunningVM :
  fst (Remove (test_manager "vm-running1" "running") "vm-running1")
  = Some "VM vm-running1 is running, kill it first".
Proof. vm_compute. reflexivity. Qed.

(** C4.  Remove on a sandbox whose stored status is "stopped" returns no
    error and deletes its state directory, leaving the other sandboxes as
    they were; on one whose stored status is "running" it returns an error
    and leaves the manager's directories unchanged. *)
Theorem Remove_stopped_running (m : Manager) (id : string) (st : VMState) :
  dirs m !! id = Some st ->
  (Status st = "stopped" ->
     fst (Remove m id) = None
     /\ dirs (snd (Remove m id)) !! id = None
     /\ (forall id', id' <> id -> dirs (snd (Remove m id)) !! id' = dirs m !! id'))
  /\ (Status st = "running" ->
       (exists err, fst (Remove m id) = Some err) /\ snd (Remove m id) = m).
Proof.
  intros Hst. unfold Remove. rewrite Hst. split; intros ->; simpl.
  - split; [reflexivity|]. split.
    + apply lookup_delete_eq.
    + intros id' Hne. apply lookup_delete_ne. congruence.
  - split; [eexists|]; reflexivity.
Qed.

Lemma Remove_stopped_running_witness :
  fst (Remove (test_manager "vm-test123" "stopped") "vm-test123") = None
  /\ snd (Remove (test_manager "vm-running1" "running") "vm-running1")
     = test_manager "vm-running1" "running".
Proof.
  split.
  - refine (proj1 (proj1 (Remove_stopped_running
      (test_manager "vm-test123" "stopped") "vm-test123"
      {| ID := "vm-test123"; Status := "stopped"; Image := "";
         CreatedAt := 0; PID := 0 |} _) _)); [vm_compute|]; reflexivity.
  - refine (proj2 (proj2 (Remove_stopped_running
      (test_manager "vm-running1" "running") "vm-running1"
      {| ID := "vm-running1"; Status := "running"; Image := "";
         CreatedAt := 0; PID := 0 |} _) _)); [vm_compute|]; reflexivity.
Defined.

End State.

(* ===================================================================== *)
(** * cmd/matchlock: main, runRun, runExec, runRemove                      *)
(* ===================================================================== *)

Module Cli.

Definition nl : string := String (ascii_of_nat 10) EmptyString.

(** ** The types of pkg/api, pkg/image and pkg/sandbox the CLI builds *)

Record MountConfig : Type := {
  Type_ : string;
  HostPath : string;
  Readonly : bool
}.

(** Modelled from the spec: the declaration of api.Secret is not among the
    sources; "Secret -- { value, placeholder, host_set }". *)
Record Secret : Type := {
  Value : string;
  Placeholder : string;
  Hosts : list string
}.

Record Resources : Type := {
  CPUs : Z;
  MemoryMB : Z;
  DiskSizeMB : Z;
  TimeoutSeconds : Z
}.

Record NetworkConfig : Type := {
  AllowedHosts : list string;
  BlockPrivateIPs : bool;
  Secrets : gmap string Secret
}.

Record VFSConfig : Type := {
  Workspace : string;
  Mounts : gmap string MountConfig
}.

Record Config : Type := {
  Image : string;
  Privileged : bool;
  Resources_ : Resources;
  Network : NetworkConfig;
  VFS : VFSConfig
}.

Record ExecOptions : Type := { WorkingDir : string }.

Record ExecResult : Type := {
  Stdout : string;
  Stderr : string;
  ExitCode : Z
}.

Record BuildResult : Type := {
  RootfsPath : string;
  Size : Z;
  Cached : bool
}.

Record Options : Type := { opt_RootfsPath : string }.

(** The flags of [runCmd] and [execCmd] as cobra hands them to RunE;
    [timeout_changed] is [cmd.Flags().Changed("timeout")]. *)
Record RunFlags : Type := {
  image : string;
  workspace : string;
  allow_host : list string;
  volume : list string;
  secret : list string;
  cpus : Z;
  memory : Z;
  timeout : Z;
  timeout_changed : bool;
  disk_size : Z;
  tty : bool;
  interactive : bool;
  pull : bool;
  rm : bool;
  privileged : bool;
  workdir : string
}.

Record ExecFlags : Type := {
  exec_tty : bool;
  exec_interactive : bool;
  exec_workdir : string
}.

(** What ends a wait on [ctx.Done()]: the signal handler's cancel, or the
    deadline of [context.WithTimeout]. *)
Inductive done_cause : Type := Cancelled | DeadlineExceeded.

(** ** What the CLI does to the outside, in order *)

Inductive event : Type :=
| WriteStdout (s : string)
| WriteStderr (s : string)
| SandboxNew (config : Config) (opts : Options)
| SandboxStart
| SandboxClose
| ExecRelayStart (socketPath : string)
| ExecRelayStop
| SandboxExec (command : string) (opts : option ExecOptions)
| MachineExecInteractive (command : string) (opts : ExecOptions) (rows cols : Z)
| CtxDone (cause : done_cause)
| ExecViaRelay (socketPath command workdir : string)
| ExecInteractiveViaRelay (socketPath command workdir : string) (rows cols : Z).

(** How a RunE function leaves off: it goes on ([Next]), returns an error
    or nil ([Return]), or ends the process at once with [os.Exit]
    (deferred calls do not run); [Panic] is an index out of range. *)
Inductive control (A : Type) : Type :=
| Next (a : A)
| Return (err : option string)
| OsExit (code : Z)
| Panic.
Arguments Next {A} a.
Arguments Return {A} err.
Arguments OsExit {A} code.
Arguments Panic {A}.

Definition M (A : Type) : Type := list event * control A.

Definition ret {A} (a : A) : M A := ([], Next a).

Definition bind {A B} (m : M A) (k : A -> M B) : M B :=
  match m with
  | (t, Next a) => let '(t', c) := k a in (t ++ t', c)
  | (t, Return e) => (t, Return e)
  | (t, OsExit n) => (t, OsExit n)
  | (t, Panic) => (t, Panic)
  end.

Definition emit (e : event) : M unit := ([e], Next tt).
Definition return_ {A} (err : option string) : M A := ([], Return err).
Definition os_Exit {A} (code : Z) : M A := ([], OsExit code).
Definition when (b : bool) (m : M unit) : M unit := if b then m else ret tt.

(** [defer f()]: [f]'s events follow when the function returns or panics,
    not when the process exits. *)
Definition defer {A} (deferred : list event) (body : M A) : M A :=
  match body with
  | (t, Return e) => (t ++ deferred, Return e)
  | (t, Panic) => (t ++ deferred, Panic)
  | other => other
  end.

Declare Scope cli_scope.
Delimit Scope cli_scope with cli.
Notation "x <- m ;; k" := (bind m (fun x => k))
  (at level 100, m at next level, right associativity) : cli_scope.
Notation "m ;;; k" := (bind m (fun _ => k))
  (at level 100, right associativity) : cli_scope.
Local Open Scope cli_scope.

(** The process as the shell sees it: everything done, and the exit code. *)
Record process : Type := {
  trace : list event;
  exit_code : Z
}.

(** main: an error from rootCmd.Execute is printed on one line of stderr
    and the process exits 1; a panic exits 2, as the Go runtime does. *)
Definition main (run : M unit) : process :=
  match run with
  | (t, Return (Some err)) =>
      {| trace := t ++ [WriteStderr (err +:+ nl)]; exit_code := 1 |}
  | (t, Return None) => {| trace := t; exit_code := 0 |}
  | (t, Next _) => {| trace := t; exit_code := 0 |}
  | (t, OsExit n) => {| trace := t; exit_code := n |}
  | (t, Panic) => {| trace := t; exit_code := 2 |}
  end.

(** ** The packages the CLI calls: their answers *)

Record World : Type := {
  (* pkg/api *)
  ShellQuoteArgs : list string -> string;
  ParseVolumeMount : string -> string -> (string * string * bool) + string;
  ParseSecret : string -> (string * Secret) + string;
  (* pkg/image *)
  Build : bool -> string -> BuildResult + string;
  (* pkg/sandbox *)
  sandbox_New : Config -> Options -> string + string;
  sb_Start : option string;
  sb_Exec : string -> option ExecOptions -> ExecResult + string;
  sb_PrepareExecEnv : ExecOptions;
  machine_is_interactive : bool;
  machine_ExecInteractive : string -> ExecOptions -> Z -> Z -> Z + string;
  execRelay_Start : string -> option string;
  sandbox_ExecViaRelay : string -> string -> string -> ExecResult + string;
  sandbox_ExecInteractiveViaRelay : string -> string -> string -> Z -> Z -> Z + string;
  (* pkg/state *)
  mgr_Get : string -> State.VMState + string;
  mgr_ExecSocketPath : string -> string;
  (* os, context, golang.org/x/term, fmt *)
  os_Stat : string -> option string;
  ctx_Done : done_cause;
  term_IsTerminal : bool;
  term_GetSize : (Z * Z) + string;
  term_MakeRaw : option string;
  fmt_quote : string -> string;
  fmt_megabytes : Z -> string
}.

Section Commands.

Variable w : World.

(** [uint16(n)] on an [int]. *)
Definition uint16 (n : Z) : Z := n mod 65536.

(** The loop of runRun over [--volume]: the mount table, or the error
    runRun returns. *)
Fixpoint parse_volumes (workspace : string) (volumes : list string)
    (mounts : gmap string MountConfig) : gmap string MountConfig + string :=
  match volumes with
  | [] => inl mounts
  | vol :: rest =>
      match ParseVolumeMount w vol workspace with
      | inr err =>
          inr ("invalid volume mount " +:+ fmt_quote w vol +:+ ": " +:+ err)
      | inl (hostPath, guestPath, readonly) =>
          parse_volumes workspace rest
            (<[guestPath := {| Type_ := "real_fs"; HostPath := hostPath;
                               Readonly := readonly |}]> mounts)
      end
  end.

(** The loop of runRun over [--secret]. *)
Fixpoint parse_secrets (secrets : list string)
    (parsedSecrets : gmap string Secret) : gmap string Secret + string :=
  match secrets with
  | [] => inl parsedSecrets
  | s :: rest =>
      match ParseSecret w s with
      | inr err => inr ("invalid secret " +:+ fmt_quote w s +:+ ": " +:+ err)
      | inl (name, secret) =>
          parse_secrets rest (<[name := secret]> parsedSecrets)
      end
  end.

(** [cols, rows, err := term.GetSize(...)], with the fallback to 24x80;
    the result is (rows, cols). *)
Definition terminal_size : Z * Z :=
  match term_GetSize w with
  | inl (cols, rows) => (rows, cols)
  | inr _ => (24, 80)%Z
  end.

(** runInteractive: the exit code it returns. *)
Definition runInteractive (command workdir : string) : M Z :=
  if negb (term_IsTerminal w) then
    emit (WriteStderr ("Error: -it requires a TTY" +:+ nl)) ;;; ret 1%Z
  else
    let '(rows, cols) := terminal_size in
    match term_MakeRaw w with
    | Some err =>
        emit (WriteStderr ("Error setting raw mode: " +:+ err +:+ nl)) ;;; ret 1%Z
    | None =>
        if negb (machine_is_interactive w) then
          emit (WriteStderr
                  ("Error: interactive mode not supported on this backend" +:+ nl)) ;;;
          ret 1%Z
        else
          let opts := sb_PrepareExecEnv w in
          let opts := if negb (String.eqb workdir "")
                      then {| WorkingDir := workdir |} else opts in
          emit (MachineExecInteractive command opts (uint16 rows) (uint16 cols)) ;;;
          match machine_ExecInteractive w command opts (uint16 rows) (uint16 cols) with
          | inr err =>
              emit (WriteStderr (nl +:+ "Error: " +:+ err +:+ nl)) ;;; ret 1%Z
          | inl exitCode => ret exitCode
          end
    end.

(** runRun. *)
Definition runRun (f : RunFlags) (args : list string) : M unit :=
  let interactiveMode := tty f && interactive f in
  let command := ShellQuoteArgs w args in
  if rm f && Nat.eqb (length args) 0 && negb interactiveMode then
    return_ (Some "command required (or use --rm=false to start without a command)")
  else
  match Build w (pull f) (image f) with
  | inr err => return_ (Some ("building rootfs: " +:+ err))
  | inl buildResult =>
  emit (WriteStdout
          (if Cached buildResult
           then "Using cached image " +:+ image f +:+ nl
           else "Built rootfs from " +:+ image f +:+ " ("
                +:+ fmt_megabytes w (Size buildResult) +:+ " MB)" +:+ nl)) ;;;
  let sandboxOpts := {| opt_RootfsPath := RootfsPath buildResult |} in
  match parse_volumes (workspace f) (volume f) ∅ with
  | inr err => return_ (Some err)
  | inl mounts =>
  let vfsConfig := {| Workspace := workspace f; Mounts := mounts |} in
  match parse_secrets (secret f) ∅ with
  | inr err => return_ (Some err)
  | inl parsedSecrets =>
  let config :=
    {| Image := image f;
       Privileged := privileged f;
       Resources_ := {| CPUs := cpus f; MemoryMB := memory f;
                        DiskSizeMB := disk_size f;
                        TimeoutSeconds := timeout f |};
       Network := {| AllowedHosts := allow_host f;
                     BlockPrivateIPs := true;
                     Secrets := parsedSecrets |};
       VFS := vfsConfig |} in
  emit (SandboxNew config sandboxOpts) ;;;
  match sandbox_New w config sandboxOpts with
  | inr err => return_ (Some ("creating sandbox: " +:+ err))
  | inl sbID =>
  emit SandboxStart ;;;
  match sb_Start w with
  | Some err =>
      emit SandboxClose ;;; return_ (Some ("starting sandbox: " +:+ err))
  | None =>
  let execSocketPath := mgr_ExecSocketPath w sbID in
  emit (ExecRelayStart execSocketPath) ;;;
  match execRelay_Start w execSocketPath with
  | Some err =>
      emit (WriteStderr ("Warning: failed to start exec relay: " +:+ err +:+ nl))
  | None => ret tt
  end ;;;
  defer [ExecRelayStop] (
    when (negb (rm f))
      (emit (WriteStderr ("Sandbox " +:+ sbID +:+ " is running" +:+ nl)) ;;;
       emit (WriteStderr ("  Connect: matchlock exec " +:+ sbID +:+ " -it bash" +:+ nl)) ;;;
       emit (WriteStderr ("  Stop:    matchlock kill " +:+ sbID +:+ nl))) ;;;
    when interactiveMode
      (exitCode <- runInteractive command (workdir f) ;;
       when (rm f) (emit SandboxClose) ;;;
       os_Exit exitCode) ;;;
    when (Nat.ltb 0 (length args))
      (let opts := if negb (String.eqb (workdir f) "")
                   then Some {| WorkingDir := workdir f |} else None in
       emit (SandboxExec command opts) ;;;
       match sb_Exec w command opts with
       | inr err =>
           when (rm f) (emit SandboxClose) ;;;
           return_ (Some ("executing command: " +:+ err))
       | inl result =>
           emit (WriteStdout (Stdout result)) ;;;
           emit (WriteStderr (Stderr result)) ;;;
           when (rm f) (emit SandboxClose ;;; os_Exit (ExitCode result))
       end) ;;;
    when (negb (rm f))
      (emit (CtxDone (ctx_Done w)) ;;; emit SandboxClose) ;;;
    return_ None)
  end end end end end.

(** runExecInteractive. *)
Definition runExecInteractive (execSocketPath command workdir : string) : M unit :=
  if negb (term_IsTerminal w) then return_ (Some "-it requires a TTY")
  else
    let '(rows, cols) := terminal_size in
    match term_MakeRaw w with
    | Some err => return_ (Some ("setting raw mode: " +:+ err))
    | None =>
        emit (ExecInteractiveViaRelay execSocketPath command workdir
                (uint16 rows) (uint16 cols)) ;;;
        match sandbox_ExecInteractiveViaRelay w execSocketPath command workdir
                (uint16 rows) (uint16 cols) with
        | inr err => return_ (Some ("interactive exec failed: " +:+ err))
        | inl exitCode => os_Exit exitCode
        end
    end.

(** runExec.  cobra.MinimumNArgs(1) keeps [args] non-empty; [args[0]] on
    an empty slice would panic. *)
Definition runExec (f : ExecFlags) (args : list string) : M unit :=
  match args with
  | [] => ([], Panic)
  | vmID :: cmdArgs =>
  let interactiveMode := exec_tty f && exec_interactive f in
  if Nat.eqb (length cmdArgs) 0 && negb interactiveMode then
    return_ (Some "command required (or use -it for interactive mode)")
  else
  match mgr_Get w vmID with
  | inr err => return_ (Some ("VM " +:+ vmID +:+ " not found: " +:+ err))
  | inl vmState =>
  if negb (String.eqb (State.Status vmState) "running") then
    return_ (Some ("VM " +:+ vmID +:+ " is not running (status: "
                   +:+ State.Status vmState +:+ ")"))
  else
  let execSocketPath := mgr_ExecSocketPath w vmID in
  match os_Stat w execSocketPath with
  | Some _ =>
      return_ (Some ("exec socket not found for " +:+ vmID
                     +:+ " (was it started with --rm=false?)"))
  | None =>
  let command := ShellQuoteArgs w cmdArgs in
  if interactiveMode then
    runExecInteractive execSocketPath command (exec_workdir f)
  else
    emit (ExecViaRelay execSocketPath command (exec_workdir f)) ;;;
    match sandbox_ExecViaRelay w execSocketPath command (exec_workdir f) with
    | inr err => return_ (Some ("exec failed: " +:+ err))
    | inl result =>
        emit (WriteStdout (Stdout result)) ;;;
        emit (WriteStderr (Stderr result)) ;;;
        os_Exit (ExitCode result)
    end
  end end
  end.

End Commands.

(** The loop of [rm --stopped]: every sandbox that is not running is
    removed, each failure and each success reported. *)
Fixpoint remove_stopped (states : list State.VMState) (mgr : State.Manager)
  : list event * State.Manager :=
  match states with
  | [] => ([], mgr)
  | s :: rest =>
      if negb (String.eqb (State.Status s) "running") then
        match State.Remove mgr (State.ID s) with
        | (Some err, mgr') =>
            let '(t, mgr'') := remove_stopped rest mgr' in
            (WriteStderr ("Failed to remove " +:+ State.ID s +:+ ": " +:+ err +:+ nl) :: t,
             mgr'')
        | (None, mgr') =>
            let '(t, mgr'') := remove_stopped rest mgr' in
            (WriteStdout ("Removed " +:+ State.ID s +:+ nl) :: t, mgr'')
        end
      else remove_stopped rest mgr
  end.

(** runRemove, over the manager's directories: what it does and returns,
    and the directories afterwards. *)
Definition runRemove (stopped : bool) (args : list string) (mgr : State.Manager)
  : M unit * State.Manager :=
  if stopped then
    let '(t, mgr') := remove_stopped (State.List mgr) mgr in
    ((t, Return None), mgr')
  else
    match args with
    | [] => (return_ (Some "VM ID required (or use --stopped)"), mgr)
    | id :: _ =>
        match State.Remove mgr id with
        | (Some err, mgr') => (return_ (Some err), mgr')
        | (None, mgr') =>
            (emit (WriteStdout ("Removed " +:+ id +:+ nl)) ;;; return_ None, mgr')
        end
    end.


(** ** A world to run the commands in *)

Definition demo_world : World :=
  {| ShellQuoteArgs := String.concat " ";
     ParseVolumeMount := fun vol ws => inl (vol, ws +:+ "/" +:+ vol, false);
     ParseSecret :=
       fun s => inl (s, {| Value := "v"; Placeholder := "p"; Hosts := [] |});
     Build :=
       fun _ img => inl {| RootfsPath := "/cache/" +:+ img; Size := 0; Cached := true |};
     sandbox_New := fun _ _ => inl "vm-1a2b3c4d";
     sb_Start := None;
     sb_Exec := fun _ _ => inl {| Stdout := "out"; Stderr := ""; ExitCode := 3 |};
     sb_PrepareExecEnv := {| WorkingDir := "/workspace" |};
     machine_is_interactive := true;
     machine_ExecInteractive := fun _ _ _ _ => inl 0%Z;
     execRelay_Start := fun _ => None;
     sandbox_ExecViaRelay :=
       fun _ _ _ => inl {| Stdout := "hi"; Stderr := ""; ExitCode := 7 |};
     sandbox_ExecInteractiveViaRelay := fun _ _ _ _ _ => inl 0%Z;
     mgr_Get :=
       fun id =>
         if String.eqb id "vm-1a2b3c4d" then
           inl {| State.ID := id; State.Status := "running";
                  State.Image := "alpine:latest"; State.CreatedAt := 0;
                  State.PID := 42 |}
         else if String.eqb id "vm-5e6f7a8b" then
           inl {| State.ID := id; State.Status := "stopped";
                  State.Image := "alpine:latest"; State.CreatedAt := 0;
                  State.PID := 0 |}
         else inr "no such sandbox";
     mgr_ExecSocketPath := fun id => "/state/" +:+ id +:+ "/exec.sock";
     os_Stat := fun _ => None;
     ctx_Done := DeadlineExceeded;
     term_IsTerminal := false;
     term_GetSize := inl (80, 24)%Z;
     term_MakeRaw := None;
     fmt_quote := fun s => s;
     fmt_megabytes := fun _ => "0.0" |}.

Definition demo_flags (rm_ : bool) : RunFlags :=
  {| image := "alpine:latest"; workspace := "/workspace"; allow_host := [];
     volume := []; secret := []; cpus := 1; memory := 512; timeout := 60;
     timeout_changed := true; disk_size := 1024; tty := false;
     interactive := false; pull := false; rm := rm_; privileged := false;
     workdir := "" |}.

Definition demo_exec_flags : ExecFlags :=
  {| exec_tty := false; exec_interactive := false; exec_workdir := "" |}.

(** The socket a relay request is sent on. *)
Definition relay_socket (e : event) : option string :=
  match e with
  | ExecViaRelay p _ _ => Some p
  | ExecInteractiveViaRelay p _ _ _ _ => Some p
  | _ => None
  end.

(** Case analysis of a command: one case per outcome of each call. *)
Ltac split_run :=
  repeat match goal with
  | |- context [match ?x with _ => _ end] =>
      lazymatch x with
      | context [match _ with _ => _ end] => fail
      | _ => destruct x eqn:?
      end
  end.

Ltac unfold_run :=
  unfold runRun, runInteractive, runExec, runExecInteractive, main,
    when, defer, bind, emit, ret, return_, os_Exit.

(** In each case the trace is a list of known events. *)
Ltac find_event H :=
  cbn [fst snd app In trace exit_code] in H;
  repeat (destruct H as [H|H]; [try discriminate H|]);
  try contradiction.











(** C8.  Whatever the flags, the arguments and the answers of the packages
    runRun calls, every configuration runRun passes to sandbox.New has
    BlockPrivateIPs set. *)
Theorem runRun_config_blocks_private_ips (w : World) (f : RunFlags)
    (args : list string) (config : Config) (opts : Options) :
  In (SandboxNew config opts) (fst (runRun w f args)) ->
  BlockPrivateIPs (Network config) = true.
Proof.
  unfold_run. split_run; intros H; find_event H;
    injection H as <- <-; reflexivity.
Qed.

Definition demo_config : Config :=
  {| Image := "alpine:latest";
     Privileged := false;
     Resources_ := {| CPUs := 1; MemoryMB := 512; DiskSizeMB := 1024;
                      TimeoutSeconds := 60 |};
     Network := {| AllowedHosts := []; BlockPrivateIPs := true; Secrets := ∅ |};
     VFS := {| Workspace := "/workspace"; Mounts := ∅ |} |}.

Lemma runRun_config_blocks_private_ips_witness :
  In (SandboxNew demo_config {| opt_RootfsPath := "/cache/alpine:latest" |})
     (fst (runRun demo_world (demo_flags true) ["true"]))
  /\ BlockPrivateIPs (Network demo_config) = true.
Proof.
  assert (H : In (SandboxNew demo_config {| opt_RootfsPath := "/cache/alpine:latest" |})
                 (fst (runRun demo_world (demo_flags true) ["true"]))).
  { vm_compute. tauto. }
  split; [exact H|].
  exact (runRun_config_blocks_private_ips demo_world (demo_flags true) ["true"]
           demo_config {| opt_RootfsPath := "/cache/alpine:latest" |} H).
Defined.

(** C5.  When the sandbox's stored status is not "running", or its exec
    socket path does not exist, runExec returns an error and has done
    nothing: no request was sent.  Every request runExec relays goes to
    the sandbox's exec socket, which exists, and the sandbox's stored
    status is "running". *)
Theorem runExec_relays_only_running (w : World) (f : ExecFlags)
    (vmID : string) (cmdArgs : list string) :
  (forall st, mgr_Get w vmID = inl st -> State.Status st <> "running" ->
     exists err, runExec w f (vmID :: cmdArgs) = ([], Return (Some err)))
  /\ (os_Stat w (mgr_ExecSocketPath w vmID) <> None ->
      exists err, runExec w f (vmID :: cmdArgs) = ([], Return (Some err)))
  /\ (forall e socket,
        In e (fst (runExec w f (vmID :: cmdArgs))) ->
        relay_socket e = Some socket ->
        socket = mgr_ExecSocketPath w vmID
        /\ os_Stat w socket = None
        /\ exists st, mgr_Get w vmID = inl st /\ State.Status st = "running").
Proof.
  split; [|split].
  - intros st Hget Hst. unfold_run. rewrite Hget.
    apply String.eqb_neq in Hst. rewrite Hst. cbn [negb].
    destruct (_ && _); eexists; reflexivity.
  - intros Hstat. unfold_run.
    destruct (os_Stat w (mgr_ExecSocketPath w vmID)) eqn:Hs; [|congruence].
    split_run; eexists; reflexivity.
  - intros e socket. unfold_run. split_run; intros H Hsock; find_event H;
      subst e; cbn [relay_socket] in Hsock; try discriminate Hsock;
      injection Hsock as <-;
      (split; [reflexivity|]); (split; [assumption|]);
      eexists; (split; [reflexivity|]);
      match goal with
      | Hb : negb (String.eqb _ _) = false |- _ =>
          apply negb_false_iff, String.eqb_eq in Hb; exact Hb
      end.
Qed.

Lemma runExec_relays_only_running_witness :
  (exists err,
     runExec demo_world demo_exec_flags ["vm-5e6f7a8b"; "echo"; "hi"]
     = ([], Return (Some err)))
  /\ mgr_ExecSocketPath demo_world "vm-1a2b3c4d" = "/state/vm-1a2b3c4d/exec.sock".
Proof.
  split.
  - refine (proj1 (runExec_relays_only_running demo_world demo_exec_flags
      "vm-5e6f7a8b" ["echo"; "hi"])
      {| State.ID := "vm-5e6f7a8b"; State.Status := "stopped";
         State.Image := "alpine:latest"; State.CreatedAt := 0; State.PID := 0 |}
      _ _); [reflexivity | cbn; discriminate].
  - symmetry.
    refine (proj1 (proj2 (proj2 (runExec_relays_only_running demo_world
      demo_exec_flags "vm-1a2b3c4d" ["echo"; "hi"]))
      (ExecViaRelay "/state/vm-1a2b3c4d/exec.sock" "echo hi" "")
      "/state/vm-1a2b3c4d/exec.sock" _ _)); [vm_compute; tauto | reflexivity].
Defined.

(** C3.  For an ID that has no sandbox state, Remove returns an error
    whose message names the ID; [matchlock rm <id>] returns that error, so
    main prints it on stderr and the process exits 1; the manager's
    directories are left as they were. *)
Theorem runRemove_missing_id (mgr : State.Manager) (id : string)
    (rest : list string) :
  State.dirs mgr !! id = None ->
  exists err,
    State.Remove mgr id = (Some err, mgr)
    /\ Strings.Contains err id = true
    /\ runRemove false (id :: rest) mgr = (([], Return (Some err)), mgr)
    /\ main (fst (runRemove false (id :: rest) mgr))
       = {| trace := [WriteStderr (err +:+ nl)]; exit_code := 1 |}.
Proof.
  intros Hnone. exists ("VM " +:+ id +:+ " not found").
  assert (Hrm : State.Remove mgr id = (Some ("VM " +:+ id +:+ " not found"), mgr)).
  { unfold State.Remove. rewrite Hnone. reflexivity. }
  split; [exact Hrm|]. split; [apply Strings.Contains_infix|].
  unfold runRemove. rewrite Hrm. split; reflexivity.
Qed.

Lemma runRemove_missing_id_witness :
  exists err,
    State.Remove {| State.baseDir := "/tmp/TestRemove"; State.dirs := ∅ |}
      "vm-nonexistent" = (Some err, {| State.baseDir := "/tmp/TestRemove"; State.dirs := ∅ |})
    /\ Strings.Contains err "vm-nonexistent" = true
    /\ runRemove false ["vm-nonexistent"]
         {| State.baseDir := "/tmp/TestRemove"; State.dirs := ∅ |}
       = (([], Return (Some err)),
          {| State.baseDir := "/tmp/TestRemove"; State.dirs := ∅ |})
    /\ main (fst (runRemove false ["vm-nonexistent"]
                    {| State.baseDir := "/tmp/TestRemove"; State.dirs := ∅ |}))
       = {| trace := [WriteStderr (err +:+ nl)]; exit_code := 1 |}.
Proof.
  exact (runRemove_missing_id
           {| State.baseDir := "/tmp/TestRemove"; State.dirs := ∅ |}
           "vm-nonexistent" [] (lookup_empty _)).
Defined.

(** ** More about runRun: the sandbox it creates, and how it leaves it *)

(** A volume or a secret that does not parse stops the loop. *)
Lemma parse_volumes_error w workspace vol err volumes : forall mounts,
  In vol volumes -> ParseVolumeMount w vol workspace = inr err ->
  exists msg, parse_volumes w workspace volumes mounts = inr msg.
Proof.
  induction volumes as [|v rest IH]; intros mounts Hin Herr; [destruct Hin|].
  cbn [parse_volumes]. destruct (ParseVolumeMount w v workspace) as [[[h g] ro]|e] eqn:Hv.
  - destruct Hin as [->|Hin]; [congruence|]. apply IH; assumption.
  - eexists. reflexivity.
Qed.

Lemma parse_secrets_error w s err secrets : forall parsed,
  In s secrets -> ParseSecret w s = inr err ->
  exists msg, parse_secrets w secrets parsed = inr msg.
Proof.
  induction secrets as [|v rest IH]; intros parsed Hin Herr; [destruct Hin|].
  cbn [parse_secrets]. destruct (ParseSecret w v) as [[name sec]|e] eqn:Hv.
  - destruct Hin as [->|Hin]; [congruence|]. apply IH; assumption.
  - eexists. reflexivity.
Qed.

(** X10.  runRun parses every --volume and every --secret before it creates
    anything: when one of them does not parse, runRun returns an error and
    sandbox.New is never called. *)
Theorem runRun_bad_argument_no_sandbox (w : World) (f : RunFlags)
    (args : list string) :
  (exists vol err, In vol (volume f)
                   /\ ParseVolumeMount w vol (workspace f) = inr err)
  \/ (exists s err, In s (secret f) /\ ParseSecret w s = inr err) ->
  (exists err, snd (runRun w f args) = Return (Some err))
  /\ forall config opts, ~ In (SandboxNew config opts) (fst (runRun w f args)).
Proof.
  intros Hbad. unfold runRun, return_, emit, bind.
  destruct (rm f && Nat.eqb (length args) 0 && negb (tty f && interactive f)).
  { split; [eexists; reflexivity|]. intros config opts []. }
  destruct (Build w (pull f) (image f)) as [b|e].
  2:{ split; [eexists; reflexivity|]. intros config opts []. }
  destruct (parse_volumes w (workspace f) (volume f) ∅) as [mounts|e] eqn:Hv.
  2:{ split; [eexists; reflexivity|]. intros config opts [H|[]]. discriminate H. }
  destruct (parse_secrets w (secret f) ∅) as [parsed|e] eqn:Hs.
  2:{ split; [eexists; reflexivity|]. intros config opts [H|[]]. discriminate H. }
  exfalso. destruct Hbad as [(vol & err & Hin & Herr)|(s & err & Hin & Herr)].
  - destruct (parse_volumes_error w _ vol err _ ∅ Hin Herr) as [msg Hmsg]. congruence.
  - destruct (parse_secrets_error w s err _ ∅ Hin Herr) as [msg Hmsg]. congruence.
Qed.

(** Every mount the loop adds is a real_fs mount parsed from a volume. *)
Lemma parse_volumes_sound w workspace volumes : forall mounts result,
  parse_volumes w workspace volumes mounts = inl result ->
  forall g m, result !! g = Some m ->
    mounts !! g = Some m
    \/ Type_ m = "real_fs"
       /\ exists vol, In vol volumes
            /\ ParseVolumeMount w vol workspace = inl (HostPath m, g, Readonly m).
Proof.
  induction volumes as [|v rest IH]; intros mounts result Hp g m Hg.
  - injection Hp as <-. left. exact Hg.
  - cbn [parse_volumes] in Hp.
    destruct (ParseVolumeMount w v workspace) as [[[h g'] ro]|e] eqn:Hv;
      [|discriminate].
    destruct (IH _ _ Hp g m Hg) as [Hold|[Hty (vol & Hin & Hvol)]].
    + destruct (decide (g' = g)) as [->|Hne].
      * rewrite lookup_insert_eq in Hold. injection Hold as <-.
        right. split; [reflexivity|]. exists v. split; [left; reflexivity|exact Hv].
      * rewrite lookup_insert_ne in Hold by exact Hne. left. exact Hold.
    + right. split; [exact Hty|]. exists vol. split; [right; exact Hin|exact Hvol].
Qed.

(** Every volume gets a mount at its guest path: earlier entries are only
    ever replaced. *)
Lemma parse_volumes_keeps w workspace volumes : forall mounts result g,
  parse_volumes w workspace volumes mounts = inl result ->
  is_Some (mounts !! g) -> is_Some (result !! g).
Proof.
  induction volumes as [|v rest IH]; intros mounts result g Hp Hg.
  - injection Hp as <-. exact Hg.
  - cbn [parse_volumes] in Hp.
    destruct (ParseVolumeMount w v workspace) as [[[h g'] ro]|e]; [|discriminate].
    apply (IH _ _ g Hp). destruct (decide (g' = g)) as [->|Hne].
    + rewrite lookup_insert_eq. eexists. reflexivity.
    + rewrite lookup_insert_ne by exact Hne. exact Hg.
Qed.

Lemma parse_volumes_complete w workspace volumes : forall mounts result vol,
  parse_volumes w workspace volumes mounts = inl result ->
  In vol volumes ->
  exists h g ro, ParseVolumeMount w vol workspace = inl (h, g, ro)
                 /\ is_Some (result !! g).
Proof.
  induction volumes as [|v rest IH]; intros mounts result vol Hp Hin;
    [destruct Hin|].
  cbn [parse_volumes] in Hp.
  destruct (ParseVolumeMount w v workspace) as [[[h g'] ro]|e] eqn:Hv;
    [|discriminate].
  destruct Hin as [->|Hin].
  - exists h, g', ro. split; [exact Hv|].
    apply (parse_volumes_keeps _ _ _ _ _ _ Hp). rewrite lookup_insert_eq.
    eexists. reflexivity.
  - apply (IH _ _ vol Hp Hin).
Qed.

(** Volumes mounted elsewhere leave the mount of a guest path alone. *)
Lemma parse_volumes_other w workspace g volumes : forall mounts result,
  parse_volumes w workspace volumes mounts = inl result ->
  (forall vol h' g' ro',
     In vol volumes -> ParseVolumeMount w vol workspace = inl (h', g', ro') ->
     g' <> g) ->
  result !! g = mounts !! g.
Proof.
  induction volumes as [|v rest IH]; intros mounts result Hp Hother.
  - injection Hp as <-. reflexivity.
  - cbn [parse_volumes] in Hp.
    destruct (ParseVolumeMount w v workspace) as [[[h' g'] ro']|e] eqn:Hv;
      [|discriminate].
    rewrite (IH _ _ Hp).
    + apply lookup_insert_ne.
      apply (Hother v h' g' ro'); [left; reflexivity|exact Hv].
    + intros vol h2 g2 ro2 Hin. apply (Hother vol h2 g2 ro2). right. exact Hin.
Qed.

(** The volume that comes last for a guest path decides its mount. *)
Lemma parse_volumes_decides w workspace vol h g ro after before :
  forall mounts result,
  parse_volumes w workspace (before ++ vol :: after) mounts = inl result ->
  ParseVolumeMount w vol workspace = inl (h, g, ro) ->
  (forall later h' g' ro',
     In later after -> ParseVolumeMount w later workspace = inl (h', g', ro') ->
     g' <> g) ->
  result !! g = Some {| Type_ := "real_fs"; HostPath := h; Readonly := ro |}.
Proof.
  induction before as [|v rest IH]; intros mounts result Hp Hvol Hlater.
  - cbn [app parse_volumes] in Hp. rewrite Hvol in Hp.
    rewrite (parse_volumes_other _ _ g _ _ _ Hp Hlater). apply lookup_insert_eq.
  - cbn [app parse_volumes] in Hp.
    destruct (ParseVolumeMount w v workspace) as [[[h' g'] ro']|e]; [|discriminate].
    apply (IH _ _ Hp Hvol Hlater).
Qed.

(** The configuration runRun hands to sandbox.New, read off the flags. *)
Lemma runRun_config (w : World) (f : RunFlags) (args : list string)
    (config : Config) (opts : Options) :
  In (SandboxNew config opts) (fst (runRun w f args)) ->
  exists b mounts parsed,
    Build w (pull f) (image f) = inl b
    /\ parse_volumes w (workspace f) (volume f) ∅ = inl mounts
    /\ parse_secrets w (secret f) ∅ = inl parsed
    /\ opts = {| opt_RootfsPath := RootfsPath b |}
    /\ config =
       {| Image := image f;
          Privileged := privileged f;
          Resources_ := {| CPUs := cpus f; MemoryMB := memory f;
                           DiskSizeMB := disk_size f;
                           TimeoutSeconds := timeout f |};
          Network := {| AllowedHosts := allow_host f;
                        BlockPrivateIPs := true;
                        Secrets := parsed |};
          VFS := {| Workspace := workspace f; Mounts := mounts |} |}.
Proof.
  unfold_run. split_run; intros H; find_event H;
    injection H as <- <-; do 3 eexists; repeat split; reflexivity.
Qed.

(** X11.  The mount table of every sandbox runRun creates comes from the
    --volume arguments: each mount is a real_fs mount at the guest path,
    with the host path and read-only flag, that api.ParseVolumeMount gave
    for one of them, each argument has a mount at its guest path, and the
    mount of a guest path is that of the last argument with that guest
    path, wherever it stands among the arguments. *)
Theorem runRun_mounts_from_volumes (w : World) (f : RunFlags)
    (args : list string) (config : Config) (opts : Options) :
  In (SandboxNew config opts) (fst (runRun w f args)) ->
  (forall g m, Mounts (VFS config) !! g = Some m ->
     Type_ m = "real_fs"
     /\ exists vol, In vol (volume f)
          /\ ParseVolumeMount w vol (workspace f) = inl (HostPath m, g, Readonly m))
  /\ (forall vol, In vol (volume f) ->
        exists h g ro, ParseVolumeMount w vol (workspace f) = inl (h, g, ro)
                       /\ is_Some (Mounts (VFS config) !! g))
  /\ (forall before vol after h g ro,
        volume f = before ++ vol :: after ->
        ParseVolumeMount w vol (workspace f) = inl (h, g, ro) ->
        (forall later h' g' ro',
           In later after ->
           ParseVolumeMount w later (workspace f) = inl (h', g', ro') ->
           g' <> g) ->
        Mounts (VFS config) !! g
        = Some {| Type_ := "real_fs"; HostPath := h; Readonly := ro |}).
Proof.
  intros H. destruct (runRun_config w f args config opts H)
    as (b & mounts & parsed & _ & Hv & _ & _ & ->). cbn [VFS Mounts].
  split; [|split].
  - intros g m Hg. destruct (parse_volumes_sound _ _ _ _ _ Hv g m Hg) as [He|Hm];
      [rewrite lookup_empty in He; discriminate|exact Hm].
  - intros vol Hin. exact (parse_volumes_complete _ _ _ _ _ vol Hv Hin).
  - intros before vol after h g ro Heq Hvol Hlater. rewrite Heq in Hv.
    exact (parse_volumes_decides _ _ _ _ _ _ _ _ _ _ Hv Hvol Hlater).
Qed.

(** X12.  Apart from the mounts and the secrets, the configuration runRun
    hands to sandbox.New is the flags as given: image, privileged, CPUs,
    memory, disk size, timeout, allowed hosts and workspace; and the
    rootfs is the one the image build returned. *)
Theorem runRun_config_from_flags (w : World) (f : RunFlags)
    (args : list string) (config : Config) (opts : Options) :
  In (SandboxNew config opts) (fst (runRun w f args)) ->
  Image config = image f
  /\ Privileged config = privileged f
  /\ Resources_ config
     = {| CPUs := cpus f; MemoryMB := memory f; DiskSizeMB := disk_size f;
          TimeoutSeconds := timeout f |}
  /\ AllowedHosts (Network config) = allow_host f
  /\ Workspace (VFS config) = workspace f
  /\ exists b, Build w (pull f) (image f) = inl b
               /\ opt_RootfsPath opts = RootfsPath b.
Proof.
  intros H. destruct (runRun_config w f args config opts H)
    as (b & mounts & parsed & Hb & _ & _ & -> & ->).
  repeat split. exists b. split; [exact Hb|reflexivity].
Qed.

(** X13.  With --rm, a sandbox that runRun started is closed on every
    path.  With --rm=false it is closed only when Start failed or after
    the wait on the context; in particular it is left running when the
    command could not be executed. *)
Theorem runRun_closes_sandbox (w : World) (f : RunFlags) (args : list string) :
  (rm f = true ->
     In SandboxStart (fst (runRun w f args)) ->
     In SandboxClose (fst (runRun w f args)))
  /\ (rm f = false ->
      In SandboxClose (fst (runRun w f args)) ->
      sb_Start w <> None \/ In (CtxDone (ctx_Done w)) (fst (runRun w f args))).
Proof.
  split; intros Hrm; unfold_run; rewrite !Hrm; destruct args as [|arg args];
    simpl length; cbn [negb andb Nat.eqb]; change (Nat.ltb 0 0) with false;
    try change (Nat.ltb 0 (S (length args))) with true;
    destruct (tty f && interactive f) eqn:Hi; cbn [negb];
    split_run; intros H; find_event H; try congruence; cbn [fst snd app In];
    first [ solve [repeat (first [left; reflexivity | right])]
          | left; discriminate ].
Qed.

(** X14.  The exec relay runRun started is stopped exactly on the paths on
    which runRun returns; a path that ends in os.Exit skips the deferred
    Stop. *)
Theorem runRun_stops_relay (w : World) (f : RunFlags) (args : list string)
    (socketPath : string) :
  In (ExecRelayStart socketPath) (fst (runRun w f args)) ->
  (In ExecRelayStop (fst (runRun w f args))
   <-> exists err, snd (runRun w f args) = Return err).
Proof.
  unfold_run. split_run; intros H; find_event H;
    cbn [fst snd app In] in *;
    (split; [intros Hs; try (eexists; reflexivity); find_event Hs
            |intros [err Herr]; try discriminate Herr; tauto]).
Qed.

(** The options of an interactive session: the prepared environment, or
    the working directory asked for. *)
Definition interactive_opts (w : World) (workdir : string) : ExecOptions :=
  if negb (String.eqb workdir "") then {| WorkingDir := workdir |}
  else sb_PrepareExecEnv w.

(** X15.  runInteractive hands its result back as an exit code: it never
    returns an error or exits by itself.  When stdin is a terminal that
    could be put in raw mode and the backend is interactive, it runs the
    session, with the options and the geometry of the terminal, and
    returns the session's exit code, or 1 when the session failed; in
    every other case it runs no session and returns 1.  The geometry of a
    session fits uint16. *)
Theorem runInteractive_exit_code (w : World) (command workdir : string) :
  (exists code, snd (runInteractive w command workdir) = Next code
     /\ (code = 1%Z
         \/ exists opts rows cols,
              In (MachineExecInteractive command opts rows cols)
                 (fst (runInteractive w command workdir))
              /\ machine_ExecInteractive w command opts rows cols = inl code))
  /\ (forall cmd opts rows cols,
        In (MachineExecInteractive cmd opts rows cols)
           (fst (runInteractive w command workdir)) ->
        term_IsTerminal w = true /\ term_MakeRaw w = None
        /\ machine_is_interactive w = true
        /\ (0 <= rows < 65536)%Z /\ (0 <= cols < 65536)%Z)
  /\ (term_IsTerminal w = true -> term_MakeRaw w = None ->
      machine_is_interactive w = true ->
      In (MachineExecInteractive command (interactive_opts w workdir)
            (uint16 (fst (terminal_size w))) (uint16 (snd (terminal_size w))))
         (fst (runInteractive w command workdir))
      /\ snd (runInteractive w command workdir)
         = Next match machine_ExecInteractive w command (interactive_opts w workdir)
                        (uint16 (fst (terminal_size w)))
                        (uint16 (snd (terminal_size w))) with
                | inl exitCode => exitCode
                | inr _ => 1%Z
                end)
  /\ (term_IsTerminal w = false \/ term_MakeRaw w <> None
      \/ machine_is_interactive w = false ->
      snd (runInteractive w command workdir) = Next 1%Z).
Proof.
  assert (Hu : forall n, (0 <= uint16 n < 65536)%Z).
  { intros n. unfold uint16. apply Z.mod_pos_bound. lia. }
  split; [|split; [|split]].
  - unfold runInteractive, when, bind, emit, ret, terminal_size.
    split_run; cbn [fst snd app In negb] in *;
      (eexists; split; [reflexivity|];
       first [left; reflexivity
             |right; do 3 eexists; split; [left; reflexivity|eassumption]]).
  - unfold runInteractive, when, bind, emit, ret, terminal_size.
    split_run; cbn [fst snd app In negb] in *;
      intros cmd opts rows cols H; find_event H;
      injection H as <- <- <- <-;
      repeat match goal with
             | Hb : negb _ = false |- _ => apply negb_false_iff in Hb
             end;
      repeat split; try assumption; apply Hu.
  - intros Ht Hr Hm. unfold runInteractive, interactive_opts.
    rewrite Ht, Hr, Hm. cbn [negb].
    destruct (terminal_size w) as [rows cols]. cbn [fst snd].
    unfold bind, emit, ret.
    destruct (machine_ExecInteractive w command _ (uint16 rows) (uint16 cols));
      cbn [fst snd app]; (split; [left; reflexivity|reflexivity]).
  - intros Hno. unfold runInteractive, when, bind, emit, ret, terminal_size.
    split_run; cbn [fst snd app negb] in *; try reflexivity;
      exfalso;
      repeat match goal with
             | Hb : negb _ = false |- _ => apply negb_false_iff in Hb
             end;
      destruct Hno as [Hn|[Hn|Hn]]; congruence.
Qed.

(** X16.  runExec opens an interactive session over the relay only with
    both -t and -i, on a terminal that could be put in raw mode; the
    geometry it sends fits uint16 and is 24 rows by 80 columns when the
    terminal size cannot be read. *)
Theorem runExec_interactive_session (w : World) (f : ExecFlags)
    (args : list string) (socket command workdir : string) (rows cols : Z) :
  In (ExecInteractiveViaRelay socket command workdir rows cols)
     (fst (runExec w f args)) ->
  exec_tty f = true /\ exec_interactive f = true
  /\ term_IsTerminal w = true /\ term_MakeRaw w = None
  /\ (0 <= rows < 65536)%Z /\ (0 <= cols < 65536)%Z
  /\ (forall err, term_GetSize w = inr err -> rows = 24%Z /\ cols = 80%Z).
Proof.
  assert (Hu : forall n, (0 <= uint16 n < 65536)%Z).
  { intros n. unfold uint16. apply Z.mod_pos_bound. lia. }
  unfold runExec, runExecInteractive, when, bind, emit, ret, return_, os_Exit,
    terminal_size.
  split_run; intros H; find_event H; injection H as <- <- <- <- <-;
    repeat match goal with
           | Hb : negb _ = false |- _ => apply negb_false_iff in Hb
           | Hb : _ && _ = true |- _ => apply andb_true_iff in Hb; destruct Hb
           end;
    repeat split; try assumption; try apply Hu;
    try discriminate; reflexivity.
Qed.


(** The demo world with another secret parser and another terminal. *)
Definition demo_world_with (parseSecret : string -> (string * Secret) + string)
    (isTerminal : bool) (getSize : (Z * Z) + string) : World :=
  {| ShellQuoteArgs := ShellQuoteArgs demo_world;
     ParseVolumeMount := ParseVolumeMount demo_world;
     ParseSecret := parseSecret;
     Build := Build demo_world;
     sandbox_New := sandbox_New demo_world;
     sb_Start := sb_Start demo_world;
     sb_Exec := sb_Exec demo_world;
     sb_PrepareExecEnv := sb_PrepareExecEnv demo_world;
     machine_is_interactive := machine_is_interactive demo_world;
     machine_ExecInteractive := machine_ExecInteractive demo_world;
     execRelay_Start := execRelay_Start demo_world;
     sandbox_ExecViaRelay := sandbox_ExecViaRelay demo_world;
     sandbox_ExecInteractiveViaRelay := sandbox_ExecInteractiveViaRelay demo_world;
     mgr_Get := mgr_Get demo_world;
     mgr_ExecSocketPath := mgr_ExecSocketPath demo_world;
     os_Stat := os_Stat demo_world;
     ctx_Done := ctx_Done demo_world;
     term_IsTerminal := isTerminal;
     term_GetSize := getSize;
     term_MakeRaw := term_MakeRaw demo_world;
     fmt_quote := fmt_quote demo_world;
     fmt_megabytes := fmt_megabytes demo_world |}.

(** A secret without a host list does not parse. *)
Definition strict_world : World :=
  demo_world_with (fun s => inr "missing @host") false (inl (80, 24)%Z).

(** A terminal whose size cannot be read. *)
Definition tty_world : World :=
  demo_world_with (ParseSecret demo_world) true (inr "inappropriate ioctl").

Definition demo_flags_with (volumes secrets : list string) : RunFlags :=
  {| image := "alpine:latest"; workspace := "/workspace"; allow_host := [];
     volume := volumes; secret := secrets; cpus := 1; memory := 512;
     timeout := 60; timeout_changed := true; disk_size := 1024; tty := false;
     interactive := false; pull := false; rm := true; privileged := false;
     workdir := "" |}.

Lemma runRun_bad_argument_no_sandbox_witness :
  (exists err,
     snd (runRun strict_world (demo_flags_with [] ["TOKEN"]) ["true"])
     = Return (Some err))
  /\ forall config opts,
       ~ In (SandboxNew config opts)
            (fst (runRun strict_world (demo_flags_with [] ["TOKEN"]) ["true"])).
Proof.
  apply (runRun_bad_argument_no_sandbox strict_world
           (demo_flags_with [] ["TOKEN"]) ["true"]).
  right. exists "TOKEN", "missing @host". split; [left|]; reflexivity.
Defined.

Definition demo_volume_config : Config :=
  {| Image := "alpine:latest";
     Privileged := false;
     Resources_ := {| CPUs := 1; MemoryMB := 512; DiskSizeMB := 1024;
                      TimeoutSeconds := 60 |};
     Network := {| AllowedHosts := []; BlockPrivateIPs := true; Secrets := ∅ |};
     VFS := {| Workspace := "/workspace";
               Mounts :=
                 <["/workspace/code" :=
                     {| Type_ := "real_fs"; HostPath := "code"; Readonly := false |}]>
                   (<["/workspace/data" :=
                        {| Type_ := "real_fs"; HostPath := "data";
                           Readonly := false |}]> ∅) |} |}.

Lemma demo_volume_run :
  In (SandboxNew demo_volume_config {| opt_RootfsPath := "/cache/alpine:latest" |})
     (fst (runRun demo_world (demo_flags_with ["data"; "code"] []) ["true"])).
Proof. vm_compute. right. left. reflexivity. Qed.

Lemma runRun_mounts_from_volumes_witness :
  Mounts (VFS demo_volume_config) !! "/workspace/data"
  = Some {| Type_ := "real_fs"; HostPath := "data"; Readonly := false |}.
Proof.
  refine (proj2 (proj2 (runRun_mounts_from_volumes demo_world
    (demo_flags_with ["data"; "code"] []) ["true"] demo_volume_config
    {| opt_RootfsPath := "/cache/alpine:latest" |} demo_volume_run))
    [] "data" ["code"] "data" "/workspace/data" false eq_refl eq_refl _).
  intros later h' g' ro' [<-|[]] Hp. vm_compute in Hp.
  injection Hp as _ <- _. discriminate.
Defined.

Lemma runRun_config_from_flags_witness :
  Image demo_volume_config = "alpine:latest"
  /\ Privileged demo_volume_config = false
  /\ Resources_ demo_volume_config
     = {| CPUs := 1; MemoryMB := 512; DiskSizeMB := 1024; TimeoutSeconds := 60 |}
  /\ AllowedHosts (Network demo_volume_config) = []
  /\ Workspace (VFS demo_volume_config) = "/workspace"
  /\ exists b,
       Build demo_world false "alpine:latest" = inl b
       /\ "/cache/alpine:latest" = RootfsPath b.
Proof.
  exact (runRun_config_from_flags demo_world
           (demo_flags_with ["data"; "code"] []) ["true"] demo_volume_config
           {| opt_RootfsPath := "/cache/alpine:latest" |} demo_volume_run).
Defined.

Lemma runRun_stops_relay_witness :
  In ExecRelayStop (fst (runRun demo_world (demo_flags false) ["true"]))
  /\ ~ In ExecRelayStop (fst (runRun demo_world (demo_flags true) ["true"])).
Proof.
  split.
  - apply (runRun_stops_relay demo_world (demo_flags false) ["true"]
             "/state/vm-1a2b3c4d/exec.sock").
    + vm_compute. tauto.
    + exists None. reflexivity.
  - intros Hstop.
    apply (runRun_stops_relay demo_world (demo_flags true) ["true"]
             "/state/vm-1a2b3c4d/exec.sock") in Hstop.
    + destruct Hstop as [err Herr]. discriminate Herr.
    + vm_compute. tauto.
Defined.

Lemma runExec_interactive_session_witness :
  exec_tty {| exec_tty := true; exec_interactive := true; exec_workdir := "" |}
  = true
  /\ term_IsTerminal tty_world = true.
Proof.
  assert (H : In (ExecInteractiveViaRelay "/state/vm-1a2b3c4d/exec.sock" "sh" ""
                    24 80)
                 (fst (runExec tty_world
                         {| exec_tty := true; exec_interactive := true;
                            exec_workdir := "" |}
                         ["vm-1a2b3c4d"; "sh"]))).
  { vm_compute. tauto. }
  pose proof (runExec_interactive_session tty_world _ _ _ _ _ _ _ H) as Hs.
  split; [exact (proj1 Hs)|exact (proj1 (proj2 (proj2 Hs)))].
Defined.

Lemma runInteractive_exit_code_witness :
  snd (runInteractive tty_world "sh" "/srv") = Next 0%Z.
Proof.
  exact (proj2 (proj1 (proj2 (proj2 (runInteractive_exit_code tty_world "sh" "/srv")))
                  eq_refl eq_refl eq_refl)).
Defined.

End Cli.

(* ===================================================================== *)
(** * path/filepath on Unix: Clean, Join, Dir                              *)
(* ===================================================================== *)

Module Filepath.

Definition Separator : ascii := "/"%char.

(** [strings.Split(path, "/")]: the elements between separators. *)
Fixpoint split (path : string) : list string :=
  match path with
  | EmptyString => [EmptyString]
  | String c rest =>
      if Ascii.eqb c Separator then EmptyString :: split rest
      else
        match split rest with
        | e :: es => String c e :: es
        | [] => [String c EmptyString]
        end
  end.

(** [os.IsPathSeparator(path[0])]. *)
Definition rooted (path : string) : bool :=
  match path with
  | String c _ => Ascii.eqb c Separator
  | EmptyString => false
  end.

(** One round of Clean's loop, on a whole path element.  [out] holds the
    elements written so far, last first; [dotdot] is how many of them, at
    the front of the path, are ".." elements that cannot be backed over. *)
Definition clean_step (rooted : bool) (st : list string * nat) (e : string)
  : list string * nat :=
  let '(out, dotdot) := st in
  if String.eqb e "" || String.eqb e "." then st
  else if String.eqb e ".." then
    if Nat.ltb dotdot (length out) then (tail out, dotdot)
    else if negb rooted then (".." :: out, S (length out))
    else st
  else (e :: out, dotdot).

(** The elements of the cleaned path, in order. *)
Definition path_elems (path : string) : list string :=
  rev (fst (fold_left (clean_step (rooted path)) (split path) ([], 0))).

(** A rooted flag and elements as a path. *)
Definition render (rooted : bool) (elems : list string) : string :=
  if rooted then String Separator (String.concat "/" elems)
  else if Nat.eqb (length elems) 0 then "." else String.concat "/" elems.

(** filepath.Clean (Unix). *)
Definition Clean (path : string) : string :=
  if String.eqb path "" then "."
  else render (rooted path) (path_elems path).

(** filepath.Join of two elements (Unix). *)
Definition Join (a b : string) : string :=
  if negb (String.eqb a "") then Clean (a +:+ "/" +:+ b)
  else if negb (String.eqb b "") then Clean b
  else "".

(** The path up to and including its last separator. *)
Fixpoint upto_last_separator (path : string) : string :=
  match path with
  | EmptyString => EmptyString
  | String c rest =>
      let r := upto_last_separator rest in
      if Ascii.eqb c Separator || negb (String.eqb r "") then String c r
      else EmptyString
  end.

(** filepath.Dir (Unix). *)
Definition Dir (path : string) : string := Clean (upto_last_separator path).


(** The examples of the package documentation, and the paths used below. *)
Example Clean_examples :
  map Clean ["a/c"; "a//c"; "a/c/."; "a/c/b/.."; "/../a/c"; "/../a/b/../././/c"; "";
             "../../etc/passwd"; "a/../.."; "/"; "./passwd"]
  = ["a/c"; "a/c"; "a/c"; "a/c"; "/a/c"; "/a/c"; ".";
     "../../etc/passwd"; ".."; "/"; "passwd"].
Proof. vm_compute. reflexivity. Qed.

Example Join_examples :
  [Join "a" "b/c"; Join "a/b" "../../../xyz"; Join "" "a"; Join "a" "";
   Join "/tmp/extract" "etc/passwd"; Join "/tmp/extract" "/etc/passwd"]
  = ["a/b/c"; "../xyz"; "a"; "a"; "/tmp/extract/etc/passwd"; "/tmp/extract/etc/passwd"].
Proof. vm_compute. reflexivity. Qed.

Example Dir_examples :
  map Dir ["/foo/bar/baz.js"; "/foo/bar/baz"; "/foo/bar/baz/"; "dev.txt"; "../todo.txt";
           ".."; "."; "/"; ""]
  = ["/foo/bar"; "/foo/bar"; "/foo/bar/baz"; "."; ".."; "."; "."; "/"; "."].
Proof. vm_compute. reflexivity. Qed.

(** ** Lexical facts about Split, Clean and Join *)

Lemma split_not_nil path : split path <> [].
Proof.
  destruct path as [|c rest]; simpl; [discriminate|].
  destruct (Ascii.eqb c Separator); [discriminate|].
  destruct (split rest); discriminate.
Qed.

Lemma split_app a b : split (a +:+ String Separator b) = split a ++ split b.
Proof.
  induction a as [|c a IH]; simpl; [reflexivity|].
  rewrite IH. destruct (Ascii.eqb c Separator); [reflexivity|].
  destruct (split a) eqn:Ha; [destruct (split_not_nil _ Ha)|reflexivity].
Qed.

(** The first element of a path is a prefix of it. *)
Lemma split_head_prefix path e es :
  split path = e :: es -> Strings.HasPrefix path e = true.
Proof.
  revert e es. induction path as [|c rest IH]; simpl; intros e es H.
  - injection H as <- _. reflexivity.
  - destruct (Ascii.eqb c Separator).
    + injection H as <- _. reflexivity.
    + destruct (split rest) as [|e0 es0] eqn:Hs.
      * injection H as <- _. apply Strings.HasPrefix_cons, Strings.HasPrefix_nil.
      * injection H as <- _. apply Strings.HasPrefix_cons. eapply IH. reflexivity.
Qed.

(** Every element of a path occurs in it. *)
Lemma split_elem_Contains path e :
  In e (split path) -> Strings.Contains path e = true.
Proof.
  revert e. induction path as [|c rest IH]; intros e H; cbn [split] in H.
  - destruct H as [<-|[]]. reflexivity.
  - destruct (Ascii.eqb c Separator).
    + destruct H as [<-|H]; [apply Strings.Contains_HasPrefix, Strings.HasPrefix_nil|].
      apply Strings.Contains_cons, IH, H.
    + destruct (split rest) as [|e0 es0] eqn:Hs.
      * destruct (split_not_nil _ Hs).
      * destruct H as [<-|H].
        -- apply Strings.Contains_HasPrefix, Strings.HasPrefix_cons.
           eapply split_head_prefix. exact Hs.
        -- apply Strings.Contains_cons, IH. right. exact H.
Qed.

(** An element holds no separator. *)
Fixpoint has_separator (e : string) : bool :=
  match e with
  | EmptyString => false
  | String c rest => Ascii.eqb c Separator || has_separator rest
  end.

Lemma split_elem_no_separator path e :
  In e (split path) -> has_separator e = false.
Proof.
  revert e. induction path as [|c rest IH]; simpl; intros e H.
  - destruct H as [<-|[]]. reflexivity.
  - destruct (Ascii.eqb c Separator) eqn:Hc.
    + destruct H as [<-|H]; [reflexivity|]. apply IH, H.
    + destruct (split rest) as [|e0 es0] eqn:Hs.
      * destruct H as [<-|[]]. simpl. rewrite Hc. reflexivity.
      * destruct H as [<-|H].
        -- simpl. rewrite Hc. apply IH. left. reflexivity.
        -- apply IH. right. exact H.
Qed.

(** A real path element: not empty, not ".", not "..", no separator. *)
Definition real_elem (e : string) : bool :=
  negb (String.eqb e "" || String.eqb e ".")
  && negb (String.eqb e "..")
  && negb (has_separator e).

(** The elements Clean keeps of a path that holds no ".." element. *)
Definition kept_elems (elems : list string) : list string :=
  List.filter (fun e => negb (String.eqb e "" || String.eqb e ".")) elems.

Lemma clean_no_dotdot r elems out dotdot :
  Forall (fun e => e <> "..") elems ->
  fold_left (clean_step r) elems (out, dotdot)
  = (rev (kept_elems elems) ++ out, dotdot).
Proof.
  intros H. revert out. induction H as [|e elems He _ IH]; intros out;
    [reflexivity|].
  cbn [fold_left]. unfold clean_step at 2. unfold kept_elems.
  cbn [List.filter]. fold (kept_elems elems).
  destruct (String.eqb e "" || String.eqb e ".") eqn:Hskip; cbn [negb].
  - apply IH.
  - apply String.eqb_neq in He. rewrite He.
    rewrite IH. cbn [rev]. rewrite <- app_assoc. reflexivity.
Qed.

Lemma rooted_app a s : a <> "" -> rooted (a +:+ s) = rooted a.
Proof. destruct a; [congruence|reflexivity]. Qed.

(** [path] lies under [dir]: it is the cleaned [dir] followed by real
    path elements. *)
Definition under (dir path : string) : Prop :=
  exists rest,
    forallb real_elem rest = true
    /\ path = render (rooted dir) (path_elems dir ++ rest).

Lemma kept_elems_real path :
  Strings.Contains path ".." = false ->
  forallb real_elem (kept_elems (split path)) = true.
Proof.
  intros Hno. apply forallb_forall. intros e He.
  unfold kept_elems in He. apply filter_In in He. destruct He as [Hin Hk].
  unfold real_elem. rewrite Hk. cbn [andb].
  rewrite (split_elem_no_separator _ _ Hin). rewrite andb_true_r.
  destruct (String.eqb e "..") eqn:Hdd; [|reflexivity].
  apply String.eqb_eq in Hdd. subst e.
  rewrite (split_elem_Contains _ _ Hin) in Hno. discriminate.
Qed.

(** Joining a name that holds no ".." onto a directory stays under it. *)
Lemma Join_under dir name :
  dir <> "" -> Strings.Contains name ".." = false ->
  Join dir name = render (rooted dir) (path_elems dir ++ kept_elems (split name)).
Proof.
  intros Hdir Hno. unfold Join.
  apply String.eqb_neq in Hdir. rewrite Hdir. cbn [negb].
  apply String.eqb_neq in Hdir.
  unfold Clean.
  destruct (String.eqb (dir +:+ "/" +:+ name) "") eqn:He.
  { apply String.eqb_eq in He. destruct dir; [congruence|discriminate]. }
  rewrite rooted_app by exact Hdir. f_equal.
  unfold path_elems. rewrite rooted_app by exact Hdir.
  change ("/" +:+ name) with (String Separator name).
  rewrite split_app, fold_left_app.
  destruct (fold_left (clean_step (rooted dir)) (split dir) ([], 0)) as [out d].
  rewrite clean_no_dotdot.
  - cbn [fst]. rewrite rev_app_distr, rev_involutive. reflexivity.
  - apply List.Forall_forall. intros e Hin ->.
    rewrite (split_elem_Contains _ _ Hin) in Hno. discriminate.
Qed.

End Filepath.

(* ===================================================================== *)
(** * pkg/image: Builder.extractImage                                      *)
(* ===================================================================== *)

Module Image.

Import Filepath.

(** archive/tar: the type flags extractImage tells apart, and a header. *)
Inductive typeflag : Type :=
| TypeReg
| TypeLink
| TypeSymlink
| TypeDir
| TypeOther (flag : ascii).

Record Header : Type := {
  Name : string;
  Typeflag : typeflag;
  Linkname : string;
  Mode : Z;
  Uid : Z;
  Gid : Z
}.

Record fileMeta : Type := {
  uid : Z;
  gid : Z;
  mode : Z
}.

(** The calls extractImage makes on the file system. *)
Inductive fs_op : Type :=
| MkdirAll (path : string) (perm : Z)
| OpenFile (name : string) (perm : Z)
| Copy (name : string) (data : string)
| Remove (name : string)
| Symlink (oldname newname : string)
| Link (oldname newname : string).

Section ExtractImage.

(** The file system's answer to a call, given the calls made before it:
    [None] when the call succeeds. *)
Variable fs : list fs_op -> fs_op -> option string.

(** The calls made for one entry, in order, each with the prefix of the
    error extractImage returns when the call fails ([None]: the error is
    ignored).  The result is the calls made and the error, if any. *)
Fixpoint perform (done : list fs_op) (steps : list (fs_op * option string))
  : list fs_op * option string :=
  match steps with
  | [] => (done, None)
  | (op, on_error) :: rest =>
      match fs done op, on_error with
      | Some err, Some what => (done ++ [op], Some (what +:+ ": " +:+ err))
      | _, _ => perform (done ++ [op]) rest
      end
  end.

(** The calls of each case of the switch on [hdr.Typeflag]; [None] for the
    default case.  0755 is 493 and 0777 is 511. *)
Definition entry_steps (destDir clean target : string) (hdr : Header)
    (body : string) : option (list (fs_op * option string)) :=
  match Typeflag hdr with
  | TypeDir =>
      Some [ (MkdirAll target 493, Some ("mkdir " +:+ clean)) ]
  | TypeReg =>
      Some [ (MkdirAll (Dir target) 493, Some ("mkdir parent " +:+ clean));
             (OpenFile target (Z.land (Mode hdr) 511), Some ("create " +:+ clean));
             (Copy target body, Some ("write " +:+ clean)) ]
  | TypeSymlink =>
      Some [ (MkdirAll (Dir target) 493, Some ("mkdir parent " +:+ clean));
             (Remove target, None);
             (Symlink (Linkname hdr) target, Some ("symlink " +:+ clean)) ]
  | TypeLink =>
      let linkTarget := Join destDir (Clean (Linkname hdr)) in
      Some [ (MkdirAll (Dir target) 493, Some ("mkdir parent " +:+ clean));
             (Remove target, None);
             (Link linkTarget target, Some ("hardlink " +:+ clean)) ]
  | TypeOther _ => None
  end.

(** The loop of extractImage over the entries of the flattened image;
    [readErr] is the error that ends the tar stream ([None]: io.EOF). *)
Fixpoint extract_entries (destDir : string) (entries : list (Header * string))
    (readErr : option string) (done : list fs_op) (meta : gmap string fileMeta)
  : list fs_op * (gmap string fileMeta + string) :=
  match entries with
  | [] =>
      match readErr with
      | None => (done, inl meta)
      | Some err => (done, inr ("read tar: " +:+ err))
      end
  | (hdr, body) :: rest =>
      let clean := Clean (Name hdr) in
      if Strings.Contains clean ".." then
        extract_entries destDir rest readErr done meta
      else
        let target := Join destDir clean in
        match entry_steps destDir clean target hdr body with
        | None => extract_entries destDir rest readErr done meta
        | Some steps =>
            match perform done steps with
            | (done1, Some err) => (done1, inr err)
            | (done1, None) =>
                let relPath := "/" +:+ clean in
                extract_entries destDir rest readErr done1
                  (<[relPath := {| uid := Uid hdr; gid := Gid hdr;
                                   mode := Z.land (Mode hdr) 511 |}]> meta)
            end
        end
  end.

(** Builder.extractImage: the file-system calls made, and the metadata
    table or the error. *)
Definition extractImage (img : list (Header * string)) (readErr : option string)
    (destDir : string) : list fs_op * (gmap string fileMeta + string) :=
  extract_entries destDir img readErr [] ∅.

(** An entry whose cleaned name contains ".." is skipped entirely. *)
Lemma extract_entries_skip destDir hdr body rest readErr done meta :
  Strings.Contains (Clean (Name hdr)) ".." = true ->
  extract_entries destDir ((hdr, body) :: rest) readErr done meta
  = extract_entries destDir rest readErr done meta.
Proof. intros H. cbn [extract_entries]. rewrite H. reflexivity. Qed.

(** The path a call creates or replaces lies under [destDir]; a MkdirAll
    may also be for the parent of such a path. *)
Definition creates_under (destDir : string) (op : fs_op) : Prop :=
  match op with
  | MkdirAll path _ =>
      under destDir path \/ exists target, under destDir target /\ path = Dir target
  | OpenFile name _ => under destDir name
  | Copy name _ => under destDir name
  | Remove name => under destDir name
  | Symlink _ newname => under destDir newname
  | Link _ newname => under destDir newname
  end.

Lemma perform_Forall (P : fs_op -> Prop) steps : forall done,
  List.Forall P done -> List.Forall (fun s => P (fst s)) steps ->
  List.Forall P (fst (perform done steps)).
Proof.
  induction steps as [|[op on_error] steps IH]; intros done Hdone Hsteps;
    [exact Hdone|].
  inversion Hsteps as [|s ss Hop Hrest]; subst.
  assert (Hdone1 : List.Forall P (done ++ [op])).
  { apply List.Forall_app. split; [exact Hdone|]. constructor; [exact Hop|constructor]. }
  cbn [perform]. destruct (fs done op), on_error; try (apply IH; assumption).
  exact Hdone1.
Qed.

Lemma entry_steps_under destDir hdr body steps :
  destDir <> "" ->
  Strings.Contains (Clean (Name hdr)) ".." = false ->
  entry_steps destDir (Clean (Name hdr)) (Join destDir (Clean (Name hdr))) hdr body
  = Some steps ->
  List.Forall (fun s => creates_under destDir (fst s)) steps.
Proof.
  intros Hdir Hno Hsteps.
  assert (Hu : under destDir (Join destDir (Clean (Name hdr)))).
  { exists (kept_elems (split (Clean (Name hdr)))). split.
    - apply kept_elems_real, Hno.
    - apply Join_under; assumption. }
  unfold entry_steps in Hsteps.
  destruct (Typeflag hdr); inversion Hsteps; subst;
    repeat (apply List.Forall_cons || apply List.Forall_nil);
    cbn [fst creates_under];
    first [ exact Hu
          | left; exact Hu
          | right; eexists; split; [exact Hu|reflexivity] ].
Qed.

(** Every path extractImage creates lies under the destination
    directory. *)
Lemma extract_entries_under destDir entries readErr : forall done meta,
  destDir <> "" ->
  List.Forall (creates_under destDir) done ->
  List.Forall (creates_under destDir)
    (fst (extract_entries destDir entries readErr done meta)).
Proof.
  induction entries as [|[hdr body] rest IH]; intros done meta Hdir Hdone.
  - cbn [extract_entries]. destruct readErr; exact Hdone.
  - cbn [extract_entries].
    destruct (Strings.Contains (Clean (Name hdr)) "..") eqn:Hno;
      [apply IH; assumption|].
    destruct (entry_steps _ _ _ hdr body) as [steps|] eqn:Hsteps;
      [|apply IH; assumption].
    pose proof (perform_Forall (creates_under destDir) steps done Hdone
                  (entry_steps_under _ _ _ _ Hdir Hno Hsteps)) as Hp.
    destruct (perform done steps) as [done1 [err|]]; [exact Hp|].
    apply IH; assumption.
Qed.

(** X1.  Every path extractImage creates, for a directory, a regular file,
    a symlink or a hard link, lies under the destination directory: it is
    the cleaned destination followed by the elements of the entry's name,
    none of which is "..".  (The path a hard link points to and the text
    of a symlink are not paths extractImage creates.) *)
Theorem extractImage_creates_under (img : list (Header * string))
    (readErr : option string) (destDir : string) :
  destDir <> "" ->
  List.Forall (creates_under destDir) (fst (extractImage img readErr destDir)).
Proof.
  intros Hdir. unfold extractImage.
  apply extract_entries_under; [exact Hdir|constructor].
Qed.

(** An entry whose cleaned name contains ".." is skipped wherever it
    stands in the stream. *)
Lemma extract_entries_skip_anywhere destDir hdr body after readErr before :
  Strings.Contains (Clean (Name hdr)) ".." = true ->
  forall done meta,
    extract_entries destDir (before ++ (hdr, body) :: after) readErr done meta
    = extract_entries destDir (before ++ after) readErr done meta.
Proof.
  intros Hskip. induction before as [|[h b] before IH]; intros done meta.
  - apply extract_entries_skip, Hskip.
  - cbn [app extract_entries].
    destruct (Strings.Contains (Clean (Name h)) ".."); [apply IH|].
    destruct (entry_steps _ _ _ h b) as [steps|]; [|apply IH].
    destruct (perform done steps) as [done1 [err|]]; [reflexivity|apply IH].
Qed.

(** X2.  An entry whose cleaned name contains ".." leaves no trace,
    wherever it stands in the image: the calls on the file system, the
    metadata and the error are those of the image without it. *)
Theorem extractImage_skips_dotdot (before : list (Header * string))
    (hdr : Header) (body : string) (after : list (Header * string))
    (readErr : option string) (destDir : string) :
  Strings.Contains (Clean (Name hdr)) ".." = true ->
  extractImage (before ++ (hdr, body) :: after) readErr destDir
  = extractImage (before ++ after) readErr destDir.
Proof.
  intros H. unfold extractImage. apply extract_entries_skip_anywhere, H.
Qed.

End ExtractImage.

(** A file system on which every call succeeds. *)
Definition fs_ok (done : list fs_op) (op : fs_op) : option string := None.

(** A hard-link entry whose own name is harmless and whose link name
    climbs out of the destination directory. *)
Definition escaping_link : Header :=
  {| Name := "passwd"; Typeflag := TypeLink; Linkname := "../../etc/passwd";
     Mode := 420; Uid := 0; Gid := 0 |}.

(** An image whose first entry climbs out by its name, and is skipped,
    and whose other entries are a directory, a file and a symlink. *)
Definition demo_image : list (Header * string) :=
  [ ({| Name := "../outside"; Typeflag := TypeReg; Linkname := "";
        Mode := 420; Uid := 0; Gid := 0 |}, "x");
    ({| Name := "etc/"; Typeflag := TypeDir; Linkname := "";
        Mode := 493; Uid := 0; Gid := 0 |}, "");
    ({| Name := "./etc/hostname"; Typeflag := TypeReg; Linkname := "";
        Mode := 420; Uid := 0; Gid := 0 |}, "guest");
    ({| Name := "bin/sh"; Typeflag := TypeSymlink; Linkname := "/bin/busybox";
        Mode := 511; Uid := 0; Gid := 0 |}, "") ].

(** An image that replaces a file: two entries with the same cleaned
    name, then an entry that climbs out by its name, then a directory. *)
Definition replacing_image : list (Header * string) :=
  [ ({| Name := "etc/motd"; Typeflag := TypeReg; Linkname := "";
        Mode := 420; Uid := 0; Gid := 0 |}, "hello");
    ({| Name := "./etc/motd"; Typeflag := TypeReg; Linkname := "";
        Mode := 384; Uid := 1000; Gid := 1000 |}, "bye");
    ({| Name := "../escape"; Typeflag := TypeReg; Linkname := "";
        Mode := 420; Uid := 0; Gid := 0 |}, "x");
    ({| Name := "bin/"; Typeflag := TypeDir; Linkname := "";
        Mode := 493; Uid := 0; Gid := 0 |}, "") ].

Example extractImage_demo :
  fst (extractImage fs_ok demo_image None "/tmp/extract")
  = [ MkdirAll "/tmp/extract/etc" 493;
      MkdirAll "/tmp/extract/etc" 493;
      OpenFile "/tmp/extract/etc/hostname" 420;
      Copy "/tmp/extract/etc/hostname" "guest";
      MkdirAll "/tmp/extract/bin" 493;
      Remove "/tmp/extract/bin/sh";
      Symlink "/bin/busybox" "/tmp/extract/bin/sh" ].
Proof. vm_compute. reflexivity. Qed.

Lemma extractImage_creates_under_witness :
  List.Forall (creates_under "/tmp/extract")
    (fst (extractImage fs_ok demo_image None "/tmp/extract")).
Proof.
  apply (extractImage_creates_under fs_ok demo_image None "/tmp/extract").
  discriminate.
Defined.

Lemma extractImage_skips_dotdot_witness :
  extractImage fs_ok replacing_image None "/tmp/extract"
  = extractImage fs_ok (firstn 2 replacing_image ++ skipn 3 replacing_image)
      None "/tmp/extract".
Proof.
  apply (extractImage_skips_dotdot fs_ok (firstn 2 replacing_image)
           {| Name := "../escape"; Typeflag := TypeReg; Linkname := "";
              Mode := 420; Uid := 0; Gid := 0 |} "x"
           (skipn 3 replacing_image) None "/tmp/extract").
  vm_compute. reflexivity.
Defined.

(** C10 (the code at the failing input).  The hard-link entry
    [escaping_link] is not skipped, its cleaned name "passwd" holding no
    "..", and extractImage links "/etc/passwd", a path outside the
    destination directory, into it: [hdr.Linkname] is joined onto destDir
    without the check made on [hdr.Name]. *)
Theorem extractImage_hardlink_escapes :
  Strings.Contains (Clean (Name escaping_link)) ".." = false
  /\ fst (extractImage fs_ok [(escaping_link, "")] None "/tmp/matchlock-extract-1")
     = [ MkdirAll "/tmp/matchlock-extract-1" 493;
         Remove "/tmp/matchlock-extract-1/passwd";
         Link "/etc/passwd" "/tmp/matchlock-extract-1/passwd" ]
  /\ Strings.HasPrefix "/etc/passwd" "/tmp/matchlock-extract-1" = false.
Proof. vm_compute. repeat split; reflexivity. Qed.

(** A symlink entry named "." replaces the (still empty) destination
    directory itself by a link to "/"; the paths of the entries after it
    then resolve outside the directory extractImage was given. *)
Example extractImage_symlink_over_destDir :
  fst (extractImage fs_ok
         [ ({| Name := "."; Typeflag := TypeSymlink; Linkname := "/";
               Mode := 511; Uid := 0; Gid := 0 |}, "");
           ({| Name := "etc/cron.d/job"; Typeflag := TypeReg; Linkname := "";
               Mode := 420; Uid := 0; Gid := 0 |}, "* * * * * root sh") ]
         None "/tmp/matchlock-extract-1")
  = [ MkdirAll "/tmp" 493;
      Remove "/tmp/matchlock-extract-1";
      Symlink "/" "/tmp/matchlock-extract-1";
      MkdirAll "/tmp/matchlock-extract-1/etc/cron.d" 493;
      OpenFile "/tmp/matchlock-extract-1/etc/cron.d/job" 420;
      Copy "/tmp/matchlock-extract-1/etc/cron.d/job" "* * * * * root sh" ].
Proof. vm_compute. reflexivity. Qed.

(** ** More about extractImage: its metadata table, and when it fails *)

(** The entries extractImage acts on: those it does not skip for their
    name, of a type flag the switch has a case for. *)
Definition handled (hdr : Header) : bool :=
  negb (Strings.Contains (Clean (Name hdr)) "..")
  && match Typeflag hdr with
     | TypeOther _ => false
     | _ => true
     end.

(** The key and the record extractImage stores for an entry. *)
Definition relPath_of (hdr : Header) : string := "/" +:+ Clean (Name hdr).

Definition meta_of (hdr : Header) : fileMeta :=
  {| uid := Uid hdr; gid := Gid hdr; mode := Z.land (Mode hdr) 511 |}.

(** One record per handled entry, a later entry replacing an earlier one
    of the same cleaned name. *)
Definition meta_table (entries : list (Header * string))
    (meta : gmap string fileMeta) : gmap string fileMeta :=
  fold_left (fun acc e => if handled (fst e)
                          then <[relPath_of (fst e) := meta_of (fst e)]> acc
                          else acc)
            entries meta.

Lemma meta_table_cons hdr body entries meta :
  meta_table ((hdr, body) :: entries) meta
  = meta_table entries (if handled hdr
                        then <[relPath_of hdr := meta_of hdr]> meta
                        else meta).
Proof. reflexivity. Qed.

(** os.Remove is the one call whose error extractImage ignores. *)
Definition is_Remove (op : fs_op) : Prop := exists name, op = Remove name.

Section ExtractImageMore.

Variable fs : list fs_op -> fs_op -> option string.

(** Every call made went well, the ignored os.Remove apart: each call is
    judged against the calls made before it. *)
Fixpoint calls_ok (done calls : list fs_op) : Prop :=
  match calls with
  | [] => True
  | op :: rest =>
      (fs done op = None \/ is_Remove op) /\ calls_ok (done ++ [op]) rest
  end.

Lemma calls_ok_app done a : forall b done',
  done' = done ->
  calls_ok done' (a ++ b) <-> calls_ok done' a /\ calls_ok (done' ++ a) b.
Proof.
  revert done. induction a as [|op a IH]; intros done b done' ->.
  - cbn [app calls_ok]. rewrite app_nil_r. tauto.
  - cbn [app calls_ok]. rewrite (IH (done ++ [op]) b _ eq_refl).
    rewrite <- app_assoc. cbn [app]. tauto.
Qed.

(** The steps of an entry ignore exactly the errors of os.Remove. *)
Definition steps_wf (steps : list (fs_op * option string)) : Prop :=
  List.Forall (fun s => snd s = None <-> is_Remove (fst s)) steps.

Lemma entry_steps_wf destDir clean target hdr body steps :
  entry_steps destDir clean target hdr body = Some steps -> steps_wf steps.
Proof.
  unfold entry_steps, steps_wf, is_Remove. intros H.
  destruct (Typeflag hdr); inversion H; subst;
    repeat (apply List.Forall_cons || apply List.Forall_nil); cbn [fst snd];
    split; intros Hx; try discriminate Hx;
    try (destruct Hx; discriminate);
    try reflexivity; eexists; reflexivity.
Qed.

(** What [perform] adds to the calls made, and whether it went well. *)
Lemma perform_calls steps : forall done,
  steps_wf steps ->
  exists calls,
    fst (perform fs done steps) = done ++ calls
    /\ (snd (perform fs done steps) = None <-> calls_ok done calls).
Proof.
  induction steps as [|[op on_error] steps IH]; intros done Hwf.
  - exists []. cbn [perform fst snd calls_ok]. rewrite app_nil_r. tauto.
  - inversion Hwf as [|s ss Hop Hrest]; subst. cbn [fst snd] in Hop.
    cbn [perform].
    destruct (IH (done ++ [op]) Hrest) as (calls & Hcalls & Hok).
    destruct (fs done op) as [err|] eqn:Hfs; [destruct on_error as [what|]|].
    + exists [op]. cbn [fst snd calls_ok]. split; [reflexivity|].
      split; [discriminate|]. intros [[Hnone|Hrm] _]; [congruence|].
      apply Hop in Hrm. discriminate.
    + exists (op :: calls). rewrite Hcalls, <- app_assoc. split; [reflexivity|].
      cbn [calls_ok]. rewrite Hok.
      assert (is_Remove op) by (apply Hop; reflexivity). tauto.
    + exists (op :: calls). rewrite Hcalls, <- app_assoc. split; [reflexivity|].
      cbn [calls_ok]. rewrite Hok. rewrite Hfs. tauto.
Qed.

(** The loop over the entries: the calls it adds, and its result. *)
Lemma extract_entries_calls destDir readErr entries : forall done meta,
  exists calls,
    fst (extract_entries fs destDir entries readErr done meta) = done ++ calls
    /\ ((exists m, snd (extract_entries fs destDir entries readErr done meta) = inl m)
        <-> readErr = None /\ calls_ok done calls)
    /\ (forall m,
          snd (extract_entries fs destDir entries readErr done meta) = inl m ->
          m = meta_table entries meta).
Proof.
  induction entries as [|[hdr body] rest IH]; intros done meta.
  - exists []. cbn [extract_entries meta_table fold_left]. rewrite app_nil_r.
    destruct readErr as [err|]; cbn [fst snd calls_ok].
    + split; [reflexivity|]. split.
      * split; [intros [m Hm]; discriminate Hm|intros [Hn _]; discriminate Hn].
      * intros m Hm. discriminate Hm.
    + split; [reflexivity|]. split.
      * split; [tauto|]. intros _. eexists. reflexivity.
      * intros m Hm. injection Hm as <-. reflexivity.
  - cbn [extract_entries]. rewrite meta_table_cons.
    assert (Hh : handled hdr
                 = negb (Strings.Contains (Clean (Name hdr)) "..")
                   && match entry_steps destDir (Clean (Name hdr))
                              (Join destDir (Clean (Name hdr))) hdr body with
                      | Some _ => true
                      | None => false
                      end).
    { unfold handled, entry_steps. destruct (Typeflag hdr); reflexivity. }
    rewrite Hh.
    destruct (Strings.Contains (Clean (Name hdr)) "..") eqn:Hskip; cbn [negb andb].
    { apply IH. }
    destruct (entry_steps destDir (Clean (Name hdr))
                (Join destDir (Clean (Name hdr))) hdr body) as [steps|] eqn:Hsteps.
    2:{ apply IH. }
    destruct (perform_calls steps done (entry_steps_wf _ _ _ _ _ _ Hsteps))
      as (calls1 & Hcalls1 & Hok1).
    destruct (perform fs done steps) as [done1 [err|]] eqn:Hperform;
      cbn [fst snd] in Hcalls1, Hok1.
    + exists calls1. cbn [fst snd]. split; [exact Hcalls1|]. split.
      * split; [intros [m Hm]; discriminate Hm|].
        intros [_ Hok]. apply Hok1 in Hok. discriminate Hok.
      * intros m Hm. discriminate Hm.
    + destruct (IH done1 (<[relPath_of hdr := meta_of hdr]> meta))
        as (calls2 & Hcalls2 & Hok2 & Hmeta2).
      unfold relPath_of, meta_of in Hcalls2, Hok2.
      subst done1.
      exists (calls1 ++ calls2). rewrite Hcalls2, <- app_assoc.
      split; [reflexivity|]. split; [|exact Hmeta2].
      rewrite Hok2. rewrite (calls_ok_app done calls1 calls2 done eq_refl).
      assert (calls_ok done calls1) by (apply Hok1; reflexivity).
      tauto.
Qed.

(** X17.  extractImage returns a metadata table exactly when the tar stream
    ended with io.EOF and every file-system call it made went well, the
    os.Remove calls apart, whose errors it ignores. *)
Theorem extractImage_succeeds_iff (img : list (Header * string))
    (readErr : option string) (destDir : string) :
  (exists meta, snd (extractImage fs img readErr destDir) = inl meta)
  <-> readErr = None /\ calls_ok [] (fst (extractImage fs img readErr destDir)).
Proof.
  unfold extractImage.
  destruct (extract_entries_calls destDir readErr img [] ∅)
    as (calls & Hcalls & Hok & _).
  rewrite Hcalls. cbn [app]. exact Hok.
Qed.

Lemma meta_table_sound entries : forall meta k v,
  meta_table entries meta !! k = Some v ->
  meta !! k = Some v
  \/ exists hdr body, In (hdr, body) entries /\ handled hdr = true
       /\ k = relPath_of hdr /\ v = meta_of hdr.
Proof.
  induction entries as [|[hdr body] rest IH]; intros meta k v Hk;
    [left; exact Hk|].
  cbn [meta_table fold_left fst] in Hk. fold (meta_table rest) in Hk.
  destruct (handled hdr) eqn:Hh.
  - destruct (IH _ k v Hk) as [Hold|(h & b & Hin & Hhh & -> & ->)].
    + destruct (decide (relPath_of hdr = k)) as [<-|Hne].
      * rewrite lookup_insert_eq in Hold. injection Hold as <-.
        right. exists hdr, body. repeat split; [left; reflexivity|exact Hh].
      * rewrite lookup_insert_ne in Hold by exact Hne. left. exact Hold.
    + right. exists h, b. repeat split; [right; exact Hin|exact Hhh].
  - destruct (IH _ k v Hk) as [Hold|(h & b & Hin & Hhh & -> & ->)].
    + left. exact Hold.
    + right. exists h, b. repeat split; [right; exact Hin|exact Hhh].
Qed.

Lemma meta_table_keeps entries : forall meta k,
  is_Some (meta !! k) -> is_Some (meta_table entries meta !! k).
Proof.
  induction entries as [|[hdr body] rest IH]; intros meta k Hk; [exact Hk|].
  cbn [meta_table fold_left fst]. fold (meta_table rest).
  destruct (handled hdr); [|apply IH, Hk].
  apply IH. destruct (decide (relPath_of hdr = k)) as [<-|Hne].
  - rewrite lookup_insert_eq. eexists. reflexivity.
  - rewrite lookup_insert_ne by exact Hne. exact Hk.
Qed.

Lemma meta_table_complete entries : forall meta hdr body,
  In (hdr, body) entries -> handled hdr = true ->
  is_Some (meta_table entries meta !! relPath_of hdr).
Proof.
  induction entries as [|[h b] rest IH]; intros meta hdr body Hin Hh;
    [destruct Hin|].
  cbn [meta_table fold_left fst]. fold (meta_table rest).
  destruct Hin as [Heq|Hin].
  - injection Heq as -> ->. rewrite Hh. apply meta_table_keeps.
    rewrite lookup_insert_eq. eexists. reflexivity.
  - apply (IH _ hdr body Hin Hh).
Qed.

Lemma meta_table_last entries hdr body meta :
  handled hdr = true ->
  meta_table (entries ++ [(hdr, body)]) meta !! relPath_of hdr
  = Some (meta_of hdr).
Proof.
  intros Hh. unfold meta_table. rewrite fold_left_app. cbn [fold_left fst].
  rewrite Hh. apply lookup_insert_eq.
Qed.

Lemma meta_table_app a b meta :
  meta_table (a ++ b) meta = meta_table b (meta_table a meta).
Proof. unfold meta_table. apply fold_left_app. Qed.

(** Entries that are not acted on, or are stored under another key, leave
    the record of a key alone. *)
Lemma meta_table_other entries k : forall meta,
  (forall hdr body, In (hdr, body) entries -> handled hdr = true ->
     relPath_of hdr <> k) ->
  meta_table entries meta !! k = meta !! k.
Proof.
  induction entries as [|[h b] rest IH]; intros meta Hother; [reflexivity|].
  rewrite meta_table_cons, IH.
  - destruct (handled h) eqn:Hh; [|reflexivity].
    apply lookup_insert_ne. apply (Hother h b); [left; reflexivity|exact Hh].
  - intros hdr body Hin. apply (Hother hdr body). right. exact Hin.
Qed.

(** X18.  The metadata table extractImage returns holds exactly the
    entries it acted on, under "/" and their cleaned name: every record is
    the uid, gid and permission bits of such an entry, every such entry has
    a record, and the record of a name is that of the last entry acted on
    with that cleaned name, wherever it stands in the image. *)
Theorem extractImage_metadata (img : list (Header * string))
    (readErr : option string) (destDir : string) (meta : gmap string fileMeta) :
  snd (extractImage fs img readErr destDir) = inl meta ->
  (forall k v, meta !! k = Some v ->
     exists hdr body, In (hdr, body) img /\ handled hdr = true
       /\ k = relPath_of hdr /\ v = meta_of hdr)
  /\ (forall hdr body, In (hdr, body) img -> handled hdr = true ->
        is_Some (meta !! relPath_of hdr))
  /\ (forall before hdr body after,
        img = before ++ (hdr, body) :: after ->
        handled hdr = true ->
        (forall hdr' body', In (hdr', body') after -> handled hdr' = true ->
           relPath_of hdr' <> relPath_of hdr) ->
        meta !! relPath_of hdr = Some (meta_of hdr)).
Proof.
  intros Hm. unfold extractImage in Hm.
  destruct (extract_entries_calls destDir readErr img [] ∅)
    as (calls & _ & _ & Hmeta).
  rewrite (Hmeta meta Hm). split; [|split].
  - intros k v Hk. destruct (meta_table_sound _ _ _ _ Hk) as [He|Hs];
      [rewrite lookup_empty in He; discriminate|exact Hs].
  - intros hdr body. apply meta_table_complete.
  - intros before hdr body after -> Hh Hlater.
    change (before ++ (hdr, body) :: after)
      with (before ++ [(hdr, body)] ++ after).
    rewrite app_assoc, meta_table_app, (meta_table_other _ _ _ Hlater).
    apply meta_table_last, Hh.
Qed.

Lemma land_511_bounds z : (0 <= Z.land z 511 <= 511)%Z.
Proof.
  split.
  - apply Z.land_nonneg. right. lia.
  - change 511%Z with (Z.ones 9). rewrite Z.land_ones by lia.
    pose proof (Z.mod_pos_bound z (2 ^ 9) ltac:(lia)) as Hb.
    change (Z.ones 9) with (2 ^ 9 - 1)%Z. lia.
Qed.

(** The permission bits of a call: those of the mode it is given. *)
Definition perm_ok (op : fs_op) : Prop :=
  match op with
  | MkdirAll _ perm => perm = 493%Z
  | OpenFile _ perm => (0 <= perm <= 511)%Z
  | _ => True
  end.

Lemma extract_entries_perm_ok destDir readErr entries : forall done meta,
  List.Forall perm_ok done ->
  List.Forall perm_ok (fst (extract_entries fs destDir entries readErr done meta)).
Proof.
  induction entries as [|[hdr body] rest IH]; intros done meta Hdone.
  - cbn [extract_entries]. destruct readErr; exact Hdone.
  - cbn [extract_entries].
    destruct (Strings.Contains (Clean (Name hdr)) ".."); [apply IH, Hdone|].
    destruct (entry_steps _ _ _ hdr body) as [steps|] eqn:Hsteps;
      [|apply IH, Hdone].
    assert (Hsteps_ok : List.Forall (fun s => perm_ok (fst s)) steps).
    { unfold entry_steps in Hsteps.
      destruct (Typeflag hdr); inversion Hsteps; subst;
        repeat (apply List.Forall_cons || apply List.Forall_nil);
        cbn [fst perm_ok]; try reflexivity; try exact I; apply land_511_bounds. }
    pose proof (perform_Forall fs perm_ok steps done Hdone Hsteps_ok) as Hp.
    destruct (perform fs done steps) as [done1 [err|]]; [exact Hp|].
    apply IH. exact Hp.
Qed.

(** X19.  Whatever mode a tar header carries, extractImage creates
    directories with mode 0755 and files with permission bits within
    0..0777, and every record of the metadata table has a mode within
    0..0777: the file type and the setuid, setgid and sticky bits of the
    header are dropped. *)
Theorem extractImage_permission_bits (img : list (Header * string))
    (readErr : option string) (destDir : string) :
  List.Forall perm_ok (fst (extractImage fs img readErr destDir))
  /\ (forall meta k v,
        snd (extractImage fs img readErr destDir) = inl meta ->
        meta !! k = Some v -> (0 <= mode v <= 511)%Z).
Proof.
  split.
  - unfold extractImage. apply extract_entries_perm_ok. constructor.
  - intros meta k v Hm Hk. unfold extractImage in Hm.
    destruct (extract_entries_calls destDir readErr img [] ∅)
      as (calls & _ & _ & Hmeta).
    rewrite (Hmeta meta Hm) in Hk.
    destruct (meta_table_sound _ _ _ _ Hk) as [He|(h & b & _ & _ & _ & ->)];
      [rewrite lookup_empty in He; discriminate|].
    cbn [meta_of mode]. apply land_511_bounds.
Qed.

End ExtractImageMore.

(** The records of [demo_image]. *)
Example extractImage_demo_metadata :
  snd (extractImage fs_ok demo_image None "/tmp/extract")
  = inl (meta_table demo_image ∅).
Proof. vm_compute. reflexivity. Qed.

(** The records of [replacing_image]. *)
Example extractImage_replacing_metadata :
  snd (extractImage fs_ok replacing_image None "/tmp/extract")
  = inl (meta_table replacing_image ∅).
Proof. vm_compute. reflexivity. Qed.

Lemma extractImage_metadata_witness :
  meta_table replacing_image ∅ !! "/etc/motd"
  = Some {| uid := 1000; gid := 1000; mode := 384 |}.
Proof.
  refine (proj2 (proj2 (extractImage_metadata fs_ok replacing_image None
    "/tmp/extract" (meta_table replacing_image ∅) extractImage_replacing_metadata))
    (firstn 1 replacing_image)
    {| Name := "./etc/motd"; Typeflag := TypeReg; Linkname := "";
       Mode := 384; Uid := 1000; Gid := 1000 |} "bye"
    (skipn 2 replacing_image) eq_refl eq_refl _).
  intros hdr' body' Hin Hh.
  destruct Hin as [Heq|[Heq|[]]]; injection Heq as <- <-;
    [discriminate Hh|vm_compute; discriminate].
Defined.

(** ** sanitizeRef: the cache directory of an image reference *)

(** [strings.ReplaceAll(s, old, new)] where [old] and [new] are one byte
    each, as in both calls of sanitizeRef. *)
Fixpoint ReplaceAll (s : string) (old new : ascii) : string :=
  match s with
  | EmptyString => EmptyString
  | String c rest =>
      String (if Ascii.eqb c old then new else c) (ReplaceAll rest old new)
  end.

Definition sanitizeRef (ref : string) : string :=
  let ref := ReplaceAll ref "/" "_" in
  let ref := ReplaceAll ref ":" "_" in
  ref.

(** The directory Build keeps the root file systems of [imageRef] in. *)
Definition image_cache_dir (cacheDir imageRef : string) : string :=
  Join cacheDir (sanitizeRef imageRef).

Example sanitizeRef_examples :
  map sanitizeRef ["alpine:latest"; "ghcr.io/acme/tool:1.2"; "a_b"; ".."]
  = ["alpine_latest"; "ghcr.io_acme_tool_1.2"; "a_b"; ".."].
Proof. reflexivity. Qed.

(** [byte] occurs in [s]. *)
Fixpoint has_byte (byte : ascii) (s : string) : bool :=
  match s with
  | EmptyString => false
  | String c rest => Ascii.eqb c byte || has_byte byte rest
  end.

(** What sanitizeRef does to one byte. *)
Definition sanitize_byte (c : ascii) : ascii :=
  if Ascii.eqb c "/" || Ascii.eqb c ":" then "_"%char else c.

Lemma sanitizeRef_String c rest :
  sanitizeRef (String c rest) = String (sanitize_byte c) (sanitizeRef rest).
Proof.
  unfold sanitizeRef, sanitize_byte. cbn [ReplaceAll]. f_equal.
  destruct (Ascii.eqb_spec c "/") as [->|H1]; [reflexivity|].
  cbn [orb]. reflexivity.
Qed.

Lemma sanitizeRef_app a b :
  sanitizeRef (a +:+ b) = sanitizeRef a +:+ sanitizeRef b.
Proof.
  induction a as [|c a IH]; [reflexivity|].
  change (String c a +:+ b) with (String c (a +:+ b)).
  rewrite !sanitizeRef_String, IH. reflexivity.
Qed.

Lemma sanitize_byte_clean c :
  Ascii.eqb (sanitize_byte c) "/" = false
  /\ Ascii.eqb (sanitize_byte c) ":" = false.
Proof.
  unfold sanitize_byte.
  destruct (Ascii.eqb_spec c "/") as [->|H1]; [split; reflexivity|].
  destruct (Ascii.eqb_spec c ":") as [->|H2]; [split; reflexivity|].
  cbn [orb]. split; apply Ascii.eqb_neq; assumption.
Qed.

Lemma sanitizeRef_has_separator ref : has_separator (sanitizeRef ref) = false.
Proof.
  induction ref as [|c ref IH]; [reflexivity|].
  rewrite sanitizeRef_String. cbn [has_separator]. rewrite IH.
  unfold Separator. rewrite (proj1 (sanitize_byte_clean c)). reflexivity.
Qed.

Lemma sanitize_byte_dot c : sanitize_byte c = "."%char -> c = "."%char.
Proof.
  unfold sanitize_byte.
  destruct (Ascii.eqb c "/" || Ascii.eqb c ":"); [discriminate|auto].
Qed.

(** The names Clean drops or climbs by come from themselves only. *)
Lemma sanitizeRef_special ref :
  (sanitizeRef ref = "" -> ref = "")
  /\ (sanitizeRef ref = "." -> ref = ".")
  /\ (sanitizeRef ref = ".." -> ref = "..").
Proof.
  destruct ref as [|c1 [|c2 [|c3 r]]]; rewrite ?sanitizeRef_String;
    change (sanitizeRef "") with "";
    repeat split; intros H; try discriminate H; try reflexivity;
    repeat match goal with
           | H : String _ _ = String _ _ |- _ => injection H; clear H; intros
           | H : String _ _ = EmptyString |- _ => discriminate H
           | H : sanitize_byte _ = _ |- _ => apply sanitize_byte_dot in H; subst
           end; reflexivity.
Qed.

(** A name without separator is one path element. *)
Lemma split_no_separator s : has_separator s = false -> split s = [s].
Proof.
  induction s as [|c s IH]; [reflexivity|].
  cbn [has_separator split]. intros H. apply orb_false_iff in H.
  destruct H as [Hc Hs]. rewrite Hc, (IH Hs). reflexivity.
Qed.

(** Joining one real path element onto a directory appends it. *)
Lemma Join_real_elem dir e :
  dir <> "" -> real_elem e = true ->
  Join dir e = render (rooted dir) (path_elems dir ++ [e]).
Proof.
  intros Hdir He. unfold real_elem in He.
  apply andb_true_iff in He. destruct He as [He Hsep].
  apply andb_true_iff in He. destruct He as [Hskip Hdd].
  apply negb_true_iff in Hsep, Hskip, Hdd.
  unfold Join. apply String.eqb_neq in Hdir. rewrite Hdir. cbn [negb].
  apply String.eqb_neq in Hdir. unfold Clean.
  destruct (String.eqb (dir +:+ "/" +:+ e) "") eqn:Hempty.
  { apply String.eqb_eq in Hempty. destruct dir; [congruence|discriminate]. }
  rewrite rooted_app by exact Hdir. f_equal.
  unfold path_elems. rewrite rooted_app by exact Hdir.
  change ("/" +:+ e) with (String Separator e).
  rewrite split_app, fold_left_app, (split_no_separator e Hsep).
  destruct (fold_left (clean_step (rooted dir)) (split dir) ([], 0)) as [out d].
  cbn [fold_left clean_step]. rewrite Hskip, Hdd. reflexivity.
Qed.

(** X20.  The cache directory of an image reference is a direct child of
    the builder's cache directory, named by the sanitized reference:
    whatever separators, colons or ".." the reference holds, unless it is
    empty, "." or ".." itself, the sanitized reference is one real path
    element and Join appends it to the cleaned cache directory. *)
Theorem image_cache_dir_direct_child (cacheDir imageRef : string) :
  cacheDir <> "" ->
  imageRef <> "" -> imageRef <> "." -> imageRef <> ".." ->
  real_elem (sanitizeRef imageRef) = true
  /\ image_cache_dir cacheDir imageRef
     = render (rooted cacheDir) (path_elems cacheDir ++ [sanitizeRef imageRef])
  /\ under cacheDir (image_cache_dir cacheDir imageRef).
Proof.
  intros Hdir H0 H1 H2.
  destruct (sanitizeRef_special imageRef) as (S0 & S1 & S2).
  assert (Hreal : real_elem (sanitizeRef imageRef) = true).
  { unfold real_elem. rewrite sanitizeRef_has_separator.
    destruct (String.eqb_spec (sanitizeRef imageRef) "") as [E|_]; [tauto|].
    destruct (String.eqb_spec (sanitizeRef imageRef) ".") as [E|_]; [tauto|].
    destruct (String.eqb_spec (sanitizeRef imageRef) "..") as [E|_]; [tauto|].
    reflexivity. }
  assert (Hjoin := Join_real_elem cacheDir _ Hdir Hreal).
  split; [exact Hreal|]. split; [exact Hjoin|].
  exists [sanitizeRef imageRef]. split; [|exact Hjoin].
  cbn [forallb]. rewrite Hreal. reflexivity.
Qed.

Lemma image_cache_dir_direct_child_witness :
  image_cache_dir "/var/cache/images" "ghcr.io/acme/../tool:1.2"
  = "/var/cache/images/ghcr.io_acme_.._tool_1.2".
Proof.
  refine (eq_trans (proj1 (proj2 (image_cache_dir_direct_child
    "/var/cache/images" "ghcr.io/acme/../tool:1.2" _ _ _ _))) _);
    try discriminate.
  vm_compute. reflexivity.
Defined.

Lemma length_sanitizeRef ref : String.length (sanitizeRef ref) = String.length ref.
Proof.
  induction ref as [|c ref IH]; [reflexivity|].
  rewrite sanitizeRef_String. cbn [String.length]. rewrite IH. reflexivity.
Qed.

Lemma sanitizeRef_no_byte ref :
  has_byte "/" (sanitizeRef ref) = false /\ has_byte ":" (sanitizeRef ref) = false.
Proof.
  induction ref as [|c ref [IH1 IH2]]; [split; reflexivity|].
  rewrite sanitizeRef_String. cbn [has_byte]. rewrite IH1, IH2.
  destruct (sanitize_byte_clean c) as [-> ->]. split; reflexivity.
Qed.

(** X21.  sanitizeRef keeps the length of a reference, leaves no "/" and
    no ":" in it, and does not tell "/", ":" and "_" apart: references that
    differ only in which of the three stands at a place are sanitized to
    the same name, so they share one cache directory. *)
Theorem sanitizeRef_merges_separators :
  (forall ref,
      String.length (sanitizeRef ref) = String.length ref
      /\ has_byte "/" (sanitizeRef ref) = false
      /\ has_byte ":" (sanitizeRef ref) = false)
  /\ (forall cacheDir a b,
        image_cache_dir cacheDir (a +:+ "/" +:+ b)
        = image_cache_dir cacheDir (a +:+ "_" +:+ b)
        /\ image_cache_dir cacheDir (a +:+ ":" +:+ b)
           = image_cache_dir cacheDir (a +:+ "_" +:+ b)).
Proof.
  split.
  - intros ref. split; [apply length_sanitizeRef|apply sanitizeRef_no_byte].
  - intros cacheDir a b. unfold image_cache_dir.
    rewrite !sanitizeRef_app. split; reflexivity.
Qed.

(** ** extractOCIConfig: the image configuration kept with a root file system *)

(** [strings.Cut(s, sep)] for a one-byte separator: the text before and
    after its first occurrence, and whether it occurs. *)
Fixpoint Cut (s : string) (sep : ascii) : string * string * bool :=
  match s with
  | EmptyString => (EmptyString, EmptyString, false)
  | String c rest =>
      if Ascii.eqb c sep then (EmptyString, rest, true)
      else let '(before, after, found) := Cut rest sep in
           (String c before, after, found)
  end.

Example Cut_examples :
  map (fun s => Cut s "=") ["PATH=/bin:/usr/bin"; "A=b=c"; "=x"; "HOME"; "EMPTY="]
  = [("PATH", "/bin:/usr/bin", true); ("A", "b=c", true); ("", "x", true);
     ("HOME", "", false); ("EMPTY", "", true)].
Proof. reflexivity. Qed.

(** v1.Config and v1.ConfigFile, as far as extractOCIConfig reads them. *)
Record v1_Config : Type := {
  cfg_User : string;
  cfg_WorkingDir : string;
  cfg_Entrypoint : list string;
  cfg_Cmd : list string;
  cfg_Env : list string
}.

Record v1_ConfigFile : Type := { cf_Config : v1_Config }.

(** [Env] is [None] for the nil map. *)
Record OCIConfig : Type := {
  User : string;
  WorkingDir : string;
  Entrypoint : list string;
  Cmd : list string;
  Env : option (gmap string string)
}.

(** The loop over [c.Env]. *)
Definition env_map (env : list string) (m : gmap string string)
  : gmap string string :=
  fold_left (fun m e => let '(k, v, ok) := Cut e "=" in
                        if ok then <[k := v]> m else m)
            env m.

(** extractOCIConfig, on what [img.ConfigFile()] returns. *)
Definition extractOCIConfig (configFile : option v1_ConfigFile * option string)
  : option OCIConfig :=
  match configFile with
  | (_, Some _) | (None, _) => None
  | (Some cf, None) =>
      let c := cf_Config cf in
      Some {| User := cfg_User c;
              WorkingDir := cfg_WorkingDir c;
              Entrypoint := cfg_Entrypoint c;
              Cmd := cfg_Cmd c;
              Env := if Nat.ltb 0 (length (cfg_Env c))
                     then Some (env_map (cfg_Env c) ∅)
                     else None |}
  end.

(** Cut finds the first separator: what it returns spells the string. *)
Lemma Cut_found s sep k v :
  Cut s sep = (k, v, true) <->
  s = k +:+ String sep v /\ has_byte sep k = false.
Proof.
  revert k. induction s as [|c s IH]; intros k; cbn [Cut].
  - split; [discriminate|]. intros [H _]. destruct k; discriminate H.
  - destruct (Ascii.eqb_spec c sep) as [->|Hc].
    + split.
      * intros H. injection H as <- <-. split; reflexivity.
      * intros [H Hk]. destruct k as [|c' k]; simpl in H;
          [injection H as ->; reflexivity|].
        injection H as <- _. cbn [has_byte] in Hk.
        rewrite Ascii.eqb_refl in Hk. discriminate Hk.
    + destruct (Cut s sep) as [[before after] found] eqn:Hcut. split.
      * intros H. injection H as <- <- ->.
        destruct (proj1 (IH before) eq_refl) as [-> Hb].
        split; [reflexivity|]. cbn [has_byte]. rewrite Hb.
        apply Ascii.eqb_neq in Hc. rewrite Hc. reflexivity.
      * intros [H Hk]. destruct k as [|c' k]; simpl in H.
        { injection H as -> _. congruence. }
        injection H as <- ->. cbn [has_byte] in Hk.
        apply orb_false_iff in Hk. destruct Hk as [_ Hk].
        pose proof (proj2 (IH k) (conj eq_refl Hk)) as Hcut'.
        injection Hcut' as -> -> ->. reflexivity.
Qed.

Lemma env_map_app env1 env2 m :
  env_map (env1 ++ env2) m = env_map env2 (env_map env1 m).
Proof. unfold env_map. apply fold_left_app. Qed.

(** The keys of the map hold no "=". *)
Lemma env_map_sound env : forall m k v,
  env_map env m !! k = Some v ->
  m !! k = Some v
  \/ (has_byte "=" k = false /\ In (k +:+ "=" +:+ v) env).
Proof.
  induction env as [|e env IH]; intros m k v Hk; [left; exact Hk|].
  unfold env_map in Hk. cbn [fold_left] in Hk. fold (env_map env) in Hk.
  destruct (Cut e "=") as [[k0 v0] ok] eqn:Hcut.
  destruct (IH _ k v Hk) as [Hold|[Hb Hin]].
  - destruct ok; [|left; exact Hold].
    destruct (decide (k0 = k)) as [->|Hne].
    + rewrite lookup_insert_eq in Hold. injection Hold as ->.
      apply Cut_found in Hcut. destruct Hcut as [-> Hb].
      right. split; [exact Hb|left; reflexivity].
    + rewrite lookup_insert_ne in Hold by exact Hne. left. exact Hold.
  - right. split; [exact Hb|right; exact Hin].
Qed.

Lemma HasPrefix_assignment k v : Strings.HasPrefix (k +:+ String "=" v) (k +:+ "=") = true.
Proof.
  induction k as [|c k IH].
  - apply Strings.HasPrefix_cons, Strings.HasPrefix_nil.
  - apply Strings.HasPrefix_cons, IH.
Qed.

(** Entries that do not assign [k] leave its value alone. *)
Lemma env_map_other env k : forall m,
  List.Forall (fun e => Strings.HasPrefix e (k +:+ "=") = false) env ->
  has_byte "=" k = false ->
  env_map env m !! k = m !! k.
Proof.
  induction env as [|e env IH]; intros m Hall Hk; [reflexivity|].
  inversion Hall as [|e' env' He Hrest]; subst.
  unfold env_map. cbn [fold_left]. fold (env_map env).
  destruct (Cut e "=") as [[k0 v0] ok] eqn:Hcut.
  rewrite (IH _ Hrest Hk). destruct ok; [|reflexivity].
  apply lookup_insert_ne. intros ->.
  apply Cut_found in Hcut. destruct Hcut as [-> _].
  rewrite HasPrefix_assignment in He. discriminate He.
Qed.

Lemma env_map_assigns k v m :
  has_byte "=" k = false ->
  env_map [k +:+ "=" +:+ v] m = <[k := v]> m.
Proof.
  intros Hk. unfold env_map. cbn [fold_left].
  rewrite (proj2 (Cut_found (k +:+ "=" +:+ v) "=" k v) (conj eq_refl Hk)).
  reflexivity.
Qed.

(** X22.  The environment extractOCIConfig keeps.  Without a usable
    configuration file it returns nil.  Otherwise user, working directory,
    entry point and command are copied, and the environment is read off the
    [KEY=value] entries: the key is the text before the first "=", so no key
    holds one and a value may; every key of the map comes from an entry;
    entries without "=" are dropped; and the last entry for a key
    decides its value. *)
Theorem extractOCIConfig_env (cf : v1_ConfigFile) (oci : OCIConfig) :
  extractOCIConfig (Some cf, None) = Some oci ->
  (User oci, WorkingDir oci, Entrypoint oci, Cmd oci)
  = (cfg_User (cf_Config cf), cfg_WorkingDir (cf_Config cf),
     cfg_Entrypoint (cf_Config cf), cfg_Cmd (cf_Config cf))
  /\ (Env oci = None <-> cfg_Env (cf_Config cf) = [])
  /\ (forall env k v,
        Env oci = Some env -> env !! k = Some v ->
        has_byte "=" k = false /\ In (k +:+ "=" +:+ v) (cfg_Env (cf_Config cf)))
  /\ (forall env before k v after,
        Env oci = Some env ->
        cfg_Env (cf_Config cf) = before ++ (k +:+ "=" +:+ v) :: after ->
        has_byte "=" k = false ->
        List.Forall (fun e => Strings.HasPrefix e (k +:+ "=") = false) after ->
        env !! k = Some v).
Proof.
  unfold extractOCIConfig. intros H. injection H as <-.
  cbn [User WorkingDir Entrypoint Cmd Env].
  set (c := cf_Config cf).
  assert (Hsome : forall env,
            (if Nat.ltb 0 (length (cfg_Env c))
             then Some (env_map (cfg_Env c) ∅) else None) = Some env ->
            env = env_map (cfg_Env c) ∅).
  { intros env. destruct (Nat.ltb 0 (length (cfg_Env c))); intros He;
      [injection He as <-; reflexivity|discriminate He]. }
  split; [reflexivity|]. split; [|split].
  - destruct (cfg_Env c); cbn [length Nat.ltb Nat.leb]; split;
      try discriminate; reflexivity.
  - intros env k v He Hk. apply Hsome in He. subst env.
    destruct (env_map_sound _ _ _ _ Hk) as [He|Hs]; [|exact Hs].
    rewrite lookup_empty in He. discriminate He.
  - intros env before k v after He Hsplit Hk Hafter. apply Hsome in He.
    subst env. rewrite Hsplit.
    change (before ++ (k +:+ "=" +:+ v) :: after)
      with (before ++ [k +:+ "=" +:+ v] ++ after).
    rewrite !env_map_app, (env_map_other _ _ _ Hafter Hk).
    rewrite (env_map_assigns _ _ _ Hk). apply lookup_insert_eq.
Qed.

(** Nil without a configuration file, whatever else comes with the error. *)
Example extractOCIConfig_nil cf :
  extractOCIConfig (cf, Some "manifest unknown") = None
  /\ extractOCIConfig (None, None) = None.
Proof. destruct cf; split; reflexivity. Qed.

Definition demo_config_file : v1_ConfigFile :=
  {| cf_Config :=
       {| cfg_User := "1000"; cfg_WorkingDir := "/app";
          cfg_Entrypoint := ["/bin/tool"]; cfg_Cmd := ["serve"];
          cfg_Env := ["PATH=/bin"; "NOISE"; "OPTS=a=b"; "PATH=/usr/bin:/bin"] |} |}.

Lemma extractOCIConfig_env_witness :
  env_map (cfg_Env (cf_Config demo_config_file)) ∅ !! "PATH"
  = Some "/usr/bin:/bin".
Proof.
  refine (proj2 (proj2 (proj2 (extractOCIConfig_env demo_config_file _ eq_refl)))
    _ ["PATH=/bin"; "NOISE"; "OPTS=a=b"] "PATH" "/usr/bin:/bin" [] eq_refl eq_refl
    eq_refl _).
  constructor.
Defined.

(** ** Builder.Build *)

(** v1.Hash, and the image as Build reads it: its digest, its
    configuration file, and the tar stream [mutate.Extract] flattens it
    to. *)
Record Hash : Type := {
  Algorithm : string;
  Hex : string
}.

Definition Hash_String (h : Hash) : string := Algorithm h +:+ ":" +:+ Hex h.

Record v1_Image : Type := {
  img_Digest : Hash + string;
  img_ConfigFile : option v1_ConfigFile * option string;
  img_entries : list (Header * string);
  img_readErr : option string
}.

Record BuildResult : Type := {
  RootfsPath : string;
  Digest : string;
  Size : Z;
  Cached : bool;
  OCI : option OCIConfig
}.

Record ImageMeta : Type := {
  meta_Tag : string;
  meta_Digest : string;
  meta_Size : Z;
  meta_CreatedAt : Z;
  meta_Source : string;
  meta_OCI : option OCIConfig
}.

Record Builder : Type := {
  cacheDir : string;
  forcePull : bool
}.

(** filepath.Ext: the suffix from the last dot of the last element.  The
    scan from the right ends at that dot or at a separator; [None] while
    neither has been met. *)
Fixpoint ext_scan (path : string) : option string :=
  match path with
  | EmptyString => None
  | String c rest =>
      match ext_scan rest with
      | Some e => Some e
      | None =>
          if Ascii.eqb c "." then Some path
          else if Ascii.eqb c Separator then Some EmptyString
          else None
      end
  end.

Definition Ext (path : string) : string :=
  match ext_scan path with
  | Some e => e
  | None => EmptyString
  end.

(** strings.HasSuffix and strings.TrimSuffix. *)
Definition HasSuffix (s suffix : string) : bool :=
  Nat.leb (String.length suffix) (String.length s)
  && String.eqb (String.substring (String.length s - String.length suffix)
                   (String.length suffix) s) suffix.

Definition TrimSuffix (s suffix : string) : string :=
  if HasSuffix s suffix
  then String.substring 0 (String.length s - String.length suffix) s
  else s.

Example Ext_examples :
  map Ext ["0123456789ab.ext4"; "metadata.json"; "a.b/c"; "x.tar.gz"; "ext4"; ""]
  = [".ext4"; ".json"; ""; ".gz"; ""; ""]
  /\ TrimSuffix "0123456789ab.ext4" ".ext4" = "0123456789ab"
  /\ TrimSuffix "metadata.json" ".ext4" = "metadata.json".
Proof. repeat split; reflexivity. Qed.

(** What Build asks of the outside, in order. *)
Inductive call : Type :=
| StoreGet (imageRef : string)
| ParseReference (imageRef : string)
| ReadDir (dir : string)
| Stat (path : string)
| ReadFile (path : string)
| RemoteImage (imageRef : string)
| MkdirCache (path : string) (perm : Z)
| MkdirTemp (pattern : string)
| Extract (op : fs_op)
| CreateExt4 (srcDir dst : string) (metas : gmap string fileMeta)
| OsRemove (path : string)
| WriteFile (path data : string) (perm : Z)
| RemoveAll (path : string).

(** The answers; [os.Stat] is asked at three places, before and after the
    file is made, so each place has its own answer (the size, or [None]
    for an error). *)
Record BuildWorld : Type := {
  store_Get : string -> option BuildResult;
  name_ParseReference : string -> option string;
  os_ReadDir : string -> option (list string);
  stat_cached : string -> option Z;
  os_ReadFile : string -> option string;
  json_Unmarshal : string -> option ImageMeta;
  remote_Image : string -> v1_Image + string;
  os_MkdirAll : string -> option string;
  stat_existing : string -> option Z;
  os_MkdirTemp : string -> string + string;
  extract_fs : list fs_op -> fs_op -> option string;
  createExt4 : string -> string -> gmap string fileMeta -> option string;
  stat_built : string -> option Z;
  time_Now : Z;
  json_MarshalIndent : ImageMeta -> option string
}.

(** How Build leaves off: it goes on, returns a result or an error, or
    panics (a nil [os.FileInfo], a digest shorter than twelve bytes). *)
Inductive flow (A : Type) : Type :=
| Go (a : A)
| Done (r : BuildResult + string)
| Panicked.
Arguments Go {A} a.
Arguments Done {A} r.
Arguments Panicked {A}.

Definition Run (A : Type) : Type := list call * flow A.

Definition andThen {A C} (m : Run A) (k : A -> Run C) : Run C :=
  match m with
  | (t, Go a) => let '(t', c) := k a in (t ++ t', c)
  | (t, Done r) => (t, Done r)
  | (t, Panicked) => (t, Panicked)
  end.

Definition ask (c : call) : Run unit := ([c], Go tt).
Definition returns {A} (r : BuildResult + string) : Run A := ([], Done r).

Definition deferred {A} (calls : list call) (body : Run A) : Run A :=
  match body with
  | (t, Done r) => (t ++ calls, Done r)
  | (t, Panicked) => (t ++ calls, Panicked)
  | other => other
  end.

Declare Scope image_scope.
Delimit Scope image_scope with image.
Notation "m ;;; k" := (andThen m (fun _ => k))
  (at level 100, right associativity) : image_scope.
Local Open Scope image_scope.

Section Build.

Variable w : BuildWorld.
Variable b : Builder.

(** The loop over the cache directory: the first entry with the
    extension [.ext4] is the cached root file system. *)
Fixpoint cached_rootfs (cacheDir : string) (entries : list string) : Run unit :=
  match entries with
  | [] => ([], Go tt)
  | name :: rest =>
      if String.eqb (Ext name) ".ext4" then
        let rootfsPath := Join cacheDir name in
        ask (Stat rootfsPath) ;;;
        match stat_cached w rootfsPath with
        | None => ([], Panicked)
        | Some size =>
            let result :=
              {| RootfsPath := rootfsPath;
                 Digest := TrimSuffix name ".ext4";
                 Size := size;
                 Cached := true;
                 OCI := None |} in
            ask (ReadFile (Join cacheDir "metadata.json")) ;;;
            match os_ReadFile w (Join cacheDir "metadata.json") with
            | Some metaBytes =>
                match json_Unmarshal w metaBytes with
                | Some meta =>
                    returns (inl {| RootfsPath := RootfsPath result;
                                    Digest := Digest result;
                                    Size := Size result;
                                    Cached := Cached result;
                                    OCI := meta_OCI meta |})
                | None => returns (inl result)
                end
            | None => returns (inl result)
            end
        end
      else cached_rootfs cacheDir rest
  end.

(** Builder.Build.  The options of the pull (key chain, context,
    platform) are part of the registry's answer. *)
Definition Build (imageRef : string) : Run unit :=
  (if negb (forcePull b) then
     ask (StoreGet imageRef) ;;;
     match store_Get w imageRef with
     | Some result => returns (inl result)
     | None => ([], Go tt)
     end
   else ([], Go tt)) ;;;
  ask (ParseReference imageRef) ;;;
  match name_ParseReference w imageRef with
  | Some err => returns (inr ("parse image reference: " +:+ err))
  | None =>
  let cacheDir := Join (cacheDir b) (sanitizeRef imageRef) in
  (if negb (forcePull b) then
     ask (ReadDir cacheDir) ;;;
     match os_ReadDir w cacheDir with
     | Some entries => cached_rootfs cacheDir entries
     | None => ([], Go tt)
     end
   else ([], Go tt)) ;;;
  ask (RemoteImage imageRef) ;;;
  match remote_Image w imageRef with
  | inr err => returns (inr ("pull image: " +:+ err))
  | inl img =>
  match img_Digest img with
  | inr err => returns (inr ("get image digest: " +:+ err))
  | inl digest =>
  if Nat.ltb (String.length (Hex digest)) 12 then ([], Panicked) else
  let rootfsPath := Join cacheDir (String.substring 0 12 (Hex digest) +:+ ".ext4") in
  ask (MkdirCache (Dir rootfsPath) 493) ;;;
  match os_MkdirAll w (Dir rootfsPath) with
  | Some err => returns (inr ("create cache dir: " +:+ err))
  | None =>
  ask (Stat rootfsPath) ;;;
  match stat_existing w rootfsPath with
  | Some size =>
      if Z.ltb 0 size then
        returns (inl {| RootfsPath := rootfsPath;
                        Digest := Hash_String digest;
                        Size := size;
                        Cached := true;
                        OCI := extractOCIConfig (img_ConfigFile img) |})
      else ([], Go tt)
  | None => ([], Go tt)
  end ;;;
  ask (MkdirTemp "matchlock-extract-*") ;;;
  match os_MkdirTemp w "matchlock-extract-*" with
  | inr err => returns (inr ("create temp dir: " +:+ err))
  | inl extractDir =>
  deferred [RemoveAll extractDir] (
    let '(ops, extracted) :=
      extractImage (extract_fs w) (img_entries img) (img_readErr img) extractDir in
    (map Extract ops, Go tt) ;;;
    match extracted with
    | inr err => returns (inr ("extract image: " +:+ err))
    | inl fileMetas =>
    ask (CreateExt4 extractDir rootfsPath fileMetas) ;;;
    match createExt4 w extractDir rootfsPath fileMetas with
    | Some err =>
        ask (OsRemove rootfsPath) ;;;
        returns (inr ("create ext4: " +:+ err))
    | None =>
    let ociConfig := extractOCIConfig (img_ConfigFile img) in
    ask (Stat rootfsPath) ;;;
    match stat_built w rootfsPath with
    | None => ([], Panicked)
    | Some size =>
    let imageMeta :=
      {| meta_Tag := imageRef;
         meta_Digest := Hash_String digest;
         meta_Size := size;
         meta_CreatedAt := time_Now w;
         meta_Source := "registry";
         meta_OCI := ociConfig |} in
    match json_MarshalIndent w imageMeta with
    | Some metaBytes =>
        ask (WriteFile (Join cacheDir "metadata.json") metaBytes 420)
    | None => ([], Go tt)
    end ;;;
    returns (inl {| RootfsPath := rootfsPath;
                    Digest := Hash_String digest;
                    Size := size;
                    Cached := false;
                    OCI := ociConfig |})
    end end end)
  end end end end end.

End Build.

(** ** What Build returns, and what it leaves behind *)

Lemma Ext_ext4 name : Ext (name +:+ ".ext4") = ".ext4".
Proof.
  unfold Ext.
  assert (H : ext_scan (name +:+ ".ext4") = Some ".ext4").
  { induction name as [|c name IH]; [reflexivity|].
    change (String c name +:+ ".ext4") with (String c (name +:+ ".ext4")).
    cbn [ext_scan]. rewrite IH. reflexivity. }
  rewrite H. reflexivity.
Qed.

(** Neither [os.ReadDir] nor a digest is asked for a path: only a stat
    and a read of the metadata. *)
Definition cache_lookup (c : call) : Prop :=
  match c with
  | Stat _ | ReadFile _ => True
  | _ => False
  end.

Lemma cached_rootfs_spec (w : BuildWorld) (dir : string) (entries : list string) :
  List.Forall cache_lookup (fst (cached_rootfs w dir entries))
  /\ match snd (cached_rootfs w dir entries) with
     | Done (inr _) => False
     | Done (inl r) =>
         exists name,
           In name entries /\ Ext name = ".ext4"
           /\ RootfsPath r = Join dir name
           /\ Digest r = TrimSuffix name ".ext4"
           /\ Cached r = true
     | _ => True
     end.
Proof.
  induction entries as [|name rest [IHt IHr]]; [split; [constructor|exact I]|].
  cbn [cached_rootfs].
  destruct (String.eqb_spec (Ext name) ".ext4") as [Hext|_].
  - unfold andThen, ask, returns.
    destruct (stat_cached w (Join dir name)) as [size|];
      [|split; [repeat constructor|exact I]].
    destruct (os_ReadFile w (Join dir "metadata.json")) as [metaBytes|];
      [destruct (json_Unmarshal w metaBytes) as [meta|]|];
      cbn [fst snd app]; (split; [repeat constructor|]);
      exists name; cbn [RootfsPath Digest Cached];
      repeat split; solve [left; reflexivity | exact Hext].
  - split; [exact IHt|].
    destruct (snd (cached_rootfs w dir rest)) as [[]|[r|err]|]; try exact I;
      [|destruct IHr].
    destruct IHr as (n & Hin & Hrest). exists n. split; [right; exact Hin|exact Hrest].
Qed.

Ltac split_build :=
  repeat match goal with
  | |- context [match ?x with _ => _ end] =>
      lazymatch x with
      | context [match _ with _ => _ end] => fail
      | _ => destruct x eqn:?
      end
  end.

Ltac unfold_build := unfold Build, andThen, ask, returns, deferred.

(** A call that occurs in a trace. *)
Ltac find_in :=
  solve [ left; reflexivity
        | right; find_in
        | apply in_or_app; left; find_in
        | apply in_or_app; right; find_in ].

(** What is known of a run of the cache loop. *)
Ltac cached_facts :=
  match goal with
  | Hc : cached_rootfs ?w ?dir ?entries = _ |- _ =>
      let Hs := fresh "Hcached" in
      pose proof (cached_rootfs_spec w dir entries) as Hs;
      rewrite Hc in Hs; cbn [fst snd] in Hs; destruct Hs as [? ?]
  | _ => idtac
  end.

(** X29.  What a root file system returned by Build is.  It is the
    store's entry for the reference, which is looked up only without a
    forced pull; or it lies in the cache directory of the reference, in a
    file with the extension [.ext4].  One that is not marked as cached was
    made by this call: the image was pulled, extracted into the temporary
    directory without error, and turned into the file by createExt4, and
    it carries the configuration of the pulled image. *)
Theorem Build_result (w : BuildWorld) (b : Builder) (imageRef : string)
    (r : BuildResult) :
  snd (Build w b imageRef) = Done (inl r) ->
  (forcePull b = false /\ store_Get w imageRef = Some r)
  \/ (name_ParseReference w imageRef = None
      /\ (exists name,
            Ext name = ".ext4"
            /\ RootfsPath r = Join (image_cache_dir (cacheDir b) imageRef) name)
      /\ (Cached r = false ->
          exists img extractDir metas,
            remote_Image w imageRef = inl img
            /\ os_MkdirTemp w "matchlock-extract-*" = inl extractDir
            /\ snd (extractImage (extract_fs w) (img_entries img)
                      (img_readErr img) extractDir) = inl metas
            /\ createExt4 w extractDir (RootfsPath r) metas = None
            /\ In (CreateExt4 extractDir (RootfsPath r) metas)
                  (fst (Build w b imageRef))
            /\ OCI r = extractOCIConfig (img_ConfigFile img))).
Proof.
  unfold image_cache_dir. unfold_build. split_build; cbn [fst snd];
    intros H; try discriminate H; injection H as H; subst; cached_facts;
    try contradiction; cbn [RootfsPath Cached OCI].
  all: first
    [ left; split; [apply negb_true_iff; assumption|reflexivity]
    | right; split; [reflexivity|]; split;
      [ first
          [ eexists; split; [apply Ext_ext4|reflexivity]
          | match goal with
            | Hn : exists name, _ |- _ =>
                destruct Hn as (n & _ & He & Hp & _ & _); exists n;
                split; assumption
            end ]
      | intros Hc;
        first
          [ discriminate Hc
          | match goal with
            | Hn : exists name, _ |- _ =>
                destruct Hn as (n & _ & _ & _ & _ & Ht); congruence
            end
          | do 3 eexists; split; [reflexivity|]; split; [reflexivity|];
            split;
            [match goal with
             | He : extractImage _ _ _ _ = _ |- _ => rewrite He; reflexivity
             end|];
            split; [assumption|]; split; [find_in|reflexivity] ] ] ].
Qed.

(** The last call of a trace. *)
Definition ends_with (c : call) (t : list call) : Prop :=
  exists before, t = before ++ [c].

Lemma ends_here c : ends_with c [c].
Proof. exists []. reflexivity. Qed.

Lemma ends_app c l t : ends_with c t -> ends_with c (l ++ t).
Proof. intros [before ->]. exists (l ++ before). apply app_assoc. Qed.

(** The places a call can have in a trace. *)
Ltac in_cases H :=
  repeat match type of H with
         | In _ (_ ++ _) => apply in_app_or in H; destruct H as [H|H]
         | In _ (_ :: _) => destruct H as [H|H]; [try discriminate H|]
         | In _ [] => destruct H
         | In _ (map Extract _) =>
             apply in_map_iff in H; destruct H as (? & H & ?);
             try discriminate H
         end;
  try match goal with
      | Hf : List.Forall cache_lookup ?l, Hl : In _ ?l |- _ =>
          destruct (proj1 (List.Forall_forall _ _) Hf _ Hl)
      end.

Lemma Build_removes_extract_dir (w : BuildWorld) (b : Builder)
    (imageRef dir : string) :
  In (MkdirTemp "matchlock-extract-*") (fst (Build w b imageRef)) ->
  os_MkdirTemp w "matchlock-extract-*" = inl dir ->
  ends_with (RemoveAll dir) (fst (Build w b imageRef)).
Proof.
  unfold_build. split_build; cbn [fst snd]; intros H Hdir; cached_facts;
    in_cases H; try discriminate Hdir; injection Hdir as <-;
    repeat apply ends_app; apply ends_here.
Qed.

Lemma Build_removes_what_it_made (w : BuildWorld) (b : Builder)
    (imageRef dir : string) :
  In (RemoveAll dir) (fst (Build w b imageRef)) ->
  os_MkdirTemp w "matchlock-extract-*" = inl dir
  /\ In (MkdirTemp "matchlock-extract-*") (fst (Build w b imageRef)).
Proof.
  unfold_build. split_build; cbn [fst snd]; intros H; cached_facts;
    in_cases H; injection H as <-; (split; [reflexivity|find_in]).
Qed.

Lemma Build_extracts_under (w : BuildWorld) (b : Builder)
    (imageRef dir : string) (op : fs_op) :
  dir <> "" ->
  os_MkdirTemp w "matchlock-extract-*" = inl dir ->
  In (Extract op) (fst (Build w b imageRef)) ->
  creates_under dir op.
Proof.
  unfold_build. split_build; cbn [fst snd]; intros Hne Hdir H; cached_facts;
    in_cases H; try discriminate Hdir; injection Hdir as <-; injection H as <-;
    match goal with
    | He : extractImage ?fs ?img ?readErr ?d = (?ops, _), Hin : In _ ?ops |- _ =>
        pose proof (extract_entries_under fs d img readErr [] ∅ Hne
                      (List.Forall_nil _)) as Hu;
        fold (extractImage fs img readErr d) in Hu; rewrite He in Hu;
        exact (proj1 (List.Forall_forall _ _) Hu _ Hin)
    end.
Qed.

Lemma Build_failed_ext4 (w : BuildWorld) (b : Builder)
    (imageRef src dst : string) (metas : gmap string fileMeta) (err : string) :
  In (CreateExt4 src dst metas) (fst (Build w b imageRef)) ->
  createExt4 w src dst metas = Some err ->
  In (OsRemove dst) (fst (Build w b imageRef))
  /\ (forall path data perm, ~ In (WriteFile path data perm) (fst (Build w b imageRef)))
  /\ snd (Build w b imageRef) = Done (inr ("create ext4: " +:+ err)).
Proof.
  unfold_build. split_build; cbn [fst snd]; intros H Herr; cached_facts;
    in_cases H; injection H as <- <- <-; try congruence;
    (split; [find_in|]);
    (split; [intros path data perm H; in_cases H|]);
    congruence.
Qed.

Lemma Build_forced_pull (w : BuildWorld) (b : Builder) (imageRef : string)
    (c : call) :
  forcePull b = true ->
  In c (fst (Build w b imageRef)) ->
  match c with
  | StoreGet _ | ReadDir _ | ReadFile _ => False
  | _ => True
  end.
Proof.
  unfold_build. intros Hforce. rewrite Hforce. cbn [negb].
  split_build; cbn [fst snd]; intros H; in_cases H; subst; exact I.
Qed.

(** X30.  What Build leaves behind, and what it does not touch.  Once the
    temporary directory is made, removing it is the last thing Build
    does, on every path out, and Build removes no other directory.  The
    extraction creates paths under that directory only.  When createExt4
    fails, Build removes the unfinished root file system, writes no
    metadata, and returns the error.  With a forced pull it asks neither
    the store nor the cache directory. *)
Theorem Build_cleans_up (w : BuildWorld) (b : Builder) (imageRef : string) :
  (forall dir,
     In (MkdirTemp "matchlock-extract-*") (fst (Build w b imageRef)) ->
     os_MkdirTemp w "matchlock-extract-*" = inl dir ->
     ends_with (RemoveAll dir) (fst (Build w b imageRef)))
  /\ (forall dir,
        In (RemoveAll dir) (fst (Build w b imageRef)) ->
        os_MkdirTemp w "matchlock-extract-*" = inl dir
        /\ In (MkdirTemp "matchlock-extract-*") (fst (Build w b imageRef)))
  /\ (forall dir op,
        dir <> "" ->
        os_MkdirTemp w "matchlock-extract-*" = inl dir ->
        In (Extract op) (fst (Build w b imageRef)) ->
        creates_under dir op)
  /\ (forall src dst metas err,
        In (CreateExt4 src dst metas) (fst (Build w b imageRef)) ->
        createExt4 w src dst metas = Some err ->
        In (OsRemove dst) (fst (Build w b imageRef))
        /\ (forall path data perm,
              ~ In (WriteFile path data perm) (fst (Build w b imageRef)))
        /\ snd (Build w b imageRef) = Done (inr ("create ext4: " +:+ err)))
  /\ (forcePull b = true ->
      forall c,
        In c (fst (Build w b imageRef)) ->
        match c with
        | StoreGet _ | ReadDir _ | ReadFile _ => False
        | _ => True
        end).
Proof.
  split; [intros dir; apply Build_removes_extract_dir|].
  split; [intros dir; apply Build_removes_what_it_made|].
  split; [intros dir op; apply Build_extracts_under|].
  split; [intros src dst metas err; apply Build_failed_ext4|].
  intros Hforce c. apply Build_forced_pull, Hforce.
Qed.

(** ** A registry to build from *)

Definition demo_registry_image : v1_Image :=
  {| img_Digest := inl {| Algorithm := "sha256"; Hex := "0123456789abcdef0123" |};
     img_ConfigFile := (Some demo_config_file, None);
     img_entries := demo_image;
     img_readErr := None |}.

(** Nothing stored or cached; every call succeeds. *)
Definition demo_build_world (ext4 : option string) : BuildWorld :=
  {| store_Get := fun _ => None;
     name_ParseReference := fun _ => None;
     os_ReadDir := fun _ => None;
     stat_cached := fun _ => None;
     os_ReadFile := fun _ => None;
     json_Unmarshal := fun _ => None;
     remote_Image := fun _ => inl demo_registry_image;
     os_MkdirAll := fun _ => None;
     stat_existing := fun _ => None;
     os_MkdirTemp := fun _ => inl "/tmp/extract";
     extract_fs := fs_ok;
     createExt4 := fun _ _ _ => ext4;
     stat_built := fun _ => Some 4096%Z;
     time_Now := 0%Z;
     json_MarshalIndent := fun _ => Some "{}" |}.

Definition demo_builder : Builder :=
  {| cacheDir := "/var/cache/images"; forcePull := false |}.

Example Build_demo :
  Build (demo_build_world None) demo_builder "alpine:3"
  = ([StoreGet "alpine:3";
      ParseReference "alpine:3";
      ReadDir "/var/cache/images/alpine_3";
      RemoteImage "alpine:3";
      MkdirCache "/var/cache/images/alpine_3" 493;
      Stat "/var/cache/images/alpine_3/0123456789ab.ext4";
      MkdirTemp "matchlock-extract-*"]
     ++ map Extract (fst (extractImage fs_ok demo_image None "/tmp/extract"))
     ++ [CreateExt4 "/tmp/extract" "/var/cache/images/alpine_3/0123456789ab.ext4"
           (meta_table demo_image ∅);
         Stat "/var/cache/images/alpine_3/0123456789ab.ext4";
         WriteFile "/var/cache/images/alpine_3/metadata.json" "{}" 420;
         RemoveAll "/tmp/extract"],
     Done (inl {| RootfsPath := "/var/cache/images/alpine_3/0123456789ab.ext4";
                  Digest := "sha256:0123456789abcdef0123";
                  Size := 4096;
                  Cached := false;
                  OCI := extractOCIConfig (Some demo_config_file, None) |})).
Proof. vm_compute. reflexivity. Qed.

Lemma Build_result_witness :
  exists name,
    Ext name = ".ext4"
    /\ "/var/cache/images/alpine_3/0123456789ab.ext4"
       = Join (image_cache_dir "/var/cache/images" "alpine:3") name.
Proof.
  destruct (Build_result (demo_build_world None) demo_builder "alpine:3"
              {| RootfsPath := "/var/cache/images/alpine_3/0123456789ab.ext4";
                 Digest := "sha256:0123456789abcdef0123";
                 Size := 4096;
                 Cached := false;
                 OCI := extractOCIConfig (Some demo_config_file, None) |}
              (f_equal snd Build_demo))
    as [[_ Hstore]|[_ [Hname _]]].
  - discriminate Hstore.
  - exact Hname.
Defined.

End Image.

(* ===================================================================== *)
(** * cmd/matchlock: totalMemoryMB (darwin)                                *)
(* ===================================================================== *)

Module Sysinfo.

Local Open Scope Z_scope.

Definition byte_value (b : Byte.byte) : Z := Z.of_N (Byte.to_N b).

(** The little-endian value of a byte sequence. *)
Fixpoint le_value (b : list Byte.byte) : Z :=
  match b with
  | [] => 0
  | x :: rest => byte_value x + 256 * le_value rest
  end.

(** binary.LittleEndian.Uint64: it panics ([None]) on fewer than eight
    bytes. *)
Definition Uint64 (b : list Byte.byte) : option Z :=
  if Nat.ltb (length b) 8 then None else Some (le_value (firstn 8 b)).

(** The conversion [int(x)] of a uint64, on a 64-bit platform. *)
Definition int (x : Z) : Z := (x + 2 ^ 63) mod 2 ^ 64 - 2 ^ 63.

(** What totalMemoryMB does: it returns, or it panics. *)
Inductive outcome : Type :=
| Returns (mb : Z) (err : option Errx.error)
| Panics.

Section TotalMemoryMB.

Variable Sprintf : string -> list Errx.any -> string.
Variable addr : nat.
Variable ErrSysctlMemsize : Errx.error.

(** totalMemoryMB, on what [syscall.Sysctl("hw.memsize")] returns. *)
Definition totalMemoryMB (sysctl : list Byte.byte + Errx.error) : outcome :=
  match sysctl with
  | inr err => Returns 0 (Errx.Wrap Sprintf addr (Some ErrSysctlMemsize) (Some err))
  | inl raw =>
      let b := raw in
      let b := if Nat.ltb (length b) 8
               then b ++ repeat Byte.x00 (8 - length b)
               else b in
      match Uint64 (firstn 8 b) with
      | Some mem => Returns (int (mem / (1024 * 1024))) None
      | None => Panics
      end
  end.

End TotalMemoryMB.

(** binary.LittleEndian.PutUint64: the eight bytes the kernel holds. *)
Fixpoint le_bytes (n : nat) (x : Z) : list Byte.byte :=
  match n with
  | O => []
  | S n' =>
      match Byte.of_N (Z.to_N (x mod 256)) with
      | Some b => b :: le_bytes n' (x / 256)
      | None => []
      end
  end.

Lemma byte_value_range b : 0 <= byte_value b < 256.
Proof.
  unfold byte_value. pose proof (Byte.to_N_bounded b). lia.
Qed.

Lemma le_value_range b : 0 <= le_value b < 256 ^ Z.of_nat (length b).
Proof.
  induction b as [|x b IH]; cbn [le_value length]; [lia|].
  pose proof (byte_value_range x).
  rewrite Nat2Z.inj_succ, Z.pow_succ_r by lia. lia.
Qed.

Lemma le_value_zeros n : le_value (repeat Byte.x00 n) = 0.
Proof. induction n as [|n IH]; cbn [repeat le_value]; [|rewrite IH]; reflexivity. Qed.

Lemma le_value_app a b :
  le_value (a ++ b) = le_value a + 256 ^ Z.of_nat (length a) * le_value b.
Proof.
  induction a as [|x a IH]; cbn [app le_value length].
  - change (256 ^ Z.of_nat 0) with 1. lia.
  - rewrite IH, Nat2Z.inj_succ, Z.pow_succ_r by lia. lia.
Qed.

Lemma zeros_repeat (zeros : list Byte.byte) :
  List.Forall (fun b => b = Byte.x00) zeros -> zeros = repeat Byte.x00 (length zeros).
Proof.
  induction 1 as [|b zeros -> _ IH]; cbn [length repeat]; [reflexivity|].
  rewrite <- IH. reflexivity.
Qed.

Lemma le_bytes_spec n : forall x,
  0 <= x ->
  length (le_bytes n x) = n
  /\ le_value (le_bytes n x) = x mod 256 ^ Z.of_nat n.
Proof.
  induction n as [|n IH]; intros x Hx; cbn [le_bytes].
  - split; [reflexivity|]. change (256 ^ Z.of_nat 0) with 1.
    rewrite Z.mod_1_r. reflexivity.
  - pose proof (Z.mod_pos_bound x 256 ltac:(lia)) as Hm.
    destruct (Byte.of_N (Z.to_N (x mod 256))) as [b|] eqn:Hb.
    2:{ apply Byte.of_N_None_iff in Hb. lia. }
    destruct (IH (x / 256) ltac:(apply Z.div_pos; lia)) as [Hlen Hval].
    cbn [length le_value]. rewrite Hlen, Hval. split; [reflexivity|].
    unfold byte_value. rewrite (Byte.to_of_N _ Hb), Z2N.id by lia.
    rewrite Nat2Z.inj_succ, Z.pow_succ_r by lia.
    assert (0 < 256 ^ Z.of_nat n) by (apply Z.pow_pos_nonneg; lia).
    rewrite Z.rem_mul_r by lia. reflexivity.
Qed.

(** X23.  totalMemoryMB reads the machine's memory right whatever trailing
    zero bytes the sysctl string has lost (syscall.Sysctl drops a
    terminating NUL): from a prefix of the kernel's eight little-endian
    bytes whose missing bytes are all zero it returns the memory size in
    whole MiB, below 2^44, without panicking.  When the sysctl fails it
    returns 0 and an error that errors.Is matches with ErrSysctlMemsize and
    with the system's error, where their types are comparable. *)
Theorem totalMemoryMB_decodes (Sprintf : string -> list Errx.any -> string)
    (addr : nat) (ErrSysctlMemsize : Errx.error)
    (mem : Z) (raw zeros : list Byte.byte) :
  0 <= mem < 2 ^ 64 ->
  raw ++ zeros = le_bytes 8 mem ->
  List.Forall (fun b => b = Byte.x00) zeros ->
  totalMemoryMB Sprintf addr ErrSysctlMemsize (inl raw)
  = Returns (mem / 2 ^ 20) None
  /\ 0 <= mem / 2 ^ 20 < 2 ^ 44
  /\ (forall err,
        exists e,
          totalMemoryMB Sprintf addr ErrSysctlMemsize (inr err) = Returns 0 (Some e)
          /\ (Errx.Comparable ErrSysctlMemsize = true ->
              Errx.Is (Some e) (Some ErrSysctlMemsize) = true)
          /\ (Errx.Comparable err = true ->
              Errx.Is (Some e) (Some err) = true)).
Proof.
  intros Hmem Hraw Hzeros.
  destruct (le_bytes_spec 8 mem ltac:(lia)) as [Hlen Hval].
  rewrite <- Hraw in Hlen, Hval. rewrite length_app in Hlen.
  assert (Hdiv : 0 <= mem / 2 ^ 20 < 2 ^ 44).
  { split; [apply Z.div_pos; lia|].
    apply Z.div_lt_upper_bound; [lia|].
    change (2 ^ 20 * 2 ^ 44) with (2 ^ 64). lia. }
  assert (Hvalue : le_value raw = mem).
  { rewrite le_value_app, (zeros_repeat zeros Hzeros), le_value_zeros in Hval.
    change (256 ^ Z.of_nat 8) with (2 ^ 64) in Hval.
    rewrite Z.mod_small in Hval by lia. lia. }
  split; [|split; [exact Hdiv|]].
  - unfold totalMemoryMB.
    assert (Hpad : (if Nat.ltb (length raw) 8
                    then raw ++ repeat Byte.x00 (8 - length raw) else raw)
                   = raw ++ repeat Byte.x00 (8 - length raw)).
    { destruct (Nat.ltb_spec (length raw) 8) as [_|Hge]; [reflexivity|].
      replace (8 - length raw)%nat with 0%nat by lia.
      cbn [repeat]. rewrite app_nil_r. reflexivity. }
    rewrite Hpad.
    assert (Hlen8 : length (raw ++ repeat Byte.x00 (8 - length raw)) = 8%nat).
    { rewrite length_app, repeat_length. lia. }
    rewrite firstn_all2 by lia. unfold Uint64. rewrite Hlen8.
    cbn [Nat.ltb Nat.leb]. rewrite firstn_all2 by lia.
    rewrite le_value_app, le_value_zeros, Hvalue, Z.mul_0_r, Z.add_0_r.
    change (1024 * 1024) with (2 ^ 20). f_equal.
    unfold int. rewrite Z.mod_small by lia. lia.
  - intros err. unfold totalMemoryMB.
    rewrite Errx.Wrap_both. eexists. split; [reflexivity|].
    split; intros Hc; unfold Errx.Is; rewrite Hc; cbn [Errx.is_ existsb];
      rewrite Errx.is_self; rewrite ?orb_true_r; reflexivity.
Qed.

(** 16 GiB: the kernel's bytes end in three zero bytes; the string has
    lost the last of them. *)
Lemma totalMemoryMB_decodes_witness :
  totalMemoryMB Errx.Sprintf_plain 10 Errx.errSentinel
    (inl [Byte.x00; Byte.x00; Byte.x00; Byte.x00; Byte.x04; Byte.x00; Byte.x00])
  = Returns 16384 None.
Proof.
  refine (proj1 (totalMemoryMB_decodes Errx.Sprintf_plain 10 Errx.errSentinel
    (16 * 2 ^ 30)
    [Byte.x00; Byte.x00; Byte.x00; Byte.x00; Byte.x04; Byte.x00; Byte.x00]
    [Byte.x00] _ _ _)).
  - lia.
  - reflexivity.
  - repeat constructor.
Defined.

End Sysinfo.

(* ===================================================================== *)
(** * cmd/matchlock: runKill                                               *)
(* ===================================================================== *)

Module Kill.

(** What runKill does to the world. *)
Inductive event : Type :=
| MgrKill (id : string)
| WriteStdout (s : string)
| WriteStderr (s : string).

(** The IDs runKill asked the manager to kill, in order. *)
Definition kills (trace : list event) : list string :=
  omap (fun e => match e with MgrKill id => Some id | _ => None end) trace.

(** The lines runKill printed, on either stream. *)
Definition printed (trace : list event) : list event :=
  List.filter (fun e => match e with MgrKill _ => false | _ => true end) trace.

Definition running (s : State.VMState) : bool :=
  String.eqb (State.Status s) "running".

Section RunKill.

(** [mgr.List()], its error dropped as runKill drops it, and [mgr.Kill],
    whose answer may depend on the IDs it was called with before. *)
Variable mgr_List : list State.VMState.
Variable mgr_Kill : list string -> string -> option string.

(** The loop of [kill --all]. *)
Fixpoint kill_running (states : list State.VMState) (asked : list string)
  : list event :=
  match states with
  | [] => []
  | s :: rest =>
      if String.eqb (State.Status s) "running" then
        MgrKill (State.ID s)
        :: match mgr_Kill asked (State.ID s) with
           | Some err =>
               WriteStderr ("Failed to kill " +:+ State.ID s +:+ ": " +:+ err
                            +:+ Cli.nl)
           | None => WriteStdout ("Killed " +:+ State.ID s +:+ Cli.nl)
           end
        :: kill_running rest (asked ++ [State.ID s])
      else kill_running rest asked
  end.

(** runKill: what it does, and the error it returns. *)
Definition runKill (all : bool) (args : list string)
  : list event * option string :=
  if all then (kill_running mgr_List [], None)
  else
    match args with
    | [] => ([], Some "VM ID required (or use --all)")
    | id :: _ =>
        match mgr_Kill [] id with
        | Some err => ([MgrKill id], Some err)
        | None => ([MgrKill id; WriteStdout ("Killed " +:+ id +:+ Cli.nl)], None)
        end
    end.

Lemma kill_running_kills states : forall asked,
  kills (kill_running states asked)
  = map State.ID (List.filter running states)
  /\ length (printed (kill_running states asked))
     = length (List.filter running states).
Proof.
  induction states as [|s rest IH]; intros asked; [split; reflexivity|].
  cbn [kill_running List.filter].
  change (String.eqb (State.Status s) "running") with (running s).
  destruct (running s).
  - destruct (IH (asked ++ [State.ID s])) as [Hk Hp].
    destruct (mgr_Kill asked (State.ID s));
      cbn [kills omap list_omap printed List.filter map length];
      fold (kills (kill_running rest (asked ++ [State.ID s])));
      fold (printed (kill_running rest (asked ++ [State.ID s])));
      rewrite Hk, Hp; split; reflexivity.
  - apply IH.
Qed.

(** X24.  [kill --all] asks the manager to kill the running sandboxes of
    the listing and no others, each once and in the listing's order,
    prints one line for each, and returns nil even when kills fail; the
    arguments are not looked at.  Without [--all], and without an
    argument, runKill fails before it asks for anything; with arguments
    it asks for the first one only, and returns the manager's error as it
    is. *)
Theorem runKill_all_kills_running (args : list string) :
  (snd (runKill true args) = None
   /\ kills (fst (runKill true args))
      = map State.ID (List.filter running mgr_List)
   /\ length (printed (fst (runKill true args)))
      = length (List.filter running mgr_List))
  /\ (kills (fst (runKill false [])) = []
      /\ snd (runKill false []) <> None)
  /\ (forall id rest,
        kills (fst (runKill false (id :: rest))) = [id]
        /\ snd (runKill false (id :: rest)) = mgr_Kill [] id).
Proof.
  split; [|split].
  - cbn [runKill fst snd]. destruct (kill_running_kills mgr_List []) as [Hk Hp].
    split; [reflexivity|]. split; assumption.
  - split; [reflexivity|discriminate].
  - intros id rest. cbn [runKill].
    destruct (mgr_Kill [] id); split; reflexivity.
Qed.

End RunKill.

End Kill.

(* ===================================================================== *)
(** * cmd/matchlock: runBuild and runDockerfileBuild                       *)
(* ===================================================================== *)

Module BuildCmd.

Import Filepath.

Definition dq : string := String (ascii_of_nat 34) EmptyString.
Definition bs : string := String (ascii_of_nat 92) EmptyString.

(** image.BuildResult, as far as the command reads it. *)
Record BuildResult : Type := {
  RootfsPath : string;
  Digest : string;
  Size : Z
}.

(** What [os.Stat] tells the command: a directory or not, or an error
    that is, or is not, [os.IsNotExist]. *)
Inductive stat : Type :=
| StatOk (isDir : bool)
| StatErr (notExist : bool).

(** What the build command does to the outside, in order. *)
Inductive event : Type :=
| WriteStdout (s : string)
| WriteStderr (s : string)
| ImageBuild (forcePull : bool) (imageRef : string)
| SaveTag (tag : string) (result : BuildResult)
| SandboxNew (config : Cli.Config) (opts : Cli.Options)
| SandboxStart
| SandboxExec (command : string) (opts : Cli.ExecOptions)
| SandboxReadFile (path : string)
| SandboxClose
| CreateTemp (pattern : string)
| TmpWrite (name data : string)
| TmpClose (name : string)
| OsOpen (name : string)
| Import (name tag : string)
| ImportFileClose (name : string)
| OsRemove (name : string).

Definition Cmd (A : Type) : Type := list event * Cli.control A.

Definition cmd_ret {A} (a : A) : Cmd A := ([], Cli.Next a).

Definition cmd_bind {A B} (m : Cmd A) (k : A -> Cmd B) : Cmd B :=
  match m with
  | (t, Cli.Next a) => let '(t', c) := k a in (t ++ t', c)
  | (t, Cli.Return e) => (t, Cli.Return e)
  | (t, Cli.OsExit n) => (t, Cli.OsExit n)
  | (t, Cli.Panic) => (t, Cli.Panic)
  end.

Definition cmd_emit (e : event) : Cmd unit := ([e], Cli.Next tt).
Definition cmd_return {A} (err : option string) : Cmd A := ([], Cli.Return err).

(** [defer f()]: [f]'s events follow when the function returns or panics. *)
Definition cmd_defer {A} (deferred : list event) (body : Cmd A) : Cmd A :=
  match body with
  | (t, Cli.Return e) => (t ++ deferred, Cli.Return e)
  | (t, Cli.Panic) => (t ++ deferred, Cli.Panic)
  | other => other
  end.

Declare Scope build_scope.
Delimit Scope build_scope with build.
Notation "m ;;; k" := (cmd_bind m (fun _ => k))
  (at level 100, right associativity) : build_scope.
Local Open Scope build_scope.

(** filepath.Base (Unix). *)
Fixpoint strip_trailing_separators (path : string) : string :=
  match path with
  | EmptyString => EmptyString
  | String c rest =>
      let r := strip_trailing_separators rest in
      if Ascii.eqb c Separator && String.eqb r "" then EmptyString
      else String c r
  end.

Definition Base (path : string) : string :=
  if String.eqb path "" then "."
  else
    let path := List.last (split (strip_trailing_separators path)) "" in
    if String.eqb path "" then "/" else path.

Example Base_examples :
  map Base ["/foo/bar/baz.js"; "/foo/bar/baz"; "/foo/bar/baz/"; "dev.txt";
            "../todo.txt"; ".."; "."; "/"; ""; "//"; "a//"]
  = ["baz.js"; "baz"; "baz"; "dev.txt"; "todo.txt"; ".."; "."; "/"; "."; "/"; "a"].
Proof. vm_compute. reflexivity. Qed.

(** The packages the command calls: their answers. *)
Record World : Type := {
  (* path/filepath, os *)
  filepath_Abs : string -> string + string;
  os_Stat : string -> stat;
  os_CreateTemp : string -> string + string;
  tmpFile_Write : string -> string -> option string;
  os_Open : string -> option string;
  (* pkg/image *)
  builder_Build : bool -> string -> BuildResult + string;
  builder_SaveTag : string -> BuildResult -> option string;
  builder_Import : string -> string -> BuildResult + string;
  (* pkg/api, pkg/sandbox *)
  DefaultDiskSizeMB : Z;
  sandbox_New : Cli.Config -> Cli.Options -> option string;
  sb_Start : option string;
  sb_Exec : string -> Cli.ExecOptions -> Cli.ExecResult + string;
  sb_ReadFile : string -> string + string;
  (* fmt: the verbs %q, %d and %.1f *)
  fmt_quote : string -> string;
  fmt_int : Z -> string;
  fmt_megabytes : Z -> string
}.

(** The flags of [buildCmd] as cobra hands them to RunE. *)
Record BuildFlags : Type := {
  file : string;
  tag : string;
  pull : bool;
  build_cpus : Z;
  build_memory : Z
}.

Definition buildkitImage : string := "moby/buildkit:rootless".

(** The script runDockerfileBuild runs in the sandbox. *)
Definition buildScript (guestDockerfileDir : string) : string :=
  String.concat Cli.nl
    ["cat > /tmp/buildkit-run.sh << 'SCRIPT'";
     "export HOME=/root";
     "export TMPDIR=/var/lib/buildkit/tmp";
     "mkdir -p $TMPDIR";
     "SOCK=/tmp/buildkit.sock";
     "buildkitd --root /var/lib/buildkit " +:+ bs;
     "  --addr unix://$SOCK " +:+ bs;
     "  --oci-worker-snapshotter native " +:+ bs;
     "  >/tmp/buildkitd.log 2>&1 &";
     "BKPID=$!";
     "for i in $(seq 1 30); do [ -S $SOCK ] && break; sleep 1; done";
     "if [ ! -S $SOCK ]; then";
     "  echo " +:+ dq +:+ "BuildKit daemon failed to start" +:+ dq +:+ " >&2";
     "  cat /tmp/buildkitd.log >&2";
     "  exit 1";
     "fi";
     "echo " +:+ dq +:+ "BuildKit daemon ready" +:+ dq +:+ " >&2";
     "buildctl --addr unix://$SOCK build " +:+ bs;
     "  --frontend dockerfile.v0 " +:+ bs;
     "  --local context=/workspace/context " +:+ bs;
     "  --local dockerfile=" +:+ guestDockerfileDir +:+ " " +:+ bs;
     "  --output type=docker,dest=/workspace/output/image.tar";
     "RC=$?";
     "[ $RC -ne 0 ] && { echo " +:+ dq +:+ "=== buildkitd log ===" +:+ dq
       +:+ " >&2; cat /tmp/buildkitd.log >&2; }";
     "kill $BKPID 2>/dev/null";
     "exit $RC";
     "SCRIPT";
     "chmod +x /tmp/buildkit-run.sh && /tmp/buildkit-run.sh"].

Section Commands.

Variable w : World.

(** The mounts of the build sandbox, and the directory of the Dockerfile
    in the guest. *)
Definition build_mounts (absContext absDockerfile : string)
  : gmap string Cli.MountConfig * string :=
  let dockerfileName := Base absDockerfile in
  let dockerfileInContext := Join absContext dockerfileName in
  let dockerfileDir := Dir absDockerfile in
  let mounts : gmap string Cli.MountConfig :=
    <["/workspace/output" :=
        {| Cli.Type_ := "memory"; Cli.HostPath := ""; Cli.Readonly := false |}]>
    (<["/workspace/context" :=
        {| Cli.Type_ := "real_fs"; Cli.HostPath := absContext;
           Cli.Readonly := true |}]>
    (<["/workspace" :=
        {| Cli.Type_ := "memory"; Cli.HostPath := ""; Cli.Readonly := false |}]>
     ∅)) in
  match os_Stat w dockerfileInContext with
  | StatErr true =>
      (<["/workspace/dockerfile" :=
           {| Cli.Type_ := "real_fs"; Cli.HostPath := dockerfileDir;
              Cli.Readonly := true |}]> mounts,
       "/workspace/dockerfile")
  | _ => (mounts, "/workspace/context")
  end.

(** runDockerfileBuild.  The context with its timeout, its deferred
    cancel and the signal handler reach the outside only through the
    answers of the calls that take the context. *)
Definition runDockerfileBuild (f : BuildFlags) (contextDir dockerfile tag : string)
  : Cmd unit :=
  if String.eqb tag "" then
    cmd_return (Some "-t/--tag is required when building from a Dockerfile")
  else
  let cpus := build_cpus f in
  let memory := build_memory f in
  match filepath_Abs w contextDir with
  | inr err => cmd_return (Some ("resolve context dir: " +:+ err))
  | inl absContext =>
  match os_Stat w absContext with
  | StatErr _ | StatOk false =>
      cmd_return (Some ("build context " +:+ fmt_quote w contextDir
                     +:+ " is not a directory"))
  | StatOk true =>
  match filepath_Abs w dockerfile with
  | inr err => cmd_return (Some ("resolve Dockerfile: " +:+ err))
  | inl absDockerfile =>
  match os_Stat w absDockerfile with
  | StatErr _ => cmd_return (Some ("Dockerfile not found: " +:+ dockerfile))
  | StatOk _ =>
  cmd_emit (WriteStderr ("Preparing BuildKit image (" +:+ buildkitImage +:+ ")..."
                         +:+ Cli.nl)) ;;;
  cmd_emit (ImageBuild false buildkitImage) ;;;
  match builder_Build w false buildkitImage with
  | inr err => cmd_return (Some ("building BuildKit rootfs: " +:+ err))
  | inl buildResult =>
  let '(mounts, guestDockerfileDir) := build_mounts absContext absDockerfile in
  let config :=
    {| Cli.Image := buildkitImage;
       Cli.Privileged := true;
       Cli.Resources_ := {| Cli.CPUs := cpus; Cli.MemoryMB := memory;
                            Cli.DiskSizeMB := DefaultDiskSizeMB w;
                            Cli.TimeoutSeconds := 1800 |};
       Cli.Network := {| Cli.AllowedHosts := []; Cli.BlockPrivateIPs := false;
                         Cli.Secrets := ∅ |};
       Cli.VFS := {| Cli.Workspace := "/workspace"; Cli.Mounts := mounts |} |} in
  let sandboxOpts := {| Cli.opt_RootfsPath := RootfsPath buildResult |} in
  cmd_emit (SandboxNew config sandboxOpts) ;;;
  match sandbox_New w config sandboxOpts with
  | Some err => cmd_return (Some ("creating BuildKit sandbox: " +:+ err))
  | None =>
  cmd_defer [SandboxClose] (
    cmd_emit SandboxStart ;;;
    match sb_Start w with
    | Some err => cmd_return (Some ("starting BuildKit sandbox: " +:+ err))
    | None =>
    cmd_emit (WriteStderr ("Starting BuildKit daemon and building image from "
                       +:+ dockerfile +:+ "..." +:+ Cli.nl)) ;;;
    let execOpts := {| Cli.WorkingDir := "/" |} in
    let script := buildScript guestDockerfileDir in
    cmd_emit (SandboxExec script execOpts) ;;;
    match sb_Exec w script execOpts with
    | inr execErr => cmd_return (Some ("BuildKit build: " +:+ execErr))
    | inl result =>
    cmd_emit (WriteStderr (Cli.Stdout result)) ;;;
    cmd_emit (WriteStderr (Cli.Stderr result)) ;;;
    if negb (Z.eqb (Cli.ExitCode result) 0) then
      cmd_return (Some ("BuildKit build failed (exit "
                     +:+ fmt_int w (Cli.ExitCode result) +:+ ")"))
    else
    cmd_emit (WriteStderr ("Importing built image as " +:+ tag +:+ "..." +:+ Cli.nl)) ;;;
    cmd_emit (SandboxReadFile "/workspace/output/image.tar") ;;;
    match sb_ReadFile w "/workspace/output/image.tar" with
    | inr err => cmd_return (Some ("read built image: " +:+ err))
    | inl tarballData =>
    cmd_emit (CreateTemp "matchlock-build-*.tar") ;;;
    match os_CreateTemp w "matchlock-build-*.tar" with
    | inr err => cmd_return (Some ("create temp file: " +:+ err))
    | inl tmpName =>
    cmd_defer [OsRemove tmpName] (
      cmd_emit (TmpWrite tmpName tarballData) ;;;
      match tmpFile_Write w tmpName tarballData with
      | Some err =>
          cmd_emit (TmpClose tmpName) ;;;
          cmd_return (Some ("write temp tarball: " +:+ err))
      | None =>
      cmd_emit (TmpClose tmpName) ;;;
      cmd_emit (OsOpen tmpName) ;;;
      match os_Open w tmpName with
      | Some err => cmd_return (Some ("open temp tarball: " +:+ err))
      | None =>
      cmd_defer [ImportFileClose tmpName] (
        cmd_emit (Import tmpName tag) ;;;
        match builder_Import w tmpName tag with
        | inr err => cmd_return (Some ("import built image: " +:+ err))
        | inl importResult =>
        cmd_emit (WriteStdout ("Successfully built and tagged " +:+ tag +:+ Cli.nl)) ;;;
        cmd_emit (WriteStdout ("Rootfs: " +:+ RootfsPath importResult +:+ Cli.nl)) ;;;
        cmd_emit (WriteStdout ("Size: " +:+ fmt_megabytes w (Size importResult)
                           +:+ " MB" +:+ Cli.nl)) ;;;
        cmd_return None
        end)
      end end)
    end end end end)
  end end end end end end.

(** runBuild.  [args[0]] on an empty slice panics. *)
Definition runBuild (f : BuildFlags) (args : list string) : Cmd unit :=
  let dockerfile := file f in
  let tag := tag f in
  let pull := pull f in
  match args with
  | [] => ([], Cli.Panic)
  | args0 :: _ =>
  if negb (String.eqb dockerfile "") then
    runDockerfileBuild f args0 dockerfile tag
  else
  let imageRef := args0 in
  cmd_emit (WriteStdout ("Building rootfs from " +:+ imageRef +:+ "..." +:+ Cli.nl)) ;;;
  cmd_emit (ImageBuild pull imageRef) ;;;
  match builder_Build w pull imageRef with
  | inr err => cmd_return (Some err)
  | inl result =>
  (if negb (String.eqb tag "") then
     cmd_emit (SaveTag tag result) ;;;
     match builder_SaveTag w tag result with
     | Some err => cmd_return (Some ("saving tag: " +:+ err))
     | None => cmd_emit (WriteStdout ("Tagged: " +:+ tag +:+ Cli.nl))
     end
   else cmd_ret tt) ;;;
  cmd_emit (WriteStdout ("Built: " +:+ RootfsPath result +:+ Cli.nl)) ;;;
  cmd_emit (WriteStdout ("Digest: " +:+ Digest result +:+ Cli.nl)) ;;;
  cmd_emit (WriteStdout ("Size: " +:+ fmt_megabytes w (Size result) +:+ " MB" +:+ Cli.nl)) ;;;
  cmd_return None
  end
  end.

End Commands.

(** ** A world to run the build in *)

Definition build_world (exitCode : Z) (dockerfileInContext : bool) : World :=
  {| filepath_Abs := fun p => inl ("/home/dev/" +:+ p);
     os_Stat := fun p =>
       if String.eqb p "/home/dev/app" then StatOk true
       else if String.eqb p "/home/dev/app/Dockerfile"
       then (if dockerfileInContext then StatOk false else StatErr true)
       else StatOk false;
     os_CreateTemp := fun _ => inl "/tmp/matchlock-build-1.tar";
     tmpFile_Write := fun _ _ => None;
     os_Open := fun _ => None;
     builder_Build := fun _ ref =>
       inl {| RootfsPath := "/cache/" +:+ ref; Digest := "sha256:0"; Size := 0 |};
     builder_SaveTag := fun _ _ => None;
     builder_Import := fun _ tag =>
       inl {| RootfsPath := "/store/" +:+ tag; Digest := "sha256:1"; Size := 0 |};
     DefaultDiskSizeMB := 5120;
     sandbox_New := fun _ _ => None;
     sb_Start := None;
     sb_Exec := fun _ _ =>
       inl {| Cli.Stdout := ""; Cli.Stderr := ""; Cli.ExitCode := exitCode |};
     sb_ReadFile := fun _ => inl "tarball";
     fmt_quote := fun s => dq +:+ s +:+ dq;
     fmt_int := fun _ => "n";
     fmt_megabytes := fun _ => "0.0" |}.

Definition build_flags (file tag : string) : BuildFlags :=
  {| file := file; tag := tag; pull := true; build_cpus := 2;
     build_memory := 2048 |}.

Example runDockerfileBuild_demo :
  fst (runDockerfileBuild (build_world 0 false) (build_flags "docker/Dockerfile" "app:1")
         "app" "docker/Dockerfile" "app:1")
  = [WriteStderr ("Preparing BuildKit image (moby/buildkit:rootless)..." +:+ Cli.nl);
     ImageBuild false "moby/buildkit:rootless";
     SandboxNew
       {| Cli.Image := "moby/buildkit:rootless";
          Cli.Privileged := true;
          Cli.Resources_ := {| Cli.CPUs := 2; Cli.MemoryMB := 2048;
                               Cli.DiskSizeMB := 5120;
                               Cli.TimeoutSeconds := 1800 |};
          Cli.Network := {| Cli.AllowedHosts := []; Cli.BlockPrivateIPs := false;
                            Cli.Secrets := ∅ |};
          Cli.VFS :=
            {| Cli.Workspace := "/workspace";
               Cli.Mounts :=
                 fst (build_mounts (build_world 0 false) "/home/dev/app"
                        "/home/dev/docker/Dockerfile") |} |}
       {| Cli.opt_RootfsPath := "/cache/moby/buildkit:rootless" |};
     SandboxStart;
     WriteStderr ("Starting BuildKit daemon and building image from docker/Dockerfile..."
                  +:+ Cli.nl);
     SandboxExec (buildScript "/workspace/dockerfile") {| Cli.WorkingDir := "/" |};
     WriteStderr "";
     WriteStderr "";
     WriteStderr ("Importing built image as app:1..." +:+ Cli.nl);
     SandboxReadFile "/workspace/output/image.tar";
     CreateTemp "matchlock-build-*.tar";
     TmpWrite "/tmp/matchlock-build-1.tar" "tarball";
     TmpClose "/tmp/matchlock-build-1.tar";
     OsOpen "/tmp/matchlock-build-1.tar";
     Import "/tmp/matchlock-build-1.tar" "app:1";
     WriteStdout ("Successfully built and tagged app:1" +:+ Cli.nl);
     WriteStdout ("Rootfs: /store/app:1" +:+ Cli.nl);
     WriteStdout ("Size: 0.0 MB" +:+ Cli.nl);
     ImportFileClose "/tmp/matchlock-build-1.tar";
     OsRemove "/tmp/matchlock-build-1.tar";
     SandboxClose].
Proof. vm_compute. reflexivity. Qed.

(** ** What the build command does on every path *)

Ltac split_run :=
  repeat match goal with
  | |- context [match ?x with _ => _ end] =>
      lazymatch x with
      | context [match _ with _ => _ end] => fail
      | _ => destruct x eqn:?
      end
  end.

Ltac unfold_run :=
  unfold runBuild, runDockerfileBuild, cmd_defer, cmd_bind, cmd_emit, cmd_ret, cmd_return.

Ltac find_event H :=
  cbn [fst snd app In] in H;
  repeat (destruct H as [H|H]; [try discriminate H|]);
  try contradiction.

Ltac here := solve [repeat (first [left; reflexivity | right])].

(** The sandbox was created: [sandbox.New] was called and returned no
    error. *)
Definition sandbox_created (w : World) (t : list event) : Prop :=
  exists config opts, In (SandboxNew config opts) t /\ sandbox_New w config opts = None.

Lemma build_closes_last (w : World) (f : BuildFlags)
    (contextDir dockerfile tag : string) :
  sandbox_created w (fst (runDockerfileBuild w f contextDir dockerfile tag)) ->
  exists before,
    fst (runDockerfileBuild w f contextDir dockerfile tag) = before ++ [SandboxClose]
    /\ ~ In SandboxClose before.
Proof.
  unfold sandbox_created. unfold_run. split_run; cbn [fst snd app];
    intros (config & opts & H & Hnew); find_event H;
    injection H as <- <-; try congruence;
    match goal with
    | |- exists before, ?t = _ /\ _ => exists (removelast t)
    end; cbn [removelast]; (split; [reflexivity|]);
    intros H; find_event H.
Qed.

Lemma build_closes_created (w : World) (f : BuildFlags)
    (contextDir dockerfile tag : string) :
  In SandboxClose (fst (runDockerfileBuild w f contextDir dockerfile tag)) ->
  sandbox_created w (fst (runDockerfileBuild w f contextDir dockerfile tag)).
Proof.
  unfold sandbox_created. unfold_run. split_run; cbn [fst snd app];
    intros H; find_event H;
    do 2 eexists; (split; [here|]); assumption.
Qed.

Lemma build_removes_temp (w : World) (f : BuildFlags)
    (contextDir dockerfile tag pattern name : string) :
  In (CreateTemp pattern) (fst (runDockerfileBuild w f contextDir dockerfile tag)) ->
  os_CreateTemp w pattern = inl name ->
  exists before,
    fst (runDockerfileBuild w f contextDir dockerfile tag)
    = before ++ [OsRemove name; SandboxClose].
Proof.
  unfold_run. split_run; cbn [fst snd app]; intros H Hname; find_event H;
    injection H as <-; try congruence;
    match goal with
    | H1 : os_CreateTemp w _ = inl ?a |- _ =>
        rewrite H1 in Hname; injection Hname as <-
    end;
    match goal with
    | |- exists before, ?t = _ => exists (removelast (removelast t))
    end; reflexivity.
Qed.

Lemma build_closes_import_file (w : World) (f : BuildFlags)
    (contextDir dockerfile tag name : string) :
  In (OsOpen name) (fst (runDockerfileBuild w f contextDir dockerfile tag)) ->
  os_Open w name = None ->
  In (ImportFileClose name) (fst (runDockerfileBuild w f contextDir dockerfile tag)).
Proof.
  unfold_run. split_run; cbn [fst snd app]; intros H Hname; find_event H;
    injection H as <-; try congruence; here.
Qed.

(** X25.  runDockerfileBuild leaves nothing behind.  If it created the
    sandbox, closing it is the last thing it does, on every path, and it
    closes it once; it closes no sandbox it did not create.  If it created
    the temporary tar file, it removes that file just before closing the
    sandbox; and the file it opened for the import it closes. *)
Theorem runDockerfileBuild_cleans_up (w : World) (f : BuildFlags)
    (contextDir dockerfile tag : string) :
  let t := fst (runDockerfileBuild w f contextDir dockerfile tag) in
  (sandbox_created w t ->
   exists before, t = before ++ [SandboxClose] /\ ~ In SandboxClose before)
  /\ (In SandboxClose t -> sandbox_created w t)
  /\ (forall pattern name,
        In (CreateTemp pattern) t -> os_CreateTemp w pattern = inl name ->
        exists before, t = before ++ [OsRemove name; SandboxClose])
  /\ (forall name,
        In (OsOpen name) t -> os_Open w name = None ->
        In (ImportFileClose name) t).
Proof.
  cbv zeta. split; [apply build_closes_last|].
  split; [apply build_closes_created|].
  split; [intros pattern name; apply build_removes_temp|].
  intros name. apply build_closes_import_file.
Qed.

(** X26.  runDockerfileBuild imports only what the sandbox built: when it
    hands a file to [builder.Import], the tag is the one it was given and
    is not empty, the build script ran in the sandbox and exited with 0,
    and the file is the temporary file to which the image read from
    /workspace/output/image.tar was written without error.  When it
    returns nil, it has imported the image and reported the tag. *)
Theorem runDockerfileBuild_imports_built_image (w : World) (f : BuildFlags)
    (contextDir dockerfile tag : string) :
  let run := runDockerfileBuild w f contextDir dockerfile tag in
  (forall name tag',
     In (Import name tag') (fst run) ->
     tag' = tag /\ tag <> ""
     /\ (exists script opts result,
           In (SandboxExec script opts) (fst run)
           /\ sb_Exec w script opts = inl result
           /\ Cli.ExitCode result = 0%Z)
     /\ (exists data,
           sb_ReadFile w "/workspace/output/image.tar" = inl data
           /\ In (TmpWrite name data) (fst run)
           /\ tmpFile_Write w name data = None))
  /\ (snd run = Cli.Return None ->
      exists name importResult,
        In (Import name tag) (fst run)
        /\ builder_Import w name tag = inl importResult
        /\ In (WriteStdout ("Successfully built and tagged " +:+ tag +:+ Cli.nl))
              (fst run)).
Proof.
  cbv zeta. split.
  - intros name tag'. unfold_run. split_run; cbn [fst snd app]; intros H;
      find_event H; injection H as <- <-.
    all: split; [reflexivity|].
    all: split; [apply String.eqb_neq; assumption|].
    all: split;
      [do 3 eexists; split; [here|]; split; [eassumption|];
       match goal with
       | H : negb (Z.eqb ?x 0) = false |- _ =>
           destruct (Z.eqb_spec x 0); [assumption|discriminate H]
       end
      |eexists; split; [reflexivity|]; split; [here|assumption]].
  - unfold_run. split_run; cbn [fst snd app]; intros H; try discriminate H.
    do 2 eexists. split; [here|]. split; [eassumption|here].
Qed.

(** The mount table of the build sandbox. *)
Lemma build_mounts_spec (w : World) (absContext absDockerfile : string)
    (mounts : gmap string Cli.MountConfig) (guestDockerfileDir : string) :
  build_mounts w absContext absDockerfile = (mounts, guestDockerfileDir) ->
  mounts !! "/workspace/context"
  = Some {| Cli.Type_ := "real_fs"; Cli.HostPath := absContext;
            Cli.Readonly := true |}
  /\ (forall guest m,
        mounts !! guest = Some m ->
        (guest = "/workspace" \/ Strings.HasPrefix guest "/workspace/" = true)
        /\ (Cli.Type_ m = "memory" \/ Cli.Readonly m = true))
  /\ (guestDockerfileDir = "/workspace/dockerfile"
      /\ mounts !! "/workspace/dockerfile"
         = Some {| Cli.Type_ := "real_fs"; Cli.HostPath := Dir absDockerfile;
                   Cli.Readonly := true |}
      \/ guestDockerfileDir = "/workspace/context"
         /\ mounts !! "/workspace/dockerfile" = None).
Proof.
  unfold build_mounts.
  destruct (os_Stat w (Join absContext (Base absDockerfile))) as [isDir|[|]];
    intros H; injection H as <- <-.
  all: split; [reflexivity|]. 
  all: split; [|first [left; split; reflexivity | right; split; reflexivity]].
  all: intros guest m Hm.
  all: repeat (apply lookup_insert_Some in Hm;
               destruct Hm as [[<- <-]|[_ Hm]];
               [split; first [left; reflexivity | right; reflexivity]|]).
  all: rewrite lookup_empty in Hm; discriminate Hm.
Qed.

(** X27.  The sandbox a Dockerfile build runs in.  Whatever the flags, it
    is a privileged sandbox of the BuildKit image with the CPUs and memory
    of the build flags and a timeout of 1800 seconds, and its network
    configuration is the empty one: no allowed hosts, no secrets, and
    private IPs not blocked.  The build context, a directory that exists,
    is mounted at /workspace/context; every mount lies at or under
    /workspace, and every mount of a host directory is read-only.  The
    build script is given /workspace/dockerfile as the Dockerfile's
    directory exactly when the Dockerfile's own directory is mounted
    there, and /workspace/context otherwise. *)
Theorem runDockerfileBuild_sandbox_config (w : World) (f : BuildFlags)
    (contextDir dockerfile tag : string) (config : Cli.Config) (opts : Cli.Options) :
  In (SandboxNew config opts) (fst (runDockerfileBuild w f contextDir dockerfile tag)) ->
  (Cli.Image config, Cli.Privileged config) = (buildkitImage, true)
  /\ Cli.Resources_ config
     = {| Cli.CPUs := build_cpus f; Cli.MemoryMB := build_memory f;
          Cli.DiskSizeMB := DefaultDiskSizeMB w; Cli.TimeoutSeconds := 1800 |}
  /\ Cli.Network config
     = {| Cli.AllowedHosts := []; Cli.BlockPrivateIPs := false;
          Cli.Secrets := ∅ |}
  /\ Cli.Workspace (Cli.VFS config) = "/workspace"
  /\ (exists absContext,
        filepath_Abs w contextDir = inl absContext
        /\ os_Stat w absContext = StatOk true
        /\ Cli.Mounts (Cli.VFS config) !! "/workspace/context"
           = Some {| Cli.Type_ := "real_fs"; Cli.HostPath := absContext;
                     Cli.Readonly := true |})
  /\ (forall guest m,
        Cli.Mounts (Cli.VFS config) !! guest = Some m ->
        (guest = "/workspace" \/ Strings.HasPrefix guest "/workspace/" = true)
        /\ (Cli.Type_ m = "memory" \/ Cli.Readonly m = true))
  /\ (exists buildResult,
        builder_Build w false buildkitImage = inl buildResult
        /\ opts = {| Cli.opt_RootfsPath := RootfsPath buildResult |})
  /\ (forall script execOpts,
        In (SandboxExec script execOpts)
           (fst (runDockerfileBuild w f contextDir dockerfile tag)) ->
        script = buildScript "/workspace/dockerfile"
        /\ is_Some (Cli.Mounts (Cli.VFS config) !! "/workspace/dockerfile")
        \/ script = buildScript "/workspace/context"
           /\ Cli.Mounts (Cli.VFS config) !! "/workspace/dockerfile" = None).
Proof.
  unfold_run. split_run; cbn [fst snd app]; intros H; find_event H;
    injection H as <- <-;
    cbn [Cli.Image Cli.Privileged Cli.Resources_ Cli.Network Cli.VFS
         Cli.Workspace Cli.Mounts];
    match goal with
    | Hm : build_mounts _ _ _ = _ |- _ =>
        destruct (build_mounts_spec _ _ _ _ _ Hm) as (Hctx & Hall & Hdir)
    end.
  all: split; [reflexivity|].
  all: split; [reflexivity|].
  all: split; [reflexivity|].
  all: split; [reflexivity|].
  all: split;
    [eexists; split; [first [reflexivity|eassumption]|];
     split; [assumption|exact Hctx]|].
  all: split; [exact Hall|].
  all: split; [eexists; split; [first [reflexivity|eassumption]|reflexivity]|].
  all: intros script execOpts H; find_event H; injection H as <- <-;
    (destruct Hdir as [[-> Hd]|[-> Hd]];
     [left; split; [reflexivity|rewrite Hd; eexists; reflexivity]
     |right; split; [reflexivity|exact Hd]]).
Qed.

Lemma runDockerfileBuild_sandbox_config_witness :
  Cli.Network
    {| Cli.Image := "moby/buildkit:rootless";
       Cli.Privileged := true;
       Cli.Resources_ := {| Cli.CPUs := 2; Cli.MemoryMB := 2048;
                            Cli.DiskSizeMB := 5120;
                            Cli.TimeoutSeconds := 1800 |};
       Cli.Network := {| Cli.AllowedHosts := []; Cli.BlockPrivateIPs := false;
                         Cli.Secrets := ∅ |};
       Cli.VFS :=
         {| Cli.Workspace := "/workspace";
            Cli.Mounts :=
              fst (build_mounts (build_world 0 false) "/home/dev/app"
                     "/home/dev/docker/Dockerfile") |} |}
  = {| Cli.AllowedHosts := []; Cli.BlockPrivateIPs := false; Cli.Secrets := ∅ |}.
Proof.
  refine (proj1 (proj2 (proj2 (runDockerfileBuild_sandbox_config
    (build_world 0 false) (build_flags "docker/Dockerfile" "app:1")
    "app" "docker/Dockerfile" "app:1" _
    {| Cli.opt_RootfsPath := "/cache/moby/buildkit:rootless" |} _)))).
  rewrite runDockerfileBuild_demo. right. right. left. reflexivity.
Defined.

Lemma runDockerfileBuild_imports_built_image_witness :
  exists data,
    sb_ReadFile (build_world 0 false) "/workspace/output/image.tar" = inl data
    /\ In (TmpWrite "/tmp/matchlock-build-1.tar" data)
          (fst (runDockerfileBuild (build_world 0 false)
                  (build_flags "docker/Dockerfile" "app:1")
                  "app" "docker/Dockerfile" "app:1"))
    /\ tmpFile_Write (build_world 0 false) "/tmp/matchlock-build-1.tar" data = None.
Proof.
  refine (proj2 (proj2 (proj2 (proj1 (runDockerfileBuild_imports_built_image
    (build_world 0 false) (build_flags "docker/Dockerfile" "app:1")
    "app" "docker/Dockerfile" "app:1")
    "/tmp/matchlock-build-1.tar" "app:1" _)))).
  rewrite runDockerfileBuild_demo. do 14 right. left. reflexivity.
Defined.

Lemma dockerfile_build_pulls_buildkit (w : World) (f : BuildFlags)
    (contextDir dockerfile tag : string) (forcePull : bool) (ref : string) :
  In (ImageBuild forcePull ref)
     (fst (runDockerfileBuild w f contextDir dockerfile tag)) ->
  forcePull = false /\ ref = buildkitImage.
Proof.
  unfold_run. split_run; cbn [fst snd app]; intros H; find_event H;
    injection H as <- <-; split; reflexivity.
Qed.

Lemma dockerfile_build_saves_no_tag (w : World) (f : BuildFlags)
    (contextDir dockerfile tag tag' : string) (result : BuildResult) :
  ~ In (SaveTag tag' result)
       (fst (runDockerfileBuild w f contextDir dockerfile tag)).
Proof.
  unfold_run. split_run; cbn [fst snd app]; intros H; find_event H.
Qed.

(** X28.  What runBuild builds and tags.  Building from a Dockerfile it
    builds the BuildKit image and nothing else, never with a forced pull
    whatever [--pull] says, and it saves no tag itself.  Otherwise it
    builds its first argument, forcing the pull exactly when [--pull] is
    set; it saves a tag only for the result of that build and only the
    non-empty [--tag]; and when saving the tag fails it returns that
    error without reporting the build. *)
Theorem runBuild_builds_and_tags (w : World) (f : BuildFlags) (args : list string) :
  (forall forcePull ref,
     In (ImageBuild forcePull ref) (fst (runBuild w f args)) ->
     if String.eqb (file f) ""
     then forcePull = pull f /\ head args = Some ref
     else forcePull = false /\ ref = buildkitImage)
  /\ (forall tag' result,
        In (SaveTag tag' result) (fst (runBuild w f args)) ->
        file f = "" /\ tag' = tag f /\ tag f <> ""
        /\ (exists ref, head args = Some ref
                        /\ builder_Build w (pull f) ref = inl result)
        /\ (forall err,
              builder_SaveTag w tag' result = Some err ->
              snd (runBuild w f args) = Cli.Return (Some ("saving tag: " +:+ err))
              /\ ~ In (WriteStdout ("Built: " +:+ RootfsPath result +:+ Cli.nl))
                      (fst (runBuild w f args)))).
Proof.
  split.
  - intros forcePull ref. unfold runBuild. destruct args as [|args0 rest];
      [intros []|].
    destruct (String.eqb (file f) "") eqn:Hfile; cbn [negb].
    + unfold_run. split_run; cbn [fst snd app]; intros H; find_event H;
        injection H as <- <-; split; reflexivity.
    + apply dockerfile_build_pulls_buildkit.
  - intros tag' result. unfold runBuild. destruct args as [|args0 rest];
      [intros []|].
    destruct (String.eqb (file f) "") eqn:Hfile; cbn [negb].
    2:{ intros H. destruct (dockerfile_build_saves_no_tag _ _ _ _ _ _ _ H). }
    apply String.eqb_eq in Hfile.
    unfold_run. split_run; cbn [fst snd app]; intros H; find_event H;
      injection H as <- <-.
    all: split; [exact Hfile|].
    all: split; [reflexivity|].
    all: split;
      [match goal with
       | Ht : negb (String.eqb ?t "") = true |- _ =>
           destruct (String.eqb_spec t ""); [discriminate Ht|assumption]
       end|].
    all: split; [eexists; split; [reflexivity|first [reflexivity|eassumption]]|].
    all: intros err Herr; split; [congruence|].
    all: intros H; find_event H; congruence.
Qed.

End BuildCmd.
